(** * civ6save-editing: the save-container codec and the tile-table walkers

    A shallow embedding of [index.js] (both revisions found in the
    repository): [decompress], [recompress], [modify], [modifytiles] and
    [savetomapjson], over a model of the Node [Buffer] operations they call.

    Conventions.
    - A [Buffer] is a [list byte]; offsets and lengths are [Z], because the
      code computes with [-1] (the "not found" answer of [indexOf]) and
      passes it on as an offset.
    - A JavaScript exception is a [Throw] in the [result] monad.
    - [zlib.deflateSync] and [zlib.inflateSync] belong to Node, not to the
      repository: they are taken as parameters. *)

From Stdlib Require Import ZArith List Lia Bool String Ascii.
From Stdlib Require Import Strings.Byte.
Import ListNotations.
Local Open Scope Z_scope.

(** ** Exceptions *)

Inductive js_error : Type :=
| RangeError   (* a Buffer read outside the buffer *)
| TypeError    (* property access on [undefined] *)
| ZlibError.   (* thrown by [zlib.inflateSync] *)

Inductive result (A : Type) : Type :=
| Ok (a : A)
| Throw (e : js_error).
Arguments Ok {A} a.
Arguments Throw {A} e.

Definition bind {A B : Type} (c : result A) (k : A -> result B) : result B :=
  match c with
  | Ok a => k a
  | Throw e => Throw e
  end.

Notation "x <- c ;; k" := (bind c (fun x => k))
  (at level 61, c at next level, right associativity).

Definition throws {A : Type} (c : result A) : Prop := exists e, c = Throw e.

(** ** Node's Buffer *)

Module Buffer.

Definition t : Type := list byte.

Definition length (b : t) : Z := Z.of_nat (List.length b).

Definition byte_of_Z (z : Z) : byte :=
  match Byte.of_N (Z.to_N (z mod 256)) with
  | Some b => b
  | None => x00
  end.

Definition Z_of_byte (b : byte) : Z := Z.of_N (Byte.to_N b).

(** [buf.slice(start, end)]: a negative index counts from the end, both
    indices are clamped into [0, length], and the result is empty when
    the end is not after the start. *)
Definition clamp (b : t) (i : Z) : Z :=
  if i <? 0 then Z.max 0 (length b + i) else Z.min i (length b).

Definition slice (b : t) (start stop : Z) : t :=
  let s := clamp b start in
  let e := clamp b stop in
  firstn (Z.to_nat (e - s)) (skipn (Z.to_nat s) b).

(** [buf.slice(start)] *)
Definition slice_from (b : t) (start : Z) : t := slice b start (length b).

(** [Buffer.concat(list)] *)
Definition concat (l : list t) : t := List.concat l.

Fixpoint starts_with (pat l : t) : bool :=
  match pat, l with
  | [], _ => true
  | _ :: _, [] => false
  | p :: pat', x :: l' => Byte.eqb p x && starts_with pat' l'
  end.

(** leftmost match in [l], whose first byte has offset [pos] *)
Fixpoint search_first (pat l : t) (pos : Z) : Z :=
  if starts_with pat l then pos
  else match l with
       | [] => -1
       | _ :: l' => search_first pat l' (pos + 1)
       end.

(** rightmost match in [l], whose first byte has offset [pos] *)
Fixpoint search_last (pat l : t) (pos : Z) : Z :=
  match l with
  | [] => if starts_with pat l then pos else -1
  | _ :: l' =>
      let r := search_last pat l' (pos + 1) in
      if r =? -1 then (if starts_with pat l then pos else -1) else r
  end.

(** [buf.indexOf(value, byteOffset)]: a negative [byteOffset] counts from
    the end of the buffer (and from the start when it reaches before it);
    [-1] when there is no match at or after it. *)
Definition indexOf (pat b : t) (byteOffset : Z) : Z :=
  let start :=
    if byteOffset <? 0 then Z.max 0 (length b + byteOffset) else byteOffset in
  if start + length pat <=? length b
  then search_first pat (skipn (Z.to_nat start) b) start
  else -1.

(** [buf.lastIndexOf(value)] *)
Definition lastIndexOf (pat b : t) : Z := search_last pat b 0.

(** [buf.writeInt32LE(value)] on a fresh [new Buffer(4)] *)
Definition writeInt32LE (v : Z) : t :=
  [ byte_of_Z v; byte_of_Z (v / 256);
    byte_of_Z (v / 65536); byte_of_Z (v / 16777216) ].

(** the checked reads: [RangeError] unless the whole field lies inside *)
Definition in_range (b : t) (off width : Z) : bool :=
  (0 <=? off) && (off + width <=? length b).

Definition get (b : t) (off : Z) : Z :=
  Z_of_byte (nth (Z.to_nat off) b x00).

Definition signed (width v : Z) : Z :=
  if v <? 2 ^ (8 * width - 1) then v else v - 2 ^ (8 * width).

Definition readUInt8 (b : t) (off : Z) : result Z :=
  if in_range b off 1 then Ok (get b off) else Throw RangeError.

Definition readInt8 (b : t) (off : Z) : result Z :=
  if in_range b off 1 then Ok (signed 1 (get b off)) else Throw RangeError.

Definition le16 (b : t) (off : Z) : Z := get b off + 256 * get b (off + 1).

Definition le32 (b : t) (off : Z) : Z :=
  get b off + 256 * get b (off + 1)
  + 65536 * get b (off + 2) + 16777216 * get b (off + 3).

Definition readUInt16LE (b : t) (off : Z) : result Z :=
  if in_range b off 2 then Ok (le16 b off) else Throw RangeError.

Definition readInt16LE (b : t) (off : Z) : result Z :=
  if in_range b off 2 then Ok (signed 2 (le16 b off)) else Throw RangeError.

Definition readUInt32LE (b : t) (off : Z) : result Z :=
  if in_range b off 4 then Ok (le32 b off) else Throw RangeError.

Definition readInt32LE (b : t) (off : Z) : result Z :=
  if in_range b off 4 then Ok (signed 4 (le32 b off)) else Throw RangeError.

(** [source.copy(target, targetStart)]: overwrites [target] from
    [targetStart] with as many bytes of [source] as fit; the target keeps
    its length. ([targetStart] is an offset the caller has just read at,
    never a negative number.) *)
Definition copy (source target : t) (targetStart : Z) : t :=
  let n := Z.to_nat targetStart in
  let room := (List.length target - n)%nat in
  firstn n target ++ firstn room source
    ++ skipn (n + List.length (firstn room source)) target.

(** [buf.toString('hex')] *)
Definition hex_digit (n : Z) : ascii :=
  ascii_of_nat (Z.to_nat (if n <? 10 then 48 + n else 87 + n)).

Fixpoint toString_hex (b : t) : string :=
  match b with
  | [] => EmptyString
  | x :: b' =>
      String (hex_digit (Z_of_byte x / 16))
        (String (hex_digit (Z_of_byte x mod 16)) (toString_hex b'))
  end.

End Buffer.

(** ** The container codec *)

Definition MOD_TITLE : Buffer.t := list_byte_of_string "MOD_TITLE".
Definition zlib_start : Buffer.t := [x78; x9c].
Definition sync_flush : Buffer.t := [x00; x00; xff; xff].

Definition chunkSize : Z := 64 * 1024.
Definition CHUNK_LENGTH : Z := 64 * 1024.

(** [while (pos < data.length) { chunks.push(data.slice(pos, pos + chunkSize));
    pos += chunkSize + 4; }]  Every turn moves [pos] forward, so
    [data.length] turns are enough (lemma [decompress_loop_fuel]). *)
Fixpoint decompress_loop (fuel : nat) (data : Buffer.t) (pos : Z)
    (chunks : list Buffer.t) : list Buffer.t :=
  match fuel with
  | O => chunks
  | S fuel' =>
      if pos <? Buffer.length data
      then decompress_loop fuel' data (pos + chunkSize + 4)
             (chunks ++ [Buffer.slice data pos (pos + chunkSize)])
      else chunks
  end.

(** [for (let i = 0; i < length; i += CHUNK_LENGTH) { ... }] *)
Fixpoint recompress_loop (fuel : nat) (compressedBuffer : Buffer.t) (i : Z)
    (chunks : list Buffer.t) : list Buffer.t :=
  match fuel with
  | O => chunks
  | S fuel' =>
      if i <? Buffer.length compressedBuffer
      then
        let slice := Buffer.slice compressedBuffer i (i + CHUNK_LENGTH) in
        let chunks1 :=
          if negb (i =? 0)
          then chunks ++ [Buffer.writeInt32LE (Buffer.length slice)]
          else chunks in
        recompress_loop fuel' compressedBuffer (i + CHUNK_LENGTH)
          (chunks1 ++ [Buffer.slice compressedBuffer i (i + CHUNK_LENGTH)])
      else chunks
  end.

Section Codec.

(** [zlib.deflateSync(buf, {finishFlush: zlib.Z_SYNC_FLUSH})] and
    [zlib.inflateSync(buf, {finishFlush: zlib.Z_SYNC_FLUSH})];
    [None] stands for a thrown zlib error. *)
Variable deflateSync : Buffer.t -> Buffer.t.
Variable inflateSync : Buffer.t -> option Buffer.t.

Definition inflate (b : Buffer.t) : result Buffer.t :=
  match inflateSync b with
  | Some d => Ok d
  | None => Throw ZlibError
  end.

Definition decompress (savefile : Buffer.t) : result Buffer.t :=
  let civsav := savefile in
  let modindex := Buffer.lastIndexOf MOD_TITLE civsav in
  let bufstartindex := Buffer.indexOf zlib_start civsav modindex in
  let bufendindex := Buffer.lastIndexOf sync_flush civsav in
  let data := Buffer.slice civsav bufstartindex bufendindex in
  (* drop 4 bytes away after every chunk *)
  let chunks := decompress_loop (List.length data) data 0 [] in
  let compressedData := Buffer.concat chunks in
  let decompressed := inflate compressedData in
  decompressed.

Definition recompress (savefile binfile : Buffer.t) : Buffer.t :=
  let compressedBuffer := deflateSync binfile in
  let chunks :=
    recompress_loop (List.length compressedBuffer) compressedBuffer 0 [] in
  let finalBuffer := Buffer.concat chunks in
  let civsav := savefile in
  let modindex := Buffer.lastIndexOf MOD_TITLE civsav in
  let bufstartindex := Buffer.indexOf zlib_start civsav modindex in
  let bufendindex := Buffer.lastIndexOf sync_flush civsav + 4 in
  let merged :=
    Buffer.concat
      [ Buffer.slice civsav 0 bufstartindex; finalBuffer;
        Buffer.slice_from civsav bufendindex ] in
  merged.

Definition modify (savefile : Buffer.t)
    (callback : Buffer.t -> result Buffer.t) : result Buffer.t :=
  bin <- decompress savefile ;;
  moddedbin <- callback bin ;;
  Ok (recompress savefile moddedbin).

End Codec.

(** Names for the parts of [decompress] and [recompress] the statements
    speak of. *)

(** the chunk framing of [recompress], from the deflate output to
    [finalBuffer] *)
Definition finalBuffer (compressedBuffer : Buffer.t) : Buffer.t :=
  Buffer.concat
    (recompress_loop (List.length compressedBuffer) compressedBuffer 0 []).

(** the chunk unframing of [decompress], from [data] to [compressedData] *)
Definition compressedData (data : Buffer.t) : Buffer.t :=
  Buffer.concat (decompress_loop (List.length data) data 0 []).

(** the three boundary searches, the same in [decompress] and [recompress] *)
Definition modindex (civsav : Buffer.t) : Z :=
  Buffer.lastIndexOf MOD_TITLE civsav.
Definition bufstartindex (civsav : Buffer.t) : Z :=
  Buffer.indexOf zlib_start civsav (modindex civsav).
Definition sync_index (civsav : Buffer.t) : Z :=
  Buffer.lastIndexOf sync_flush civsav.

(** ** The tile table *)

Definition searchBuffer : Buffer.t :=
  [x0e; x00; x00; x00; x0f; x00; x00; x00; x06; x00; x00; x00].

(** JavaScript truthiness of a number *)
Definition truthy (z : Z) : bool := negb (z =? 0).

(** *** [modifytiles] (the same text in both revisions of [index.js]) *)

(** [let buflength = 0; num && (buflength += 24);
    (num2 >= 64) && (buflength += 17);] *)
Definition modifytiles_buflength (num2 num : Z) : Z :=
  let buflength := 0 in
  let buflength := if truthy num then buflength + 24 else buflength in
  let buflength := if 64 <=? num2 then buflength + 17 else buflength in
  buflength.

Section ModifyTiles.

(** the per-tile callback, taken as a function from the bytes it is handed
    to the bytes it returns *)
Variable callback : Buffer.t -> Buffer.t.

(** one turn of the loop: the blob after the write-back and the next
    [mindex] *)
Definition modifytiles_turn (bin : Buffer.t) (mindex : Z)
    : result (Buffer.t * Z) :=
  num2 <- Buffer.readUInt8 bin (mindex + 49) ;;
  num <- Buffer.readUInt32LE bin (mindex + 51) ;;
  let buflength := modifytiles_buflength num2 num in
  let tilebuf := Buffer.slice bin mindex (mindex + 55 + buflength) in
  let newtilebuf := callback tilebuf in
  let bin := Buffer.copy newtilebuf bin mindex in
  Ok (bin, mindex + 55 + buflength).

(** [for (let i = 0; i < tiles; i++)]: [n] turns are left *)
Fixpoint modifytiles_loop (n : nat) (bin : Buffer.t) (mindex : Z)
    : result Buffer.t :=
  match n with
  | O => Ok bin
  | S n' =>
      st <- modifytiles_turn bin mindex ;;
      modifytiles_loop n' (fst st) (snd st)
  end.

(** the arrow function [bin => { ... }] handed to [modify] *)
Definition modifytiles_bin (bin : Buffer.t) : result Buffer.t :=
  let mapstartindex := Buffer.indexOf searchBuffer bin 0 in
  tiles <- Buffer.readInt32LE bin (mapstartindex + 12) ;;
  let mindex := mapstartindex + 16 in
  modifytiles_loop (Z.to_nat tiles) bin mindex.

End ModifyTiles.

Definition modifytiles (deflateSync : Buffer.t -> Buffer.t)
    (inflateSync : Buffer.t -> option Buffer.t)
    (savefile : Buffer.t) (callback : Buffer.t -> Buffer.t) : result Buffer.t :=
  modify deflateSync inflateSync savefile (modifytiles_bin callback).

(** *** [savetomapjson] *)

(** [mapsizedata[tiles]]; [None] is [undefined] *)
Definition mapsizedata (tiles : Z) : option (Z * Z) :=
  if tiles =? 1144 then Some (44, 26)
  else if tiles =? 2280 then Some (60, 38)
  else if tiles =? 3404 then Some (74, 46)
  else if tiles =? 4536 then Some (84, 54)
  else if tiles =? 5760 then Some (96, 60)
  else if tiles =? 6996 then Some (106, 66)
  else None.

(** [mapsizedata[tiles].x]: reading [.x] of [undefined] throws *)
Definition mapsizedata_x (tiles : Z) : result Z :=
  match mapsizedata tiles with
  | Some size => Ok (fst size)
  | None => Throw TypeError
  end.

(** The revision of [savetomapjson] that keeps the sub-buffers apart
    ([buffer1] .. [buffer4]). *)
Module Split.

Record tile : Type := {
  x : Z; y : Z; hex_location : Z;
  int16_1 : Z; int16_2 : Z; int16_3 : Z; int16_4 : Z;
  landmass : Z; terrain : Z; feature : Z; natural_wonder : Z;
  continent : Z; number_of_units : Z; resource : Z; resource_boolean : Z;
  improvement : Z; improvement_owner : Z; road_level : Z; appeal : Z;
  river_e : Z; river_se : Z; river_sw : Z; river_count : Z;
  river_map : Z; cliff_map : Z;
  flags1 : Z; flags2 : Z; flags3 : Z; flags4 : Z;
  flags5 : Z; flags6 : Z; flags7 : Z;
  buffer1 : string;
  buffer1_flag : option Z;   (* [None] is the empty string [''] *)
  buffer2 : string; buffer3 : string; buffer4 : string;
  tile_length : Z
}.

Record map : Type := { tiles : list tile }.

(** one turn of the loop: the pushed object and the next [mindex] *)
Definition turn (bin : Buffer.t) (tiles i mindex : Z) : result (tile * Z) :=
  let orig_mindex := mindex in
  sx <- mapsizedata_x tiles ;;
  let o_x := i mod sx in
  sx' <- mapsizedata_x tiles ;;
  let o_y := i / sx' in
  let o_hex_location := mindex in
  o_int16_1 <- Buffer.readInt16LE bin mindex ;;
  o_int16_2 <- Buffer.readInt16LE bin (mindex + 2) ;;
  o_int16_3 <- Buffer.readInt16LE bin (mindex + 4) ;;
  o_int16_4 <- Buffer.readInt16LE bin (mindex + 8) ;;
  o_landmass <- Buffer.readInt32LE bin (mindex + 8) ;;
  o_terrain <- Buffer.readUInt32LE bin (mindex + 12) ;;
  o_feature <- Buffer.readUInt32LE bin (mindex + 16) ;;
  o_natural_wonder <- Buffer.readInt16LE bin (mindex + 20) ;;
  o_continent <- Buffer.readUInt32LE bin (mindex + 22) ;;
  o_number_of_units <- Buffer.readInt8 bin (mindex + 26) ;;
  o_resource <- Buffer.readUInt32LE bin (mindex + 27) ;;
  o_resource_boolean <- Buffer.readInt16LE bin (mindex + 31) ;;
  o_improvement <- Buffer.readUInt32LE bin (mindex + 33) ;;
  o_improvement_owner <- Buffer.readInt8 bin (mindex + 37) ;;
  o_road_level <- Buffer.readInt16LE bin (mindex + 38) ;;
  o_appeal <- Buffer.readInt16LE bin (mindex + 40) ;;
  o_river_e <- Buffer.readInt8 bin (mindex + 42) ;;
  o_river_se <- Buffer.readInt8 bin (mindex + 43) ;;
  o_river_sw <- Buffer.readInt8 bin (mindex + 44) ;;
  o_river_count <- Buffer.readUInt8 bin (mindex + 45) ;;
  o_river_map <- Buffer.readUInt8 bin (mindex + 46) ;;
  o_cliff_map <- Buffer.readUInt8 bin (mindex + 47) ;;
  o_flags1 <- Buffer.readUInt8 bin (mindex + 48) ;;
  o_flags2 <- Buffer.readUInt8 bin (mindex + 49) ;;
  o_flags3 <- Buffer.readUInt8 bin (mindex + 50) ;;
  o_flags4 <- Buffer.readUInt8 bin (mindex + 51) ;;
  o_flags5 <- Buffer.readUInt8 bin (mindex + 52) ;;
  o_flags6 <- Buffer.readUInt8 bin (mindex + 53) ;;
  o_flags7 <- Buffer.readUInt8 bin (mindex + 54) ;;
  let mindex := mindex + 55 in
  (* if (obj['flags4'] & 1) { buffer1, buffer1_flag, maybe buffer2 } *)
  st1 <-
    (if truthy (Z.land o_flags4 1) then
       let b1 := Buffer.toString_hex (Buffer.slice bin mindex (mindex + 24)) in
       b1_flag <- Buffer.readUInt8 bin (mindex + 20) ;;
       let mindex := mindex + 24 in
       if truthy (Z.land b1_flag 1) then
         let b2 :=
           Buffer.toString_hex (Buffer.slice bin mindex (mindex + 20)) in
         Ok (b1, Some b1_flag, b2, mindex + 20)
       else Ok (b1, Some b1_flag, EmptyString, mindex)
     else Ok (EmptyString, None, EmptyString, mindex)) ;;
  let '(o_buffer1, o_buffer1_flag, o_buffer2, mindex) := st1 in
  (* if (obj['flags4'] & 2) { buffer3 } *)
  let '(o_buffer3, mindex) :=
    if truthy (Z.land o_flags4 2) then
      (Buffer.toString_hex (Buffer.slice bin mindex (mindex + 44)),
       mindex + 44)
    else (EmptyString, mindex) in
  (* if (obj['flags2'] & 64) { buffer4 } *)
  let '(o_buffer4, mindex) :=
    if truthy (Z.land o_flags2 64) then
      (Buffer.toString_hex (Buffer.slice bin mindex (mindex + 17)),
       mindex + 17)
    else (EmptyString, mindex) in
  Ok ({| x := o_x; y := o_y; hex_location := o_hex_location;
         int16_1 := o_int16_1; int16_2 := o_int16_2;
         int16_3 := o_int16_3; int16_4 := o_int16_4;
         landmass := o_landmass; terrain := o_terrain;
         feature := o_feature; natural_wonder := o_natural_wonder;
         continent := o_continent; number_of_units := o_number_of_units;
         resource := o_resource; resource_boolean := o_resource_boolean;
         improvement := o_improvement;
         improvement_owner := o_improvement_owner;
         road_level := o_road_level; appeal := o_appeal;
         river_e := o_river_e; river_se := o_river_se;
         river_sw := o_river_sw; river_count := o_river_count;
         river_map := o_river_map; cliff_map := o_cliff_map;
         flags1 := o_flags1; flags2 := o_flags2; flags3 := o_flags3;
         flags4 := o_flags4; flags5 := o_flags5; flags6 := o_flags6;
         flags7 := o_flags7;
         buffer1 := o_buffer1; buffer1_flag := o_buffer1_flag;
         buffer2 := o_buffer2; buffer3 := o_buffer3; buffer4 := o_buffer4;
         tile_length := mindex - orig_mindex |},
      mindex).

(** [for (let i = 0; i < tiles; i++)]: [n] turns are left *)
Fixpoint loop (n : nat) (bin : Buffer.t) (tiles i mindex : Z)
    (acc : list tile) : result (list tile) :=
  match n with
  | O => Ok acc
  | S n' =>
      st <- turn bin tiles i mindex ;;
      loop n' bin tiles (i + 1) (snd st) (acc ++ [fst st])
  end.

(** the body of [savetomapjson] after [decompress] *)
Definition savetomapjson_bin (bin : Buffer.t) : result map :=
  let mapstartindex := Buffer.indexOf searchBuffer bin 0 in
  tiles <- Buffer.readInt32LE bin (mapstartindex + 12) ;;
  let mindex := mapstartindex + 16 in
  ts <- loop (Z.to_nat tiles) bin tiles 0 mindex [] ;;
  Ok {| tiles := ts |}.

Definition savetomapjson (inflateSync : Buffer.t -> option Buffer.t)
    (savefile : Buffer.t) : result map :=
  bin <- decompress inflateSync savefile ;;
  savetomapjson_bin bin.

End Split.

(** The revision of [savetomapjson] that reports one trailing [buffer]. *)
Module Flat.

Record tile : Type := {
  x : Z; y : Z; hex_location : Z; tile_length : Z;
  int16_1 : Z; int16_2 : Z; int16_3 : Z; int16_4 : Z;
  landmass : Z; terrain : Z; feature : Z; natural_wonder : Z;
  continent : Z; number_of_units : Z; resource_type : Z;
  resource_boolean : Z; improvement : Z; improvement_player : Z;
  road_level : Z; road_level_2 : Z; appeal : Z;
  river_e : Z; river_se : Z; river_sw : Z; river_count : Z;
  river_map : Z; cliff_map : Z;
  flags1 : Z; flags2 : Z; flags3 : Z; flags4 : Z;
  flags5 : Z; flags6 : Z; flags7 : Z;
  buffer : string
}.

Record map : Type := { tiles : list tile }.

(** [(num1 & 64) && (buflength += 17); (num2 & 1) && (buflength += 24);
    (num2 & 2) && (buflength += 44);] *)
Definition buflength_of (num1 num2 : Z) : Z :=
  let buflength := 0 in
  let buflength :=
    if truthy (Z.land num1 64) then buflength + 17 else buflength in
  let buflength :=
    if truthy (Z.land num2 1) then buflength + 24 else buflength in
  let buflength :=
    if truthy (Z.land num2 2) then buflength + 44 else buflength in
  buflength.

Definition turn (bin : Buffer.t) (tiles i mindex : Z) : result (tile * Z) :=
  num1 <- Buffer.readUInt8 bin (mindex + 49) ;;
  num2 <- Buffer.readUInt8 bin (mindex + 51) ;;
  let buflength := buflength_of num1 num2 in
  sx <- mapsizedata_x tiles ;;
  let o_x := i mod sx in
  sx' <- mapsizedata_x tiles ;;
  let o_y := i / sx' in
  let o_hex_location := mindex in
  let o_tile_length := 55 + buflength in
  o_int16_1 <- Buffer.readUInt16LE bin mindex ;;
  o_int16_2 <- Buffer.readUInt16LE bin (mindex + 2) ;;
  o_int16_3 <- Buffer.readUInt16LE bin (mindex + 4) ;;
  o_int16_4 <- Buffer.readUInt16LE bin (mindex + 8) ;;
  o_landmass <- Buffer.readUInt32LE bin (mindex + 8) ;;
  o_terrain <- Buffer.readUInt32LE bin (mindex + 12) ;;
  o_feature <- Buffer.readUInt32LE bin (mindex + 16) ;;
  o_natural_wonder <- Buffer.readInt16LE bin (mindex + 20) ;;
  o_continent <- Buffer.readUInt32LE bin (mindex + 22) ;;
  o_number_of_units <- Buffer.readInt8 bin (mindex + 26) ;;
  o_resource_type <- Buffer.readUInt32LE bin (mindex + 27) ;;
  o_resource_boolean <- Buffer.readInt16LE bin (mindex + 31) ;;
  o_improvement <- Buffer.readUInt32LE bin (mindex + 33) ;;
  o_improvement_player <- Buffer.readUInt8 bin (mindex + 37) ;;
  o_road_level <- Buffer.readUInt8 bin (mindex + 38) ;;
  o_road_level_2 <- Buffer.readUInt8 bin (mindex + 39) ;;
  o_appeal <- Buffer.readInt16LE bin (mindex + 40) ;;
  o_river_e <- Buffer.readUInt8 bin (mindex + 42) ;;
  o_river_se <- Buffer.readUInt8 bin (mindex + 43) ;;
  o_river_sw <- Buffer.readUInt8 bin (mindex + 44) ;;
  o_river_count <- Buffer.readUInt8 bin (mindex + 45) ;;
  o_river_map <- Buffer.readUInt8 bin (mindex + 46) ;;
  o_cliff_map <- Buffer.readInt8 bin (mindex + 47) ;;
  o_flags1 <- Buffer.readUInt8 bin (mindex + 48) ;;
  o_flags2 <- Buffer.readUInt8 bin (mindex + 49) ;;
  o_flags3 <- Buffer.readUInt8 bin (mindex + 50) ;;
  o_flags4 <- Buffer.readUInt8 bin (mindex + 51) ;;
  o_flags5 <- Buffer.readUInt8 bin (mindex + 52) ;;
  o_flags6 <- Buffer.readUInt8 bin (mindex + 53) ;;
  o_flags7 <- Buffer.readUInt8 bin (mindex + 54) ;;
  let o_buffer :=
    Buffer.toString_hex
      (Buffer.slice bin (mindex + 55) (mindex + 55 + buflength)) in
  Ok ({| x := o_x; y := o_y; hex_location := o_hex_location;
         tile_length := o_tile_length;
         int16_1 := o_int16_1; int16_2 := o_int16_2;
         int16_3 := o_int16_3; int16_4 := o_int16_4;
         landmass := o_landmass; terrain := o_terrain;
         feature := o_feature; natural_wonder := o_natural_wonder;
         continent := o_continent; number_of_units := o_number_of_units;
         resource_type := o_resource_type;
         resource_boolean := o_resource_boolean;
         improvement := o_improvement;
         improvement_player := o_improvement_player;
         road_level := o_road_level; road_level_2 := o_road_level_2;
         appeal := o_appeal;
         river_e := o_river_e; river_se := o_river_se;
         river_sw := o_river_sw; river_count := o_river_count;
         river_map := o_river_map; cliff_map := o_cliff_map;
         flags1 := o_flags1; flags2 := o_flags2; flags3 := o_flags3;
         flags4 := o_flags4; flags5 := o_flags5; flags6 := o_flags6;
         flags7 := o_flags7;
         buffer := o_buffer |},
      mindex + 55 + buflength).

Fixpoint loop (n : nat) (bin : Buffer.t) (tiles i mindex : Z)
    (acc : list tile) : result (list tile) :=
  match n with
  | O => Ok acc
  | S n' =>
      st <- turn bin tiles i mindex ;;
      loop n' bin tiles (i + 1) (snd st) (acc ++ [fst st])
  end.

Definition savetomapjson_bin (bin : Buffer.t) : result map :=
  let mapstartindex := Buffer.indexOf searchBuffer bin 0 in
  tiles <- Buffer.readInt32LE bin (mapstartindex + 12) ;;
  let mindex := mapstartindex + 16 in
  ts <- loop (Z.to_nat tiles) bin tiles 0 mindex [] ;;
  Ok {| tiles := ts |}.

Definition savetomapjson (inflateSync : Buffer.t -> option Buffer.t)
    (savefile : Buffer.t) : result map :=
  bin <- decompress inflateSync savefile ;;
  savetomapjson_bin bin.

End Flat.

(** ** The record layout of the data model

    The length the data model gives a record whose 55-byte header starts at
    [mindex]: [flags2] is the byte at offset 49, [flags4] the byte at offset
    51, and the flag of sub-buffer A its byte at relative offset 20. *)
Definition spec_record_length (bin : Buffer.t) (mindex : Z) : Z :=
  let flags2 := Buffer.get bin (mindex + 49) in
  let flags4 := Buffer.get bin (mindex + 51) in
  let bufferA_flag := Buffer.get bin (mindex + 55 + 20) in
  let has_A := Z.testbit flags4 0 in
  55 + (if has_A then 24 else 0)
     + (if has_A && Z.testbit bufferA_flag 0 then 20 else 0)
     + (if Z.testbit flags4 1 then 44 else 0)
     + (if Z.testbit flags2 6 then 17 else 0).

(** ** Vocabulary of the statements *)

(** the three boundary markers of a container are all found *)
Definition markers_located (savefile : Buffer.t) : Prop :=
  modindex savefile <> -1 /\ bufstartindex savefile <> -1
  /\ sync_index savefile <> -1.

(** The framed compressed stream: [framed D F] says that [F] is the byte
    run [D] cut into 64 KiB chunks (only the last one may be shorter), the
    first chunk bare and every later chunk behind its own length written as
    a 4-byte little-endian integer. *)
Inductive framed_rest : Buffer.t -> Buffer.t -> Prop :=
| framed_rest_nil : framed_rest [] []
| framed_rest_cons (c D F : Buffer.t) :
    1 <= Buffer.length c <= CHUNK_LENGTH ->
    (D <> [] -> Buffer.length c = CHUNK_LENGTH) ->
    framed_rest D F ->
    framed_rest (c ++ D) (Buffer.writeInt32LE (Buffer.length c) ++ c ++ F).

Inductive framed : Buffer.t -> Buffer.t -> Prop :=
| framed_nil : framed [] []
| framed_first (c D F : Buffer.t) :
    1 <= Buffer.length c <= CHUNK_LENGTH ->
    (D <> [] -> Buffer.length c = CHUNK_LENGTH) ->
    framed_rest D F ->
    framed (c ++ D) (c ++ F).

(** the length of the last 64 KiB chunk of a non-empty byte run *)
Definition last_chunk_length (D : Buffer.t) : Z :=
  (Buffer.length D - 1) mod CHUNK_LENGTH + 1.

(** what [decompress] makes of a framed stream, told by its shape: full
    chunks each followed by four bytes that are dropped, then a last chunk,
    or up to four stray bytes after a full chunk *)
Inductive unframes : Buffer.t -> Buffer.t -> Prop :=
| unframes_last (c : Buffer.t) :
    Buffer.length c <= chunkSize -> unframes c c
| unframes_stray (c g : Buffer.t) :
    Buffer.length c = chunkSize -> Buffer.length g <= 4 ->
    unframes (c ++ g) c
| unframes_step (c p rest out : Buffer.t) :
    Buffer.length c = chunkSize -> Buffer.length p = 4 ->
    unframes rest out ->
    unframes (c ++ p ++ rest) (c ++ out).


(** What it means for the sub-buffers of a decoded record [t] to match its
    flag bytes in the blob [bin]: A, B, C and D are the fields [buffer1],
    [buffer2], [buffer3] and [buffer4]; a sub-buffer is present when its
    field is not the empty string; the sizes are in hex digits, two to a
    byte; and the fields follow one another in the record in that order. *)
Definition subbuffers_match_flags (bin : Buffer.t) (t : Split.tile) : Prop :=
  let o := Split.hex_location t + 55 in
  let A := Z.land (Split.flags4 t) 1 <> 0 in
  let B := A /\ Z.land (Buffer.get bin (o + 20)) 1 <> 0 in
  let C := Z.land (Split.flags4 t) 2 <> 0 in
  let D := Z.land (Split.flags2 t) 64 <> 0 in
  Split.flags2 t = Buffer.get bin (Split.hex_location t + 49) /\
  Split.flags4 t = Buffer.get bin (Split.hex_location t + 51) /\
  (Split.buffer1 t <> EmptyString <-> A) /\
  (A -> String.length (Split.buffer1 t) = (2 * 24)%nat /\
        Split.buffer1_flag t = Some (Buffer.get bin (o + 20))) /\
  (Split.buffer2 t <> EmptyString <-> B) /\
  (B -> String.length (Split.buffer2 t) = (2 * 20)%nat) /\
  (Split.buffer3 t <> EmptyString <-> C) /\
  (C -> String.length (Split.buffer3 t) = (2 * 44)%nat) /\
  (Split.buffer4 t <> EmptyString <-> D) /\
  (D -> String.length (Split.buffer4 t) = (2 * 17)%nat) /\
  (Split.buffer1 t ++ Split.buffer2 t ++ Split.buffer3 t ++ Split.buffer4 t)%string
  = Buffer.toString_hex
      (Buffer.slice bin o (Split.hex_location t + Split.tile_length t)).


(** the tile counts [mapsizedata] knows *)
Definition recognized (tiles : Z) : Prop :=
  In tiles [1144; 2280; 3404; 4536; 5760; 6996].

(** the tile count as [modifytiles] and [savetomapjson] read it: the 32-bit
    integer 12 bytes after whatever [indexOf] answered for the marker *)
Definition tile_count (bin : Buffer.t) : result Z :=
  Buffer.readInt32LE bin (Buffer.indexOf searchBuffer bin 0 + 12).

(** the byte pattern [pat] occurs in [b] at offset [p]; [b] contains [pat] *)
Definition occurs_at (pat b : Buffer.t) (p : Z) : Prop :=
  0 <= p /\ Buffer.starts_with pat (skipn (Z.to_nat p) b) = true.

Definition contains (pat b : Buffer.t) : Prop := exists p, occurs_at pat b p.

(** ** Sample inputs *)

(** deflate outputs of exactly 64 KiB and of 64 KiB + 10 bytes *)
Definition full_chunk : Buffer.t := repeat x2a (Z.to_nat CHUNK_LENGTH).
Definition chunk_and_ten : Buffer.t :=
  repeat x2a (Z.to_nat (CHUNK_LENGTH + 10)).

(** A stand-in for the zlib pair, to run the codec on sample files: a
    deflater that emits stored (uncompressed) blocks only, behind the zlib
    header [78 9c] and closed by the empty stored block of a sync flush;
    and the inflater of such streams, which stops without complaint where
    its input ends. *)
Definition stored_block (b : Buffer.t) : Buffer.t :=
  [x00; Buffer.byte_of_Z (Buffer.length b);
   Buffer.byte_of_Z (Buffer.length b / 256);
   Buffer.byte_of_Z (65535 - Buffer.length b);
   Buffer.byte_of_Z ((65535 - Buffer.length b) / 256)] ++ b.

Fixpoint stored_blocks (fuel : nat) (b : Buffer.t) : Buffer.t :=
  match fuel, b with
  | S fuel', _ :: _ =>
      stored_block (firstn (Z.to_nat 65535) b)
      ++ stored_blocks fuel' (skipn (Z.to_nat 65535) b)
  | _, _ => []
  end.

Definition stored_deflateSync (b : Buffer.t) : Buffer.t :=
  zlib_start ++ stored_blocks (List.length b) b ++ [x00; x00; x00; xff; xff].

Fixpoint stored_inflate_blocks (fuel : nat) (b : Buffer.t) : option Buffer.t :=
  match fuel, b with
  | S fuel', hd :: rest =>
      if Byte.eqb hd x00 then
        if Buffer.in_range rest 0 4 then
          let len := Buffer.le16 rest 0 in
          if len + Buffer.le16 rest 2 =? 65535 then
            let body := skipn 4 rest in
            match stored_inflate_blocks fuel' (skipn (Z.to_nat len) body) with
            | Some out => Some (firstn (Z.to_nat len) body ++ out)
            | None => None
            end
          else None
        else Some []
      else None
  | _, _ => Some []
  end.

Definition stored_inflateSync (b : Buffer.t) : option Buffer.t :=
  match b with
  | [] => Some []
  | _ =>
      if Buffer.starts_with zlib_start b
      then stored_inflate_blocks (List.length b) (skipn 2 b)
      else None
  end.

(** a small save file: header bytes, the marker, the stored stream of the
    blob [0a 0b], two trailing bytes *)
Definition sample_save : Buffer.t :=
  list_byte_of_string "CIV6" ++ MOD_TITLE ++ [x01]
  ++ stored_deflateSync [x0a; x0b] ++ [x07; x07].

(** the same file without the marker *)
Definition sample_without_marker : Buffer.t :=
  list_byte_of_string "CIV6" ++ [x01]
  ++ stored_deflateSync [x0a; x0b] ++ [x07; x07].

(** a file whose only sync-flush marker lies before its [MOD_TITLE] *)
Definition inverted_save : Buffer.t := sync_flush ++ MOD_TITLE ++ zlib_start.

(** a tile record with all four sub-buffers: [flags2 = 40], [flags4 = 03],
    sub-buffer A with bit 0 of its byte 20 set, then B, C and D *)
Definition sample_record : Buffer.t :=
  repeat x00 49 ++ [x40; x00; x03; x00; x00; x00]
  ++ (repeat xa1 20 ++ [x01; xa1; xa1; xa1])
  ++ repeat xb2 20 ++ repeat xc3 44 ++ repeat xd4 17.

(** a blob that is just the table marker and a tile count of zero *)
Definition zero_count_blob : Buffer.t := searchBuffer ++ [x00; x00; x00; x00].

(** a table of one record without sub-buffers (a count [mapsizedata] does
    not know) *)
Definition one_tile_blob : Buffer.t :=
  searchBuffer ++ [x01; x00; x00; x00] ++ repeat x11 55.

(** a blob without the table marker: fifteen bytes with the number 1 at
    offset 11, then 55 bytes *)
Definition unmarked_blob : Buffer.t :=
  repeat x00 11 ++ [x01; x00; x00; x00] ++ repeat x00 55.

(** a tile record with sub-buffer C only: [flags4 = 02], then 44 bytes *)
Definition record_with_C : Buffer.t :=
  repeat x00 49 ++ [x00; x00; x02; x00; x00; x00] ++ repeat xc3 44.

(** a bare tile record whose [flags5] (the byte after [flags4]) is 01 *)
Definition record_with_flags5 : Buffer.t :=
  repeat x00 49 ++ [x00; x00; x00; x01; x00; x00].

(** a bare tile record whose [flags2] is 80: bit 7 set, bit 6 clear *)
Definition record_with_flags2_bit7 : Buffer.t :=
  repeat x00 49 ++ [x80; x00; x00; x00; x00; x00].


(** ** File names *)

(** JavaScript strings, as far as [verifyextension] uses them: a string is
    the sequence of its code units, [s.slice(beginIndex)] counts a negative
    index from the end and clamps it into the string, [+] is [append] and
    [!==] compares code unit by code unit. *)
Module JsString.

Definition slice_from (s : string) (beginIndex : Z) : string :=
  let len := Z.of_nat (String.length s) in
  let from :=
    if beginIndex <? 0 then Z.max (len + beginIndex) 0
    else Z.min beginIndex len in
  substring (Z.to_nat from) (Z.to_nat (len - from)) s.

End JsString.

(** [function verifyextension(filename, extension = '.Civ6Save')] *)
Definition default_extension : string := ".Civ6Save".

Definition verifyextension (filename extension : string) : string :=
  if negb (String.eqb (JsString.slice_from filename (-9)) extension)
  then (filename ++ extension)%string
  else filename.

(** [s] ends with [suffix] *)
Definition ends_with (suffix s : string) : Prop :=
  exists prefix, s = (prefix ++ suffix)%string.

(** ** More sample inputs *)

(** a save file whose compressed blob is [one_tile_blob] *)
Definition tile_save : Buffer.t :=
  list_byte_of_string "CIV6" ++ MOD_TITLE ++ [x01]
  ++ stored_deflateSync one_tile_blob ++ [x07; x07].

(** a table that announces two records and holds one *)
Definition short_table : Buffer.t :=
  searchBuffer ++ [x02; x00; x00; x00] ++ repeat x11 55.

(** a callback of [modifytiles] that never returns more bytes than it is
    handed *)
Definition not_lengthening (callback : Buffer.t -> Buffer.t) : Prop :=
  forall tilebuf, Buffer.length (callback tilebuf) <= Buffer.length tilebuf.

(** two tile records, one after the other: one with all four sub-buffers
    (160 bytes), one with sub-buffer C only (99 bytes) *)
Definition two_records : Buffer.t := sample_record ++ record_with_C.

(** a tile record with sub-buffers A and D only, bit 0 of A's byte 20
    clear: [flags2 = 40], [flags4 = 01] *)
Definition plain_record : Buffer.t :=
  repeat x00 49 ++ [x40; x00; x01; x00; x00; x00]
  ++ (repeat xa1 20 ++ [x00; xa1; xa1; xa1]) ++ repeat xd4 17.

(** a record whose header announces sub-buffer A, cut after the header *)
Definition cut_record : Buffer.t :=
  repeat x00 49 ++ [x00; x00; x01; x00; x00; x00].

(** a turn of a decoder loop returns a record *)
Definition decodes {tile : Type} (r : result (tile * Z)) : Prop :=
  exists t m', r = Ok (t, m').

(** [sample_record] with other bytes at offsets 6 and 7 of its header *)
Definition sample_record_67 : Buffer.t :=
  repeat x00 6 ++ [xee; xee] ++ skipn 8 sample_record.

(** a bare tile record whose bytes 8 to 11 are [fe ff 01 00] *)
Definition landmass_record : Buffer.t :=
  repeat x00 8 ++ [xfe; xff; x01; x00] ++ repeat x00 43.


From Stdlib Require Import DecimalString.

(** ** The table script, [scripts/savetomaptable.js] *)

(** the values of a tile object: numbers and strings *)
Inductive json_value : Type :=
| JNumber (z : Z)
| JString (s : string).

(** an object, as [Object.keys] and [Object.values] see it: its own
    properties in the order they were added *)
Definition object : Type := list (string * json_value).

Definition Object_keys (o : object) : list string := List.map fst o.
Definition Object_values (o : object) : list json_value := List.map snd o.

(** the object [savetomapjson] pushes for a tile: the properties of the
    literal, then [buffer1], [buffer1_flag], [buffer2], [buffer3],
    [buffer4] and [tile_length] as they are assigned *)
Definition Split_object (t : Split.tile) : object :=
  [ ("x", JNumber (Split.x t)); ("y", JNumber (Split.y t));
    ("hex_location", JNumber (Split.hex_location t));
    ("int16_1", JNumber (Split.int16_1 t));
    ("int16_2", JNumber (Split.int16_2 t));
    ("int16_3", JNumber (Split.int16_3 t));
    ("int16_4", JNumber (Split.int16_4 t));
    ("landmass", JNumber (Split.landmass t));
    ("terrain", JNumber (Split.terrain t));
    ("feature", JNumber (Split.feature t));
    ("natural_wonder", JNumber (Split.natural_wonder t));
    ("continent", JNumber (Split.continent t));
    ("number_of_units", JNumber (Split.number_of_units t));
    ("resource", JNumber (Split.resource t));
    ("resource_boolean", JNumber (Split.resource_boolean t));
    ("improvement", JNumber (Split.improvement t));
    ("improvement_owner", JNumber (Split.improvement_owner t));
    ("road_level", JNumber (Split.road_level t));
    ("appeal", JNumber (Split.appeal t));
    ("river_e", JNumber (Split.river_e t));
    ("river_se", JNumber (Split.river_se t));
    ("river_sw", JNumber (Split.river_sw t));
    ("river_count", JNumber (Split.river_count t));
    ("river_map", JNumber (Split.river_map t));
    ("cliff_map", JNumber (Split.cliff_map t));
    ("flags1", JNumber (Split.flags1 t));
    ("flags2", JNumber (Split.flags2 t));
    ("flags3", JNumber (Split.flags3 t));
    ("flags4", JNumber (Split.flags4 t));
    ("flags5", JNumber (Split.flags5 t));
    ("flags6", JNumber (Split.flags6 t));
    ("flags7", JNumber (Split.flags7 t));
    ("buffer1", JString (Split.buffer1 t));
    ("buffer1_flag",
     match Split.buffer1_flag t with
     | Some v => JNumber v
     | None => JString EmptyString
     end);
    ("buffer2", JString (Split.buffer2 t));
    ("buffer3", JString (Split.buffer3 t));
    ("buffer4", JString (Split.buffer4 t));
    ("tile_length", JNumber (Split.tile_length t)) ]%string.

Definition tab : ascii := "009"%char.
Definition newline : ascii := "010"%char.
Definition quote : ascii := "034"%char.
Definition backslash : ascii := "092"%char.

(** one character inside the quotes of [JSON.stringify]: the two-character
    escapes, [\u00xx] for the other control characters, the character
    itself otherwise *)
Definition escape (c : ascii) : string :=
  let n := Z.of_nat (nat_of_ascii c) in
  if n =? 8 then String backslash "b"
  else if n =? 9 then String backslash "t"
  else if n =? 10 then String backslash "n"
  else if n =? 12 then String backslash "f"
  else if n =? 13 then String backslash "r"
  else if n =? 34 then String backslash (String quote EmptyString)
  else if n =? 92 then String backslash (String backslash EmptyString)
  else if n <? 32 then
    String backslash
      (String "u" (String "0" (String "0"
         (String (Buffer.hex_digit (n / 16))
            (String (Buffer.hex_digit (n mod 16)) EmptyString)))))
  else String c EmptyString.

Fixpoint escape_string (s : string) : string :=
  match s with
  | EmptyString => EmptyString
  | String c s' => (escape c ++ escape_string s')%string
  end.

(** [JSON.stringify(b)] of a whole number or a string *)
Definition JSON_stringify (b : json_value) : string :=
  match b with
  | JNumber z => NilZero.string_of_int (Z.to_int z)
  | JString s =>
      String quote (escape_string s ++ String quote EmptyString)
  end.

(** the text of the table: [Object.keys] of [undefined] throws *)
Definition table (tiles : list object) : result string :=
  match nth_error tiles 0 with
  | None => Throw TypeError
  | Some first =>
      let headers := Object_keys first in
      let header :=
        (String.concat (String tab EmptyString) headers
         ++ String newline EmptyString)%string in
      let lines :=
        List.map
          (fun o =>
             (String.concat (String tab EmptyString)
                (List.map (fun b => JSON_stringify b) (Object_values o))
              ++ String newline EmptyString)%string)
          tiles in
      let file := (header ++ String.concat EmptyString lines)%string in
      Ok file
  end.

(** JavaScript truthiness of a command-line argument: a missing argument
    ([undefined]) and the empty string are both falsy, and are both written
    as the empty string here *)
Definition argument_given (arg : string) : bool :=
  negb (String.eqb arg EmptyString).

(** The script. [argv2] and [argv3] are [process.argv[2]] and
    [process.argv[3]]; [readFileSync] is the file system, as the content of
    the file of a given name. The answer is what the script hands to
    [fs.writeFileSync], the name and the text, or [None] when it prints its
    usage and exits. *)
Definition savetomaptable (inflateSync : Buffer.t -> option Buffer.t)
    (readFileSync : string -> Buffer.t) (argv2 argv3 : string)
    : result (option (string * string)) :=
  if negb (argument_given argv2 && argument_given argv3) then Ok None
  else
    json <- Split.savetomapjson inflateSync (readFileSync argv2) ;;
    file <- table (List.map Split_object (Split.tiles json)) ;;
    Ok (Some (verifyextension argv3 ".tsv", file)).

(** how often a character occurs in a string *)
Fixpoint count_char (c : ascii) (s : string) : nat :=
  match s with
  | EmptyString => 0
  | String a s' => (if Ascii.eqb a c then 1 else 0) + count_char c s'
  end.

(** the two characters a table is made with *)
Definition separator (c : ascii) : Prop := c = tab \/ c = newline.

(** one line of a table of [columns] columns: tabs between the columns, a
    line end at the end and nowhere else *)
Definition table_line (columns : nat) (line : string) : Prop :=
  S (count_char tab line) = columns /\
  count_char newline line = 1%nat /\
  ends_with (String newline EmptyString) line.

(** a save file whose compressed blob is [zero_count_blob] *)
Definition empty_table_save : Buffer.t :=
  list_byte_of_string "CIV6" ++ MOD_TITLE ++ [x01]
  ++ stored_deflateSync zero_count_blob ++ [x07; x07].
(** * Lemmas on the Buffer model *)

Lemma length_nonneg (b : Buffer.t) : 0 <= Buffer.length b.
Proof. unfold Buffer.length. lia. Qed.

Lemma length_app (a b : Buffer.t) :
  Buffer.length (a ++ b) = Buffer.length a + Buffer.length b.
Proof. unfold Buffer.length. rewrite List.length_app. lia. Qed.

Lemma length_cons (x : byte) (b : Buffer.t) :
  Buffer.length (x :: b) = 1 + Buffer.length b.
Proof. unfold Buffer.length. cbn [List.length]. lia. Qed.

Lemma length_nil_iff (b : Buffer.t) : Buffer.length b = 0 <-> b = [].
Proof.
  unfold Buffer.length. split; intros H.
  - destruct b; [reflexivity | simpl in H; lia].
  - subst b. reflexivity.
Qed.

Lemma slice_inside (b : Buffer.t) (s e : Z) :
  0 <= s -> s <= e -> e <= Buffer.length b ->
  Buffer.slice b s e = firstn (Z.to_nat (e - s)) (skipn (Z.to_nat s) b).
Proof.
  intros Hs Hse He. unfold Buffer.slice, Buffer.clamp.
  destruct (Z.ltb_spec s 0); [lia|].
  destruct (Z.ltb_spec e 0); [lia|].
  rewrite !Z.min_l by lia. reflexivity.
Qed.

Lemma slice_clipped (b : Buffer.t) (s e : Z) :
  0 <= s -> s <= Buffer.length b -> Buffer.length b <= e ->
  Buffer.slice b s e = skipn (Z.to_nat s) b.
Proof.
  intros Hs Hsl He. unfold Buffer.slice, Buffer.clamp.
  destruct (Z.ltb_spec s 0); [lia|].
  destruct (Z.ltb_spec e 0); [pose proof (length_nonneg b); lia|].
  rewrite (Z.min_l s) by lia. rewrite (Z.min_r e) by lia.
  apply firstn_all2. rewrite List.length_skipn. unfold Buffer.length in *. lia.
Qed.

Lemma slice_empty (b : Buffer.t) (s e : Z) :
  0 <= s -> 0 <= e -> e <= s -> Buffer.slice b s e = [].
Proof.
  intros Hs He Hes. unfold Buffer.slice, Buffer.clamp.
  destruct (Z.ltb_spec s 0); [lia|].
  destruct (Z.ltb_spec e 0); [lia|].
  replace (Z.to_nat (Z.min e (Buffer.length b) - Z.min s (Buffer.length b)))
    with 0%nat by lia.
  reflexivity.
Qed.

Lemma slice_from_inside (b : Buffer.t) (s : Z) :
  0 <= s -> Buffer.slice_from b s = skipn (Z.to_nat s) b.
Proof.
  intros Hs. unfold Buffer.slice_from.
  destruct (Z.le_gt_cases s (Buffer.length b)) as [Hle|Hgt].
  - apply slice_clipped; lia.
  - rewrite slice_empty by (pose proof (length_nonneg b); lia).
    symmetry. apply skipn_all2. unfold Buffer.length in Hgt. lia.
Qed.

Lemma slice_length_le (b : Buffer.t) (s e : Z) :
  Buffer.length (Buffer.slice b s e) <= Buffer.length b.
Proof.
  unfold Buffer.slice, Buffer.length.
  rewrite List.length_firstn, List.length_skipn. lia.
Qed.

(** *** Searching *)

Lemma starts_with_app (pat rest : Buffer.t) :
  Buffer.starts_with pat (pat ++ rest) = true.
Proof.
  induction pat as [|p pat IH]; simpl; [reflexivity|].
  rewrite IH, andb_true_r. apply byte_dec_lb. reflexivity.
Qed.

Lemma starts_with_length (pat l : Buffer.t) :
  Buffer.starts_with pat l = true -> Buffer.length pat <= Buffer.length l.
Proof.
  revert l. induction pat as [|p pat IH]; intros l H.
  - apply length_nonneg.
  - destruct l as [|x l]; simpl in H; [discriminate|].
    apply andb_true_iff in H. destruct H as [_ H]. apply IH in H.
    unfold Buffer.length in *. simpl. lia.
Qed.

(** a found offset leaves room for the whole pattern *)
Lemma search_first_bound (pat l : Buffer.t) (pos : Z) :
  Buffer.search_first pat l pos = -1 \/
  (pos <= Buffer.search_first pat l pos /\
   Buffer.search_first pat l pos + Buffer.length pat <= pos + Buffer.length l).
Proof.
  revert pos. induction l as [|x l IH]; intros pos.
  - simpl. destruct (Buffer.starts_with pat []) eqn:E.
    + right. apply starts_with_length in E. lia.
    + left. reflexivity.
  - cbn [Buffer.search_first].
    destruct (Buffer.starts_with pat (x :: l)) eqn:E.
    + right. apply starts_with_length in E. lia.
    + destruct (IH (pos + 1)) as [H|H]; [left; exact H|right].
      unfold Buffer.length in *. simpl. lia.
Qed.

Lemma search_last_bound (pat l : Buffer.t) (pos : Z) :
  Buffer.search_last pat l pos = -1 \/
  (pos <= Buffer.search_last pat l pos /\
   Buffer.search_last pat l pos + Buffer.length pat <= pos + Buffer.length l).
Proof.
  revert pos. induction l as [|x l IH]; intros pos.
  - simpl. destruct (Buffer.starts_with pat []) eqn:E.
    + right. apply starts_with_length in E. lia.
    + left. reflexivity.
  - cbn [Buffer.search_last].
    destruct (Z.eqb_spec (Buffer.search_last pat l (pos + 1)) (-1)) as [Hr|Hr].
    + destruct (Buffer.starts_with pat (x :: l)) eqn:E.
      * right. apply starts_with_length in E. lia.
      * left. reflexivity.
    + destruct (IH (pos + 1)) as [H|H]; [contradiction|right].
      unfold Buffer.length in *. simpl. lia.
Qed.

Lemma indexOf_bound (pat b : Buffer.t) (off : Z) :
  Buffer.indexOf pat b off = -1 \/
  (0 <= Buffer.indexOf pat b off /\
   Buffer.indexOf pat b off + Buffer.length pat <= Buffer.length b).
Proof.
  unfold Buffer.indexOf.
  set (start := if off <? 0 then Z.max 0 (Buffer.length b + off) else off).
  destruct (Z.leb_spec (start + Buffer.length pat) (Buffer.length b)) as [Hfit|];
    [|left; reflexivity].
  assert (Hstart : 0 <= start).
  { subst start. destruct (Z.ltb_spec off 0); lia. }
  destruct (search_first_bound pat (skipn (Z.to_nat start) b) start) as [H|H];
    [left; exact H|right].
  assert (Buffer.length (skipn (Z.to_nat start) b) = Buffer.length b - start).
  { pose proof (length_nonneg pat).
    unfold Buffer.length in *. rewrite List.length_skipn. lia. }
  lia.
Qed.

Lemma lastIndexOf_bound (pat b : Buffer.t) :
  Buffer.lastIndexOf pat b = -1 \/
  (0 <= Buffer.lastIndexOf pat b /\
   Buffer.lastIndexOf pat b + Buffer.length pat <= Buffer.length b).
Proof.
  unfold Buffer.lastIndexOf.
  destruct (search_last_bound pat b 0) as [H|H]; [left; exact H|right; lia].
Qed.

(** the searches answer [-1] exactly when the pattern does not occur *)
Lemma search_first_none (pat l : Buffer.t) :
  forall pos, 0 <= pos ->
    (Buffer.search_first pat l pos = -1 <->
     forall k, Buffer.starts_with pat (skipn k l) = false).
Proof.
  induction l as [|x l IH]; intros pos Hpos; cbn [Buffer.search_first].
  - destruct (Buffer.starts_with pat []) eqn:E; split.
    + lia.
    + intros H. specialize (H 0%nat). cbn in H. congruence.
    + intros _ k. rewrite skipn_nil. exact E.
    + reflexivity.
  - destruct (Buffer.starts_with pat (x :: l)) eqn:E; split.
    + lia.
    + intros H. specialize (H 0%nat). cbn in H. congruence.
    + intros H [|k]; [exact E|]. cbn [skipn].
      apply (proj1 (IH (pos + 1) ltac:(lia)) H).
    + intros H. apply (IH (pos + 1)); [lia|].
      intros k. exact (H (S k)).
Qed.

Lemma search_last_none (pat l : Buffer.t) :
  forall pos, 0 <= pos ->
    (Buffer.search_last pat l pos = -1 <->
     forall k, Buffer.starts_with pat (skipn k l) = false).
Proof.
  induction l as [|x l IH]; intros pos Hpos; cbn [Buffer.search_last].
  - destruct (Buffer.starts_with pat []) eqn:E; split.
    + lia.
    + intros H. specialize (H 0%nat). cbn in H. congruence.
    + intros _ k. rewrite skipn_nil. exact E.
    + reflexivity.
  - specialize (IH (pos + 1) ltac:(lia)).
    destruct (Z.eqb_spec (Buffer.search_last pat l (pos + 1)) (-1)) as [Hr|Hr].
    + destruct (Buffer.starts_with pat (x :: l)) eqn:E; split.
      * lia.
      * intros H. specialize (H 0%nat). cbn in H. congruence.
      * intros _ [|k]; [exact E|]. cbn [skipn]. apply (proj1 IH Hr).
      * reflexivity.
    + split; [intros H; contradiction|].
      intros H. exfalso. apply Hr, IH. intros k. exact (H (S k)).
Qed.

Lemma contains_skipn (pat b : Buffer.t) :
  ~ contains pat b <-> forall k, Buffer.starts_with pat (skipn k b) = false.
Proof.
  unfold contains, occurs_at. split.
  - intros H k. destruct (Buffer.starts_with pat (skipn k b)) eqn:E;
      [|reflexivity].
    exfalso. apply H. exists (Z.of_nat k). rewrite Nat2Z.id. split; [lia|exact E].
  - intros H (p & _ & Hp). rewrite H in Hp. discriminate Hp.
Qed.

Lemma lastIndexOf_none (pat b : Buffer.t) :
  Buffer.lastIndexOf pat b = -1 <-> ~ contains pat b.
Proof.
  unfold Buffer.lastIndexOf. rewrite contains_skipn.
  apply search_last_none. lia.
Qed.

Lemma indexOf_none (pat b : Buffer.t) :
  Buffer.indexOf pat b 0 = -1 <-> ~ contains pat b.
Proof.
  unfold Buffer.indexOf. rewrite contains_skipn.
  change (0 <? 0) with false. cbv iota. change (Z.to_nat 0) with 0%nat.
  cbn [skipn].
  destruct (Z.leb_spec (0 + Buffer.length pat) (Buffer.length b)) as [Hfit|Hno].
  - apply search_first_none. lia.
  - split; [|reflexivity]. intros _ k.
    destruct (Buffer.starts_with pat (skipn k b)) eqn:E; [|reflexivity].
    apply starts_with_length in E. unfold Buffer.length in *.
    rewrite List.length_skipn in E. lia.
Qed.

(** * The container codec *)

Lemma decompress_eq (inflateSync : Buffer.t -> option Buffer.t)
    (savefile : Buffer.t) :
  decompress inflateSync savefile =
    inflate inflateSync
      (compressedData
         (Buffer.slice savefile (bufstartindex savefile) (sync_index savefile))).
Proof. reflexivity. Qed.

Lemma recompress_eq (deflateSync : Buffer.t -> Buffer.t)
    (savefile binfile : Buffer.t) :
  recompress deflateSync savefile binfile =
    Buffer.concat
      [ Buffer.slice savefile 0 (bufstartindex savefile);
        finalBuffer (deflateSync binfile);
        Buffer.slice_from savefile (sync_index savefile + 4) ].
Proof. reflexivity. Qed.

Lemma compressedData_nil : compressedData [] = [].
Proof. reflexivity. Qed.

Lemma bufstartindex_bound (civsav : Buffer.t) :
  bufstartindex civsav = -1 \/
  (0 <= bufstartindex civsav /\ bufstartindex civsav + 2 <= Buffer.length civsav).
Proof. apply (indexOf_bound zlib_start). Qed.

Lemma sync_index_bound (civsav : Buffer.t) :
  sync_index civsav = -1 \/
  (0 <= sync_index civsav /\ sync_index civsav + 4 <= Buffer.length civsav).
Proof. apply (lastIndexOf_bound sync_flush). Qed.

(** without [MOD_TITLE] the search for the zlib start begins at the last
    byte, where a two-byte pattern cannot fit *)
Lemma bufstartindex_without_MOD_TITLE (civsav : Buffer.t) :
  modindex civsav = -1 -> bufstartindex civsav = -1.
Proof.
  intros H. unfold bufstartindex, Buffer.indexOf. rewrite H.
  change (-1 <? 0) with true. change (Buffer.length zlib_start) with 2.
  pose proof (length_nonneg civsav).
  assert (E : (Z.max 0 (Buffer.length civsav + -1) + 2
               <=? Buffer.length civsav) = false) by (apply Z.leb_gt; lia).
  cbv iota. rewrite E. reflexivity.
Qed.

Lemma slice_from_last_byte (b : Buffer.t) (e : Z) :
  e = -1 \/ (0 <= e /\ e + 4 <= Buffer.length b) ->
  Buffer.slice b (-1) e = [].
Proof.
  intros He. unfold Buffer.slice, Buffer.clamp.
  change (-1 <? 0) with true.
  pose proof (length_nonneg b).
  replace (Z.to_nat _) with 0%nat; [reflexivity|].
  destruct He as [->|[He1 He2]].
  - change (-1 <? 0) with true. lia.
  - destruct (Z.ltb_spec e 0); lia.
Qed.

(** the splice of [recompress] once the zlib start is found *)
Lemma recompress_shape (deflateSync : Buffer.t -> Buffer.t)
    (savefile binfile : Buffer.t) :
  bufstartindex savefile <> -1 ->
  recompress deflateSync savefile binfile =
    firstn (Z.to_nat (bufstartindex savefile)) savefile
    ++ finalBuffer (deflateSync binfile)
    ++ skipn (Z.to_nat (sync_index savefile + 4)) savefile.
Proof.
  intros Hs. rewrite recompress_eq. unfold Buffer.concat. cbn [List.concat].
  rewrite app_nil_r.
  destruct (bufstartindex_bound savefile) as [|[Hs0 Hs1]]; [contradiction|].
  rewrite slice_inside by lia.
  rewrite slice_from_inside
    by (destruct (sync_index_bound savefile) as [->|[? _]]; lia).
  rewrite Z.sub_0_r. reflexivity.
Qed.

(** C5 (amended): on a save file that does not contain [MOD_TITLE],
    [decompress] checks nothing: both boundary searches that depend on it
    answer [-1], the span it slices is empty, and its outcome is that of
    [zlib.inflateSync] on the empty buffer, whatever that is. *)
Theorem decompress_without_MOD_TITLE
    (inflateSync : Buffer.t -> option Buffer.t) (savefile : Buffer.t) :
  ~ contains MOD_TITLE savefile ->
  modindex savefile = -1 /\ bufstartindex savefile = -1 /\
  Buffer.slice savefile (bufstartindex savefile) (sync_index savefile) = [] /\
  decompress inflateSync savefile = inflate inflateSync [].
Proof.
  intros H. apply lastIndexOf_none in H. fold (modindex savefile) in H.
  pose proof (bufstartindex_without_MOD_TITLE _ H) as Hs.
  assert (Hd : Buffer.slice savefile (bufstartindex savefile)
                 (sync_index savefile) = []).
  { rewrite Hs. apply slice_from_last_byte, sync_index_bound. }
  repeat split; [exact H | exact Hs | exact Hd |].
  rewrite decompress_eq, Hd, compressedData_nil. reflexivity.
Qed.

Lemma decompress_without_MOD_TITLE_witness :
  decompress (fun _ => Some [x2a]) [x78; x9c; x01; x00; x00; xff; xff]
  = Ok [x2a].
Proof.
  apply (decompress_without_MOD_TITLE (fun _ => Some [x2a])
           [x78; x9c; x01; x00; x00; xff; xff]).
  apply lastIndexOf_none. vm_compute. reflexivity.
Defined.

(** C5, as stated, fails: nothing in [decompress] raises an error for a
    missing [MOD_TITLE]. On a file that holds a stream but not the marker,
    an inflater that accepts the empty buffer makes the call return an
    empty blob; so the failure the claim promises is not one [decompress]
    produces for every inflater. *)
Lemma missing_MOD_TITLE_not_detected :
  (~ contains MOD_TITLE sample_without_marker /\
   decompress stored_inflateSync sample_without_marker = Ok []) /\
  ~ (forall (inflateSync : Buffer.t -> option Buffer.t) (savefile : Buffer.t),
        ~ contains MOD_TITLE savefile ->
        throws (decompress inflateSync savefile)).
Proof.
  assert (H0 : ~ contains MOD_TITLE sample_without_marker)
    by (apply lastIndexOf_none; vm_compute; reflexivity).
  split; [split; [exact H0 | vm_compute; reflexivity]|].
  intros H.
  destruct (H stored_inflateSync sample_without_marker H0) as [e He].
  vm_compute in He. discriminate He.
Qed.

(** C9: with the boundary markers located, the container [recompress]
    returns agrees with the original on every byte before the zlib start
    and on every byte from 4 past the start of the last sync-flush marker
    on; only the span between them is replaced, by the framed stream. *)
Theorem recompress_outside_span (deflateSync : Buffer.t -> Buffer.t)
    (savefile binfile : Buffer.t) :
  markers_located savefile ->
  let merged := recompress deflateSync savefile binfile in
  let s := bufstartindex savefile in
  let e := sync_index savefile + 4 in
  let F := finalBuffer (deflateSync binfile) in
  Buffer.slice merged 0 s = Buffer.slice savefile 0 s /\
  Buffer.slice merged s (s + Buffer.length F) = F /\
  Buffer.slice_from merged (s + Buffer.length F) = Buffer.slice_from savefile e /\
  Buffer.length merged = s + Buffer.length F + (Buffer.length savefile - e).
Proof.
  intros (_ & Hs & He) merged s e F.
  destruct (bufstartindex_bound savefile) as [|[Hs0 Hs1]]; [contradiction|].
  destruct (sync_index_bound savefile) as [|[He0 He1]]; [contradiction|].
  assert (Hm : merged = firstn (Z.to_nat s) savefile ++ F
                        ++ skipn (Z.to_nat e) savefile)
    by (apply recompress_shape; exact Hs).
  assert (HP : Buffer.length (firstn (Z.to_nat s) savefile) = s).
  { unfold Buffer.length in *. rewrite List.length_firstn. fold s in Hs0, Hs1. lia. }
  assert (HS : Buffer.length (skipn (Z.to_nat e) savefile)
               = Buffer.length savefile - e).
  { unfold Buffer.length in *. rewrite List.length_skipn. subst e. lia. }
  assert (HL : Buffer.length merged
               = s + Buffer.length F + (Buffer.length savefile - e)).
  { rewrite Hm, !length_app, HP, HS. lia. }
  pose proof (length_nonneg F) as HF.
  fold s in Hs0, Hs1. fold e in He1.
  assert (Hn : List.length (firstn (Z.to_nat s) savefile) = Z.to_nat s).
  { unfold Buffer.length in HP. lia. }
  repeat split.
  - rewrite !slice_inside by lia. rewrite Z.sub_0_r. cbn [skipn Z.to_nat].
    rewrite Hm. rewrite firstn_app, Hn, Nat.sub_diag. cbn [firstn].
    rewrite app_nil_r, firstn_firstn, Nat.min_id. reflexivity.
  - rewrite slice_inside by lia. rewrite Hm.
    rewrite skipn_app, Hn, Nat.sub_diag. cbn [skipn].
    rewrite skipn_all2 by lia. cbn [app].
    replace (Z.to_nat (s + Buffer.length F - s)) with (List.length F)
      by (unfold Buffer.length; lia).
    rewrite firstn_app, Nat.sub_diag, firstn_all. cbn [firstn].
    apply app_nil_r.
  - rewrite !slice_from_inside by lia. rewrite Hm.
    replace (Z.to_nat (s + Buffer.length F))
      with (List.length (firstn (Z.to_nat s) savefile) + List.length F)%nat
      by (unfold Buffer.length; lia).
    rewrite app_assoc, <- List.length_app.
    rewrite skipn_app, Nat.sub_diag, skipn_all. reflexivity.
  - exact HL.
Qed.

Lemma recompress_outside_span_witness :
  markers_located sample_save /\
  Buffer.slice (recompress stored_deflateSync sample_save [x01; x02; x03])
    0 (bufstartindex sample_save)
  = Buffer.slice sample_save 0 (bufstartindex sample_save) /\
  Buffer.slice_from (recompress stored_deflateSync sample_save [x01; x02; x03])
    (bufstartindex sample_save
     + Buffer.length (finalBuffer (stored_deflateSync [x01; x02; x03])))
  = Buffer.slice_from sample_save (sync_index sample_save + 4).
Proof.
  assert (H : markers_located sample_save)
    by (repeat split; vm_compute; discriminate).
  split; [exact H|].
  destruct (recompress_outside_span stored_deflateSync sample_save
              [x01; x02; x03] H) as (A & _ & B & _).
  split; [exact A | exact B].
Defined.

(** * The chunk framing *)

Lemma chunk_positive : 0 < CHUNK_LENGTH.
Proof. reflexivity. Qed.

Lemma skipn_length_app (pre l : Buffer.t) :
  skipn (Z.to_nat (Buffer.length pre)) (pre ++ l) = l.
Proof.
  unfold Buffer.length. rewrite Nat2Z.id.
  rewrite skipn_app, Nat.sub_diag, skipn_all. reflexivity.
Qed.

(** a slice that starts where [pre] ends looks at [l] only *)
Lemma slice_app_at (pre l : Buffer.t) (k : Z) :
  0 <= k ->
  Buffer.slice (pre ++ l) (Buffer.length pre) (Buffer.length pre + k)
  = firstn (Z.to_nat k) l.
Proof.
  intros Hk. pose proof (length_nonneg pre). pose proof (length_nonneg l).
  unfold Buffer.slice, Buffer.clamp.
  destruct (Z.ltb_spec (Buffer.length pre) 0); [lia|].
  destruct (Z.ltb_spec (Buffer.length pre + k) 0); [lia|].
  rewrite length_app.
  rewrite (Z.min_l (Buffer.length pre)) by lia.
  rewrite skipn_length_app.
  destruct (Z.le_gt_cases k (Buffer.length l)).
  - rewrite Z.min_l by lia. f_equal. lia.
  - rewrite Z.min_r by lia.
    rewrite !firstn_all2; [reflexivity| |]; unfold Buffer.length in *; lia.
Qed.

Lemma slice_at_0 (l : Buffer.t) (k : Z) :
  0 <= k -> Buffer.slice l 0 k = firstn (Z.to_nat k) l.
Proof. intros Hk. apply (slice_app_at [] l k Hk). Qed.

Lemma length_firstn_Z (l : Buffer.t) (k : Z) :
  0 <= k ->
  Buffer.length (firstn (Z.to_nat k) l) = Z.min k (Buffer.length l).
Proof. intros Hk. unfold Buffer.length. rewrite List.length_firstn. lia. Qed.

Lemma length_skipn_Z (l : Buffer.t) (k : Z) :
  0 <= k ->
  Buffer.length (skipn (Z.to_nat k) l) = Z.max 0 (Buffer.length l - k).
Proof. intros Hk. unfold Buffer.length. rewrite List.length_skipn. lia. Qed.

Lemma recompress_loop_past_end (fuel : nat) (buf : Buffer.t) (i : Z)
    (chunks : list Buffer.t) :
  Buffer.length buf <= i -> recompress_loop fuel buf i chunks = chunks.
Proof.
  intros H. destruct fuel; [reflexivity|]. cbn [recompress_loop].
  destruct (Z.ltb_spec i (Buffer.length buf)); [lia | reflexivity].
Qed.

Lemma concat_snoc (l : list Buffer.t) (x : Buffer.t) :
  Buffer.concat (l ++ [x]) = Buffer.concat l ++ x.
Proof.
  unfold Buffer.concat. rewrite concat_app. cbn [List.concat].
  rewrite app_nil_r. reflexivity.
Qed.

(** the turns of [recompress]'s loop after the first: each pushes a length
    field and a chunk *)
Lemma recompress_loop_rest (fuel : nat) :
  forall (todo done : Buffer.t) (chunks : list Buffer.t),
    done <> [] -> (List.length todo <= fuel)%nat ->
    exists F,
      Buffer.concat
        (recompress_loop fuel (done ++ todo) (Buffer.length done) chunks)
      = Buffer.concat chunks ++ F
      /\ framed_rest todo F.
Proof.
  induction fuel as [|fuel IH]; intros todo done chunks Hdone Hfuel.
  - destruct todo; [|simpl in Hfuel; lia].
    exists []. split; [cbn; rewrite app_nil_r; reflexivity | constructor].
  - destruct todo as [|t0 todo0] eqn:Etodo.
    + rewrite recompress_loop_past_end by (rewrite app_nil_r; lia).
      exists []. split; [rewrite app_nil_r; reflexivity | constructor].
    + rewrite <- Etodo in *. cbn [recompress_loop].
      assert (Hlen : 1 <= Buffer.length todo)
        by (rewrite Etodo; unfold Buffer.length; simpl; lia).
      assert (Hdlen : 1 <= Buffer.length done).
      { destruct done; [contradiction|]. unfold Buffer.length. simpl. lia. }
      destruct (Z.ltb_spec (Buffer.length done)
                  (Buffer.length (done ++ todo))) as [_|Hge];
        [|rewrite length_app in Hge; lia].
      destruct (Z.eqb_spec (Buffer.length done) 0) as [|_]; [lia|].
      cbn [negb]. cbv zeta iota. pose proof chunk_positive as HC.
      rewrite slice_app_at by lia.
      set (c := firstn (Z.to_nat CHUNK_LENGTH) todo).
      assert (Hc : Buffer.length c = Z.min CHUNK_LENGTH (Buffer.length todo))
        by (apply length_firstn_Z; lia).
      destruct (Z.le_gt_cases CHUNK_LENGTH (Buffer.length todo)) as [Hfull|Hshort].
      * (* a full chunk: the loop goes on behind it *)
        rewrite Z.min_l in Hc by lia.
        assert (Hsplit : done ++ todo
                         = (done ++ c) ++ skipn (Z.to_nat CHUNK_LENGTH) todo).
        { rewrite <- app_assoc. unfold c. rewrite firstn_skipn. reflexivity. }
        rewrite Hsplit.
        replace (Buffer.length done + CHUNK_LENGTH)
          with (Buffer.length (done ++ c)) by (rewrite length_app; lia).
        destruct (IH (skipn (Z.to_nat CHUNK_LENGTH) todo) (done ++ c)
                    ((chunks ++ [Buffer.writeInt32LE (Buffer.length c)]) ++ [c]))
          as (F & HF & Hfr).
        { intros E. apply app_eq_nil in E. destruct E; contradiction. }
        { rewrite List.length_skipn. unfold Buffer.length in Hlen. lia. }
        exists (Buffer.writeInt32LE (Buffer.length c) ++ c ++ F). split.
        -- refine (eq_trans HF _).
           rewrite !concat_snoc, <- !app_assoc. reflexivity.
        -- rewrite <- (firstn_skipn (Z.to_nat CHUNK_LENGTH) todo) at 1.
           fold c. constructor; [lia | intros _; exact Hc | exact Hfr].
      * (* the last, short chunk *)
        rewrite Z.min_r in Hc by lia.
        rewrite recompress_loop_past_end by (rewrite length_app; lia).
        assert (Ec : c = todo).
        { unfold c. apply firstn_all2. unfold Buffer.length in Hshort. lia. }
        exists (Buffer.writeInt32LE (Buffer.length c) ++ c ++ []). split.
        -- rewrite !concat_snoc, <- !app_assoc, app_nil_r. reflexivity.
        -- rewrite Ec. rewrite <- (app_nil_r todo) at 1.
           constructor; [lia | intros E; contradiction | constructor].
Qed.

(** [recompress] builds a framed stream from the deflate output *)
Lemma finalBuffer_framed (D : Buffer.t) : framed D (finalBuffer D).
Proof.
  unfold finalBuffer. destruct D as [|d0 D0] eqn:ED; [constructor|].
  rewrite <- ED. replace (List.length D) with (S (List.length D0))
    by (rewrite ED; reflexivity).
  cbn [recompress_loop].
  assert (Hlen : 1 <= Buffer.length D)
    by (rewrite ED; unfold Buffer.length; simpl; lia).
  destruct (Z.ltb_spec 0 (Buffer.length D)) as [_|]; [|lia].
  change (negb (0 =? 0)) with false. cbv iota. cbn [app].
  pose proof chunk_positive as HC.
  rewrite slice_at_0 by (cbn; lia). change (0 + CHUNK_LENGTH) with CHUNK_LENGTH.
  set (c := firstn (Z.to_nat CHUNK_LENGTH) D).
  assert (Hc : Buffer.length c = Z.min CHUNK_LENGTH (Buffer.length D))
    by (apply length_firstn_Z; lia).
  destruct (Z.le_gt_cases CHUNK_LENGTH (Buffer.length D)) as [Hfull|Hshort].
  - rewrite Z.min_l in Hc by lia.
    assert (Hsplit : D = c ++ skipn (Z.to_nat CHUNK_LENGTH) D)
      by (unfold c; rewrite firstn_skipn; reflexivity).
    destruct (recompress_loop_rest (List.length D0)
                (skipn (Z.to_nat CHUNK_LENGTH) D) c [c]) as (F & HF & Hfr).
    { intros E. rewrite E in Hc. cbn in Hc. lia. }
    { rewrite List.length_skipn, ED. cbn [List.length]. lia. }
    rewrite Hc, <- Hsplit in HF. refine (eq_ind_r (framed D) _ HF).
    unfold Buffer.concat at 1. cbn [List.concat].
    rewrite app_nil_r. rewrite Hsplit at 1.
    constructor; [lia | intros _; exact Hc | exact Hfr].
  - rewrite Z.min_r in Hc by lia.
    rewrite recompress_loop_past_end by lia.
    assert (Ec : c = D).
    { unfold c. apply firstn_all2. unfold Buffer.length in Hshort. lia. }
    unfold Buffer.concat. cbn [List.concat]. rewrite app_nil_r, Ec.
    assert (X : framed (D ++ []) (D ++ [])).
    { constructor; [lia | intros E; contradiction | constructor]. }
    rewrite !app_nil_r in X. exact X.
Qed.

Lemma framed_rest_nil_inv (F : Buffer.t) : framed_rest [] F -> F = [].
Proof.
  intros H. inversion H as [|c D F' Hc HD Hfr E1 E2]; [reflexivity|].
  apply app_eq_nil in E1. destruct E1 as [-> _]. cbn in Hc. lia.
Qed.

(** a framed stream of at most one chunk is the byte run itself *)
Lemma framed_single (D F : Buffer.t) :
  framed D F -> Buffer.length D <= CHUNK_LENGTH -> F = D.
Proof.
  intros H Hlen. inversion H as [|c D' F' Hc HD Hfr E1 E2]; [reflexivity|].
  subst. destruct D' as [|d D'].
  - apply framed_rest_nil_inv in Hfr. subst. reflexivity.
  - assert (E : Buffer.length c = CHUNK_LENGTH) by (apply HD; discriminate).
    rewrite length_app, length_cons in Hlen.
    pose proof (length_nonneg D'). lia.
Qed.

(** a framed stream of two chunks *)
Lemma framed_two (D F : Buffer.t) :
  framed D F ->
  CHUNK_LENGTH < Buffer.length D -> Buffer.length D <= 2 * CHUNK_LENGTH ->
  F = firstn (Z.to_nat CHUNK_LENGTH) D
      ++ Buffer.writeInt32LE (Buffer.length D - CHUNK_LENGTH)
      ++ skipn (Z.to_nat CHUNK_LENGTH) D.
Proof.
  intros H Hlo Hhi. inversion H as [|c D' F' Hc HD Hfr E1 E2].
  { subst. cbn in Hlo. lia. }
  subst. rewrite length_app in Hlo, Hhi.
  assert (HD' : D' <> []).
  { intros E. subst. change (Buffer.length []) with 0 in Hlo. lia. }
  specialize (HD HD').
  assert (Hn : Z.to_nat CHUNK_LENGTH = List.length c)
    by (unfold Buffer.length in HD; lia).
  rewrite Hn, firstn_app, Nat.sub_diag, firstn_all. cbn [firstn].
  rewrite app_nil_r, skipn_app, Nat.sub_diag, skipn_all. cbn [skipn app].
  f_equal.
  inversion Hfr as [|c1 D1 F1 Hc1 HD1 Hfr1 E1 E2]; [congruence|].
  subst. rewrite !length_app in *.
  destruct D1 as [|d1 D1].
  - apply framed_rest_nil_inv in Hfr1. subst.
    rewrite !app_nil_r. change (Buffer.length []) with 0.
    replace (Buffer.length c + (Buffer.length c1 + 0) - CHUNK_LENGTH)
      with (Buffer.length c1) by lia.
    reflexivity.
  - assert (E : Buffer.length c1 = CHUNK_LENGTH) by (apply HD1; discriminate).
    rewrite length_cons in Hhi. pose proof (length_nonneg D1). lia.
Qed.

Lemma Z_of_byte_of_Z (z : Z) :
  Buffer.Z_of_byte (Buffer.byte_of_Z z) = z mod 256.
Proof.
  unfold Buffer.Z_of_byte, Buffer.byte_of_Z.
  pose proof (Z.mod_pos_bound z 256 ltac:(lia)) as Hb.
  destruct (Byte.of_N (Z.to_N (z mod 256))) as [b|] eqn:E.
  - apply Byte.to_of_N in E. rewrite E. lia.
  - apply Byte.of_N_None_iff in E. lia.
Qed.

(** the length field is the length as a little-endian 32-bit integer *)
Lemma readInt32LE_writeInt32LE (v : Z) :
  0 <= v < 2 ^ 31 ->
  Buffer.readInt32LE (Buffer.writeInt32LE v) 0 = Ok v.
Proof.
  intros Hv. unfold Buffer.readInt32LE.
  change (Buffer.in_range _ 0 4) with true.
  cbv iota. f_equal. unfold Buffer.le32, Buffer.get, Buffer.writeInt32LE.
  change (Z.to_nat 0) with 0%nat. change (Z.to_nat (0 + 1)) with 1%nat.
  change (Z.to_nat (0 + 2)) with 2%nat. change (Z.to_nat (0 + 3)) with 3%nat.
  cbn [nth]. rewrite !Z_of_byte_of_Z.
  assert (E : v mod 256 + 256 * (v / 256 mod 256)
              + 65536 * (v / 65536 mod 256)
              + 16777216 * (v / 16777216 mod 256) = v).
  { change 65536 with (256 * 256) at 2.
    change 16777216 with (256 * 256 * 256) at 2.
    rewrite <- !Z.div_div by lia.
    pose proof (Z.div_mod v 256 ltac:(lia)).
    pose proof (Z.div_mod (v / 256) 256 ltac:(lia)).
    pose proof (Z.div_mod (v / 256 / 256) 256 ltac:(lia)).
    assert (v / 256 / 256 / 256 < 256).
    { repeat (apply Z.div_lt_upper_bound; [lia|]). lia. }
    assert (0 <= v / 256 / 256 / 256) by (repeat apply Z.div_pos; lia).
    rewrite (Z.mod_small (v / 256 / 256 / 256)) by lia. lia. }
  rewrite E. unfold Buffer.signed.
  destruct (Z.ltb_spec v (2 ^ (8 * 4 - 1))); [reflexivity|].
  change (2 ^ (8 * 4 - 1)) with (2 ^ 31) in *. lia.
Qed.

(** C8: the stream [recompress] builds from the deflate output [D] is framed:
    the first 64 KiB chunk bare, every later chunk behind its own length as
    a 4-byte little-endian field (one that reads back as that length). An
    output of exactly 64 KiB is left as it is, a single chunk without a
    length field; one of 64 KiB + 10 bytes becomes the first 64 KiB, the
    field [0a 00 00 00], and the last 10 bytes. *)
Theorem recompress_chunk_framing (D : Buffer.t) :
  framed D (finalBuffer D) /\
  (forall c, Buffer.length c <= CHUNK_LENGTH ->
     Buffer.readInt32LE (Buffer.writeInt32LE (Buffer.length c)) 0
     = Ok (Buffer.length c)) /\
  (Buffer.length D = 64 * 1024 -> finalBuffer D = D) /\
  (Buffer.length D = 64 * 1024 + 10 ->
   finalBuffer D =
     Buffer.slice D 0 (64 * 1024) ++ [x0a; x00; x00; x00]
     ++ Buffer.slice_from D (64 * 1024)).
Proof.
  pose proof (finalBuffer_framed D) as H.
  split; [exact H|]. split.
  { intros c Hc. apply readInt32LE_writeInt32LE.
    pose proof (length_nonneg c). unfold CHUNK_LENGTH in Hc. lia. }
  split; intros Hlen.
  - apply (framed_single D _ H). rewrite Hlen. unfold CHUNK_LENGTH. lia.
  - rewrite (framed_two D _ H) by (rewrite Hlen; unfold CHUNK_LENGTH; lia).
    rewrite slice_at_0 by lia. rewrite slice_from_inside by lia.
    rewrite Hlen. reflexivity.
Qed.

Lemma recompress_chunk_framing_witness :
  finalBuffer full_chunk = full_chunk /\
  finalBuffer chunk_and_ten =
    Buffer.slice chunk_and_ten 0 (64 * 1024) ++ [x0a; x00; x00; x00]
    ++ Buffer.slice_from chunk_and_ten (64 * 1024).
Proof.
  split.
  - apply (proj1 (proj2 (proj2 (recompress_chunk_framing full_chunk)))).
    vm_compute. reflexivity.
  - apply (proj2 (proj2 (proj2 (recompress_chunk_framing chunk_and_ten)))).
    vm_compute. reflexivity.
Defined.

(** * Unframing, and the round trip of the payload *)

Lemma take_app_le (a b : Buffer.t) (k : Z) :
  k <= Buffer.length a ->
  firstn (Z.to_nat k) (a ++ b) = firstn (Z.to_nat k) a.
Proof.
  intros H. rewrite firstn_app.
  replace (Z.to_nat k - List.length a)%nat with 0%nat
    by (unfold Buffer.length in H; lia).
  cbn [firstn]. apply app_nil_r.
Qed.

Lemma take_app_ge (a b : Buffer.t) (k : Z) :
  Buffer.length a <= k ->
  firstn (Z.to_nat k) (a ++ b) = a ++ firstn (Z.to_nat (k - Buffer.length a)) b.
Proof.
  intros H. rewrite firstn_app. unfold Buffer.length in *.
  rewrite firstn_all2 by lia. f_equal. f_equal. lia.
Qed.

Lemma take_all (a : Buffer.t) (k : Z) :
  Buffer.length a <= k -> firstn (Z.to_nat k) a = a.
Proof. intros H. apply firstn_all2. unfold Buffer.length in H. lia. Qed.

Lemma slice_app_shift (pre l : Buffer.t) (s e : Z) :
  0 <= s -> 0 <= e ->
  Buffer.slice (pre ++ l) (Buffer.length pre + s) (Buffer.length pre + e)
  = Buffer.slice l s e.
Proof.
  intros Hs He. pose proof (length_nonneg pre). pose proof (length_nonneg l).
  unfold Buffer.slice, Buffer.clamp. rewrite length_app.
  destruct (Z.ltb_spec (Buffer.length pre + s) 0); [lia|].
  destruct (Z.ltb_spec (Buffer.length pre + e) 0); [lia|].
  destruct (Z.ltb_spec s 0); [lia|]. destruct (Z.ltb_spec e 0); [lia|].
  replace (Z.min (Buffer.length pre + s) (Buffer.length pre + Buffer.length l))
    with (Buffer.length pre + Z.min s (Buffer.length l)) by lia.
  replace (Z.min (Buffer.length pre + e) (Buffer.length pre + Buffer.length l))
    with (Buffer.length pre + Z.min e (Buffer.length l)) by lia.
  replace (Z.to_nat (Buffer.length pre + Z.min s (Buffer.length l)))
    with (List.length pre + Z.to_nat (Z.min s (Buffer.length l)))%nat
    by (unfold Buffer.length; lia).
  rewrite skipn_app, skipn_all2 by lia.
  replace (List.length pre + Z.to_nat (Z.min s (Buffer.length l))
           - List.length pre)%nat
    with (Z.to_nat (Z.min s (Buffer.length l))) by lia.
  cbn [app]. f_equal. lia.
Qed.

Lemma decompress_loop_past_end (fuel : nat) (data : Buffer.t) (pos : Z)
    (chunks : list Buffer.t) :
  Buffer.length data <= pos -> decompress_loop fuel data pos chunks = chunks.
Proof.
  intros H. destruct fuel; [reflexivity|]. cbn [decompress_loop].
  destruct (Z.ltb_spec pos (Buffer.length data)); [lia | reflexivity].
Qed.

Lemma decompress_loop_acc (fuel : nat) :
  forall (data : Buffer.t) (pos : Z) (chunks : list Buffer.t),
    decompress_loop fuel data pos chunks
    = chunks ++ decompress_loop fuel data pos [].
Proof.
  induction fuel as [|fuel IH]; intros data pos chunks; cbn [decompress_loop].
  - symmetry. apply app_nil_r.
  - destruct (pos <? Buffer.length data); [|symmetry; apply app_nil_r].
    rewrite IH. rewrite (IH data _ ([] ++ _)). rewrite <- app_assoc.
    reflexivity.
Qed.

(** the loop does not look at what lies before [pos] *)
Lemma decompress_loop_shift (fuel : nat) :
  forall (pre data : Buffer.t) (pos : Z) (chunks : list Buffer.t),
    0 <= pos ->
    decompress_loop fuel (pre ++ data) (Buffer.length pre + pos) chunks
    = decompress_loop fuel data pos chunks.
Proof.
  induction fuel as [|fuel IH]; intros pre data pos chunks Hpos;
    cbn [decompress_loop]; [reflexivity|].
  rewrite length_app.
  assert (E : (Buffer.length pre + pos <? Buffer.length pre + Buffer.length data)
              = (pos <? Buffer.length data)).
  { destruct (Z.ltb_spec pos (Buffer.length data));
      [apply Z.ltb_lt | apply Z.ltb_ge]; lia. }
  rewrite E. destruct (pos <? Buffer.length data); [|reflexivity].
  replace (Buffer.length pre + pos + chunkSize)
    with (Buffer.length pre + (pos + chunkSize)) by lia.
  rewrite slice_app_shift by (unfold chunkSize; lia).
  replace (Buffer.length pre + (pos + chunkSize) + 4)
    with (Buffer.length pre + (pos + chunkSize + 4)) by lia.
  apply IH. unfold chunkSize. lia.
Qed.

(** [data.length] turns are enough: more fuel changes nothing *)
Lemma decompress_loop_fuel (fuel1 : nat) :
  forall (fuel2 : nat) (data : Buffer.t) (pos : Z) (chunks : list Buffer.t),
    0 <= pos ->
    Buffer.length data - pos <= Z.of_nat fuel1 ->
    Buffer.length data - pos <= Z.of_nat fuel2 ->
    decompress_loop fuel1 data pos chunks
    = decompress_loop fuel2 data pos chunks.
Proof.
  induction fuel1 as [|fuel1 IH]; intros fuel2 data pos chunks Hpos H1 H2.
  - rewrite (decompress_loop_past_end fuel2) by lia. reflexivity.
  - destruct fuel2 as [|fuel2].
    + rewrite (decompress_loop_past_end (S fuel1)) by lia. reflexivity.
    + cbn [decompress_loop].
      destruct (pos <? Buffer.length data); [|reflexivity].
      apply IH; unfold chunkSize; lia.
Qed.

Lemma compressedData_unfold (c rest : Buffer.t) :
  c <> [] -> Buffer.length c <= chunkSize ->
  compressedData (c ++ rest) =
    c ++ Buffer.concat
           (decompress_loop (List.length (c ++ rest) - 1) (c ++ rest)
              (chunkSize + 4) [])
  \/ Buffer.length c < chunkSize.
Proof.
  intros Hc Hlen.
  destruct (Z.eq_dec (Buffer.length c) chunkSize) as [E|NE]; [left|right; lia].
  unfold compressedData.
  assert (Hpos : 1 <= Buffer.length c).
  { destruct c; [contradiction|]. rewrite length_cons.
    pose proof (length_nonneg c). lia. }
  destruct (List.length (c ++ rest)) as [|n] eqn:En.
  { rewrite List.length_app in En. unfold Buffer.length in Hpos. lia. }
  cbn [decompress_loop]. replace (S n - 1)%nat with n by lia.
  destruct (Z.ltb_spec 0 (Buffer.length (c ++ rest))) as [_|Hge];
    [|rewrite length_app in Hge; pose proof (length_nonneg rest); lia].
  rewrite decompress_loop_acc. cbn [app].
  change (0 + chunkSize) with chunkSize.
  rewrite slice_at_0 by (unfold chunkSize; lia).
  rewrite take_app_le by lia. rewrite take_all by lia.
  unfold Buffer.concat. cbn [List.concat]. reflexivity.
Qed.

(** [decompress]'s loop computes what the shape of the stream says *)
Lemma unframes_compressedData (data out : Buffer.t) :
  unframes data out -> compressedData data = out.
Proof.
  induction 1 as [c Hc | c g Hc Hg | c p rest out Hc Hp Hrest IH].
  - destruct c as [|c0 c'] eqn:Ec; [reflexivity|]. rewrite <- Ec in *.
    unfold compressedData.
    replace (List.length c) with (S (List.length c'))
      by (rewrite Ec; reflexivity).
    cbn [decompress_loop].
    assert (Hpos : 0 < Buffer.length c).
    { rewrite Ec, length_cons. pose proof (length_nonneg c'). lia. }
    destruct (Z.ltb_spec 0 (Buffer.length c)) as [_|]; [|lia].
    rewrite decompress_loop_past_end by lia. cbn [app].
    change (0 + chunkSize) with chunkSize.
    rewrite slice_at_0 by (unfold chunkSize; lia). rewrite take_all by lia.
    unfold Buffer.concat. cbn [List.concat]. apply app_nil_r.
  - assert (Hne : c <> []).
    { intros E. rewrite E in Hc. unfold chunkSize in Hc. cbn in Hc. lia. }
    destruct (compressedData_unfold c g Hne) as [E|E]; [lia | | lia].
    rewrite E.
    rewrite decompress_loop_past_end by (rewrite length_app; lia).
    apply app_nil_r.
  - assert (Hne : c <> []).
    { intros E. rewrite E in Hc. unfold chunkSize in Hc. cbn in Hc. lia. }
    destruct (compressedData_unfold c (p ++ rest) Hne) as [E|E]; [lia | | lia].
    rewrite E. f_equal. rewrite <- IH. unfold compressedData.
    rewrite (app_assoc c p rest).
    replace (chunkSize + 4) with (Buffer.length (c ++ p) + 0)
      by (rewrite length_app; lia).
    rewrite decompress_loop_shift by lia.
    f_equal. apply decompress_loop_fuel; [lia| |unfold Buffer.length; lia].
    rewrite !List.length_app. unfold Buffer.length in *.
    unfold chunkSize in Hc. lia.
Qed.

Lemma writeInt32LE_length (v : Z) : Buffer.length (Buffer.writeInt32LE v) = 4.
Proof. reflexivity. Qed.

Lemma framed_rest_length (D F : Buffer.t) :
  framed_rest D F -> D <> [] -> Buffer.length D + 4 <= Buffer.length F.
Proof.
  intros H. induction H as [|c D F Hc HD Hfr IH]; intros Hne; [contradiction|].
  rewrite !length_app, writeInt32LE_length.
  destruct D as [|d D'].
  - apply framed_rest_nil_inv in Hfr. subst. lia.
  - assert (X : d :: D' <> []) by discriminate. specialize (IH X). lia.
Qed.

Lemma last_chunk_length_small (D : Buffer.t) :
  1 <= Buffer.length D <= CHUNK_LENGTH ->
  last_chunk_length D = Buffer.length D.
Proof.
  intros H. unfold last_chunk_length. rewrite Z.mod_small by lia. lia.
Qed.

Lemma last_chunk_length_app (c D : Buffer.t) :
  Buffer.length c = CHUNK_LENGTH ->
  last_chunk_length (c ++ D) = last_chunk_length D.
Proof.
  intros H. unfold last_chunk_length. rewrite length_app, H.
  replace (CHUNK_LENGTH + Buffer.length D - 1)
    with (Buffer.length D - 1 + 1 * CHUNK_LENGTH) by lia.
  rewrite Z_mod_plus_full. reflexivity.
Qed.

Lemma last_chunk_length_bound (D : Buffer.t) :
  D <> [] -> 1 <= last_chunk_length D <= Buffer.length D.
Proof.
  intros Hne. unfold last_chunk_length.
  assert (1 <= Buffer.length D).
  { destruct D; [contradiction|]. rewrite length_cons.
    pose proof (length_nonneg D). lia. }
  pose proof (Z.mod_pos_bound (Buffer.length D - 1) CHUNK_LENGTH chunk_positive).
  pose proof (Z.mod_le (Buffer.length D - 1) CHUNK_LENGTH).
  pose proof chunk_positive. lia.
Qed.

(** the framed stream without its last four bytes, behind a full chunk *)
Lemma framed_rest_truncated (D F : Buffer.t) :
  framed_rest D F -> D <> [] ->
  forall c, Buffer.length c = chunkSize ->
    unframes (c ++ firstn (Z.to_nat (Buffer.length F - 4)) F)
      (c ++ firstn (Z.to_nat (Buffer.length D
                               - Z.min 4 (last_chunk_length D))) D).
Proof.
  intros H. induction H as [|c1 D1 F1 Hc1 HD1 Hfr IH]; intros Hne c Hc;
    [contradiction|].
  set (p := Buffer.writeInt32LE (Buffer.length c1)).
  assert (Hp : Buffer.length p = 4) by reflexivity.
  destruct D1 as [|d D1'] eqn:ED1.
  - (* [c1] is the last chunk *)
    apply framed_rest_nil_inv in Hfr. subst F1.
    rewrite !app_nil_r, !length_app, Hp.
    rewrite last_chunk_length_small by lia.
    replace (4 + Buffer.length c1 - 4) with (Buffer.length c1) by lia.
    destruct (Z.le_gt_cases 4 (Buffer.length c1)) as [Hbig|Hsmall].
    + rewrite Z.min_l by lia. rewrite take_app_ge by lia. rewrite Hp.
      apply unframes_step; [exact Hc | exact Hp |].
      apply unframes_last. rewrite length_firstn_Z by lia.
      unfold chunkSize, CHUNK_LENGTH in *. lia.
    + rewrite Z.min_r by lia. rewrite Z.sub_diag. cbn [Z.to_nat firstn].
      rewrite app_nil_r. rewrite take_app_le by lia.
      apply unframes_stray; [exact Hc|].
      rewrite length_firstn_Z by lia. lia.
  - (* a full chunk, with more behind it *)
    rewrite <- ED1 in *.
    assert (HD1ne : D1 <> []) by (rewrite ED1; discriminate).
    specialize (HD1 HD1ne). specialize (IH HD1ne).
    pose proof (framed_rest_length D1 F1 Hfr HD1ne) as HF1.
    pose proof (last_chunk_length_bound D1 HD1ne) as Hr.
    pose proof (length_nonneg D1).
    rewrite last_chunk_length_app by exact HD1.
    rewrite !length_app. fold p. rewrite Hp.
    rewrite (take_app_ge p) by lia. rewrite Hp.
    rewrite (take_app_ge c1) by lia.
    rewrite (take_app_ge c1 D1) by lia.
    replace (4 + (Buffer.length c1 + Buffer.length F1) - 4 - 4
             - Buffer.length c1) with (Buffer.length F1 - 4) by lia.
    replace (Buffer.length c1 + Buffer.length D1
             - Z.min 4 (last_chunk_length D1) - Buffer.length c1)
      with (Buffer.length D1 - Z.min 4 (last_chunk_length D1)) by lia.
    apply unframes_step; [exact Hc | exact Hp |].
    apply IH. exact HD1.
Qed.

(** [decompress] cuts the stream four bytes before its end; unframing what
    is left gives the deflate output without its last four bytes (without
    the last chunk, when that is shorter than four bytes) *)
Lemma framed_truncated (D F : Buffer.t) :
  framed D F -> 4 <= Buffer.length D ->
  unframes (firstn (Z.to_nat (Buffer.length F - 4)) F)
    (firstn (Z.to_nat (Buffer.length D - Z.min 4 (last_chunk_length D))) D).
Proof.
  intros H Hlen. inversion H as [|c D' F' Hc HD Hfr E1 E2].
  { subst. cbn in Hlen. lia. }
  subst. destruct D' as [|d D1] eqn:ED'.
  - apply framed_rest_nil_inv in Hfr. subst F'.
    rewrite !app_nil_r in *. rewrite last_chunk_length_small by lia.
    rewrite Z.min_l by lia. apply unframes_last.
    rewrite length_firstn_Z by lia. unfold chunkSize, CHUNK_LENGTH in *. lia.
  - rewrite <- ED' in *.
    assert (HDne : D' <> []) by (rewrite ED'; discriminate).
    specialize (HD HDne).
    pose proof (framed_rest_length D' F' Hfr HDne) as HF.
    pose proof (last_chunk_length_bound D' HDne) as Hr.
    pose proof (length_nonneg D').
    rewrite last_chunk_length_app by exact HD.
    rewrite !length_app.
    rewrite (take_app_ge c F') by lia. rewrite (take_app_ge c D') by lia.
    replace (Buffer.length c + Buffer.length F' - 4 - Buffer.length c)
      with (Buffer.length F' - 4) by lia.
    replace (Buffer.length c + Buffer.length D'
             - Z.min 4 (last_chunk_length D') - Buffer.length c)
      with (Buffer.length D' - Z.min 4 (last_chunk_length D')) by lia.
    apply framed_rest_truncated; assumption.
Qed.

Lemma framed_length (D F : Buffer.t) :
  framed D F -> Buffer.length D <= Buffer.length F.
Proof.
  intros H. inversion H as [|c D' F' Hc HD Hfr E1 E2]; [lia|].
  rewrite !length_app. destruct D' as [|d D1].
  - apply framed_rest_nil_inv in Hfr. subst. lia.
  - assert (X : d :: D1 <> []) by discriminate.
    pose proof (framed_rest_length _ _ Hfr X). lia.
Qed.

(** *** Framing and unframing are inverse, whatever the length *)

Lemma framed_rest_unframes (D F : Buffer.t) :
  framed_rest D F -> D <> [] ->
  forall c, Buffer.length c = chunkSize -> unframes (c ++ F) (c ++ D).
Proof.
  intros H. induction H as [|c1 D1 F1 Hc1 HD1 Hfr IH]; intros Hne c Hc;
    [contradiction|].
  apply unframes_step; [exact Hc | reflexivity |].
  destruct D1 as [|d D1'] eqn:ED1.
  - apply framed_rest_nil_inv in Hfr. subst F1. rewrite !app_nil_r.
    apply unframes_last. unfold chunkSize, CHUNK_LENGTH in *. lia.
  - rewrite <- ED1 in *.
    assert (HD1ne : D1 <> []) by (rewrite ED1; discriminate).
    apply IH; [exact HD1ne | exact (HD1 HD1ne)].
Qed.

Lemma compressedData_finalBuffer (D : Buffer.t) :
  compressedData (finalBuffer D) = D.
Proof.
  apply unframes_compressedData.
  pose proof (finalBuffer_framed D) as H.
  inversion H as [|c D' F' Hc HD Hfr E1 E2].
  - apply unframes_last. unfold chunkSize. cbn. lia.
  - destruct D' as [|d D1] eqn:ED'.
    + apply framed_rest_nil_inv in Hfr. subst F'. rewrite !app_nil_r.
      apply unframes_last. unfold chunkSize, CHUNK_LENGTH in *. lia.
    + rewrite <- ED' in *.
      assert (HDne : D' <> []) by (rewrite ED'; discriminate).
      apply framed_rest_unframes; [exact Hfr | exact HDne | exact (HD HDne)].
Qed.

(** C1 (amended): the chunk framing of [recompress] and the unframing of
    [decompress] are inverse for a deflate output of any length. For a
    container whose boundary markers are located and any blob, if the
    boundary rule finds the spliced stream again in the container
    [recompress] returns (the zlib start at the old start offset, the last
    sync-flush marker on the last four bytes of the framed stream), then
    [decompress] of that container hands [inflateSync] the deflate output
    without its last four bytes (without its last chunk when that is
    shorter); so it returns the blob whenever [inflateSync] recovers the
    blob from that cut stream. *)
Theorem decompress_recompress_roundtrip
    (deflateSync : Buffer.t -> Buffer.t)
    (inflateSync : Buffer.t -> option Buffer.t)
    (savefile binfile : Buffer.t) :
  let D := deflateSync binfile in
  let F := finalBuffer D in
  let merged := recompress deflateSync savefile binfile in
  markers_located savefile ->
  bufstartindex merged = bufstartindex savefile ->
  sync_index merged = bufstartindex savefile + Buffer.length F - 4 ->
  4 <= Buffer.length D ->
  inflateSync
    (Buffer.slice D 0 (Buffer.length D - Z.min 4 (last_chunk_length D)))
  = Some binfile ->
  compressedData F = D /\
  decompress inflateSync merged = Ok binfile.
Proof.
  intros D F merged (_ & Hs & _) Hstart Hend HD Hz.
  split; [apply compressedData_finalBuffer|].
  destruct (bufstartindex_bound savefile) as [|[Hs0 Hs1]]; [contradiction|].
  pose proof (finalBuffer_framed D) as Hfr. fold F in Hfr.
  pose proof (framed_length D F Hfr) as HF.
  rewrite decompress_eq, Hstart, Hend. clear Hstart Hend.
  unfold merged. rewrite (recompress_shape _ _ _ Hs). fold D. fold F.
  set (P := firstn (Z.to_nat (bufstartindex savefile)) savefile).
  assert (HP : Buffer.length P = bufstartindex savefile).
  { unfold P. rewrite length_firstn_Z by lia. lia. }
  rewrite <- HP.
  replace (Buffer.length P + Buffer.length F - 4)
    with (Buffer.length P + (Buffer.length F - 4)) by lia.
  rewrite slice_app_at by lia. rewrite take_app_le by lia.
  rewrite (unframes_compressedData _ _ (framed_truncated D F Hfr HD)).
  assert (Hr : 0 <= Buffer.length D - Z.min 4 (last_chunk_length D)) by lia.
  rewrite slice_at_0 in Hz by exact Hr.
  unfold inflate. rewrite Hz. reflexivity.
Qed.

Lemma decompress_recompress_roundtrip_witness :
  decompress stored_inflateSync
    (recompress stored_deflateSync sample_save [x01; x02; x03])
  = Ok [x01; x02; x03].
Proof.
  apply (decompress_recompress_roundtrip stored_deflateSync stored_inflateSync
           sample_save [x01; x02; x03]).
  - repeat split; vm_compute; discriminate.
  - vm_compute. reflexivity.
  - vm_compute. reflexivity.
  - vm_compute. discriminate.
  - vm_compute. reflexivity.
Defined.

(** *** A container on which no blob survives the round trip *)

Lemma search_first_0_bound (pat l : Buffer.t) :
  Buffer.search_first pat l 0 = -1 \/ 0 <= Buffer.search_first pat l 0.
Proof. destruct (search_first_bound pat l 0) as [H|H]; [left|right]; lia. Qed.

Lemma search_last_0_bound (pat l : Buffer.t) :
  Buffer.search_last pat l 0 = -1 \/ 0 <= Buffer.search_last pat l 0.
Proof. destruct (search_last_bound pat l 0) as [H|H]; [left|right]; lia. Qed.

(** the searches number the offsets from [pos] on *)
Lemma search_first_shift (pat l : Buffer.t) :
  forall pos, 0 <= pos ->
    Buffer.search_first pat l pos =
      if Buffer.search_first pat l 0 =? -1 then -1
      else pos + Buffer.search_first pat l 0.
Proof.
  induction l as [|x l IH]; intros pos Hpos; cbn [Buffer.search_first].
  - destruct (Buffer.starts_with pat []); cbn; [lia | reflexivity].
  - destruct (Buffer.starts_with pat (x :: l)); [cbn; lia|].
    rewrite (IH (pos + 1)) by lia. rewrite (IH (0 + 1)) by lia.
    destruct (search_first_0_bound pat l) as [E|E].
    + rewrite E. reflexivity.
    + destruct (Z.eqb_spec (Buffer.search_first pat l 0) (-1)); [lia|].
      cbv iota.
      destruct (Z.eqb_spec (0 + 1 + Buffer.search_first pat l 0) (-1)); lia.
Qed.

Lemma search_last_shift (pat l : Buffer.t) :
  forall pos, 0 <= pos ->
    Buffer.search_last pat l pos =
      if Buffer.search_last pat l 0 =? -1 then -1
      else pos + Buffer.search_last pat l 0.
Proof.
  induction l as [|x l IH]; intros pos Hpos; cbn [Buffer.search_last].
  - destruct (Buffer.starts_with pat []); cbn; [lia | reflexivity].
  - rewrite (IH (pos + 1)) by lia. rewrite (IH (0 + 1)) by lia.
    destruct (search_last_0_bound pat l) as [E|E].
    + rewrite E. cbv zeta.
      repeat (change (-1 =? -1) with true; cbv iota).
      destruct (Buffer.starts_with pat (x :: l)); [|reflexivity].
      change (0 =? -1) with false. cbv iota. lia.
    + destruct (Z.eqb_spec (Buffer.search_last pat l 0) (-1)); [lia|].
      cbv zeta iota.
      destruct (Z.eqb_spec (pos + 1 + Buffer.search_last pat l 0) (-1)); [lia|].
      destruct (Z.eqb_spec (0 + 1 + Buffer.search_last pat l 0) (-1)); [lia|].
      cbv iota.
      destruct (Z.eqb_spec (0 + 1 + Buffer.search_last pat l 0) (-1)); lia.
Qed.

(** a match in the tail of a buffer is the last match of the buffer *)
Lemma search_last_app_right (pat A S : Buffer.t) :
  forall pos,
    Buffer.search_last pat S (pos + Buffer.length A) <> -1 ->
    Buffer.search_last pat (A ++ S) pos
    = Buffer.search_last pat S (pos + Buffer.length A).
Proof.
  induction A as [|a A IH]; intros pos H.
  - cbn [app]. change (Buffer.length []) with 0. rewrite Z.add_0_r in *.
    reflexivity.
  - rewrite length_cons in *. cbn [app Buffer.search_last].
    replace (pos + (1 + Buffer.length A)) with (pos + 1 + Buffer.length A)
      in * by lia.
    rewrite IH by exact H.
    destruct (Z.eqb_spec (Buffer.search_last pat S (pos + 1 + Buffer.length A))
                (-1)); [contradiction | reflexivity].
Qed.

Lemma search_last_found (pat l : Buffer.t) (pos : Z) :
  0 <= pos -> Buffer.starts_with pat l = true ->
  Buffer.search_last pat l pos <> -1.
Proof.
  intros Hpos H. destruct l as [|x l]; cbn [Buffer.search_last].
  - rewrite H. lia.
  - destruct (Z.eqb_spec (Buffer.search_last pat l (pos + 1)) (-1)) as [E|E];
      [rewrite H; lia | exact E].
Qed.

(** On [inverted_save] the three markers are found, yet the end boundary
    lies before the start: [recompress] keeps a copy of [MOD_TITLE 78 9c]
    behind the new stream, [decompress] starts there and slices nothing. *)
Lemma inverted_save_decodes_nothing
    (deflateSync : Buffer.t -> Buffer.t)
    (inflateSync : Buffer.t -> option Buffer.t) (binfile : Buffer.t) :
  decompress inflateSync (recompress deflateSync inverted_save binfile)
  = inflate inflateSync [].
Proof.
  assert (Hs : bufstartindex inverted_save <> -1) by (vm_compute; discriminate).
  rewrite (recompress_shape deflateSync inverted_save binfile Hs).
  set (F := finalBuffer (deflateSync binfile)).
  change (firstn (Z.to_nat (bufstartindex inverted_save)) inverted_save)
    with (sync_flush ++ MOD_TITLE).
  change (skipn (Z.to_nat (sync_index inverted_save + 4)) inverted_save)
    with (MOD_TITLE ++ zlib_start).
  set (S := MOD_TITLE ++ zlib_start).
  rewrite app_assoc. set (A := (sync_flush ++ MOD_TITLE) ++ F).
  pose proof (length_nonneg A) as HA.
  assert (HS : Buffer.length S = 11) by reflexivity.
  (* the last [MOD_TITLE] is the copy behind the stream *)
  assert (Hmod : modindex (A ++ S) = Buffer.length A).
  { unfold modindex, Buffer.lastIndexOf.
    assert (E : Buffer.search_last MOD_TITLE S (0 + Buffer.length A)
                = Buffer.length A).
    { rewrite search_last_shift by lia.
      change (Buffer.search_last MOD_TITLE S 0) with 0. cbn. lia. }
    rewrite search_last_app_right; rewrite E; [reflexivity | lia]. }
  (* the zlib start is found behind it *)
  assert (Hstart : bufstartindex (A ++ S) = Buffer.length A + 9).
  { unfold bufstartindex, Buffer.indexOf. rewrite Hmod.
    destruct (Z.ltb_spec (Buffer.length A) 0); [lia|].
    rewrite length_app, HS. change (Buffer.length zlib_start) with 2.
    destruct (Z.leb_spec (Buffer.length A + 2) (Buffer.length A + 11)); [|lia].
    rewrite skipn_length_app. rewrite search_first_shift by lia.
    change (Buffer.search_first zlib_start S 0) with 9. reflexivity. }
  (* the last sync-flush marker lies before it *)
  assert (Hend : 0 <= sync_index (A ++ S) <= Buffer.length A + 9).
  { destruct (sync_index_bound (A ++ S)) as [E|[E1 E2]].
    - exfalso. revert E. unfold sync_index, Buffer.lastIndexOf.
      apply search_last_found; [lia|].
      unfold A. rewrite <- !app_assoc. apply starts_with_app.
    - rewrite length_app, HS in E2. lia. }
  rewrite decompress_eq, Hstart.
  rewrite slice_empty by lia. rewrite compressedData_nil. reflexivity.
Qed.

(** C1, as stated, fails, in two ways. On [inverted_save], whose three
    markers are all located, no choice of deflater and inflater makes every
    blob come back from [decompress (recompress container blob)]. And the
    result does depend on the block choices of the deflater: when the blob
    contains [MOD_TITLE] and is emitted as a stored block, the marker shows
    up inside the new stream, the search for the zlib start begins behind
    it, and the blob that comes back from the well-formed [sample_save] is
    empty. *)
Lemma payload_roundtrip_fails :
  (markers_located inverted_save /\
   ~ (exists (deflateSync : Buffer.t -> Buffer.t)
             (inflateSync : Buffer.t -> option Buffer.t),
         forall binfile,
           decompress inflateSync
             (recompress deflateSync inverted_save binfile)
           = Ok binfile)) /\
  (markers_located sample_save /\
   stored_inflateSync (stored_deflateSync (MOD_TITLE ++ [x01]))
   = Some (MOD_TITLE ++ [x01]) /\
   decompress stored_inflateSync
     (recompress stored_deflateSync sample_save (MOD_TITLE ++ [x01]))
   = Ok []).
Proof.
  split; split.
  - repeat split; vm_compute; discriminate.
  - intros (deflateSync & inflateSync & H).
    pose proof (H []) as H0. pose proof (H [x00]) as H1.
    rewrite inverted_save_decodes_nothing in H0, H1.
    rewrite H0 in H1. discriminate H1.
  - repeat split; vm_compute; discriminate.
  - split; vm_compute; reflexivity.
Qed.


(** * The tile table *)

(** ** Reads, flags, hex strings *)

Lemma in_range_spec (b : Buffer.t) (off width : Z) :
  Buffer.in_range b off width = true <->
  0 <= off /\ off + width <= Buffer.length b.
Proof.
  unfold Buffer.in_range. rewrite andb_true_iff, Z.leb_le, Z.leb_le.
  reflexivity.
Qed.

Lemma readUInt8_ok (b : Buffer.t) (off v : Z) :
  Buffer.readUInt8 b off = Ok v ->
  0 <= off /\ off + 1 <= Buffer.length b /\ v = Buffer.get b off.
Proof.
  unfold Buffer.readUInt8. destruct (Buffer.in_range b off 1) eqn:E;
    [|discriminate].
  apply in_range_spec in E. intros [= <-]. intuition.
Qed.

Lemma readInt16LE_ok (b : Buffer.t) (off v : Z) :
  Buffer.readInt16LE b off = Ok v -> 0 <= off /\ off + 2 <= Buffer.length b.
Proof.
  unfold Buffer.readInt16LE. destruct (Buffer.in_range b off 2) eqn:E;
    [|discriminate].
  apply in_range_spec in E. intros _. exact E.
Qed.

Lemma readUInt32LE_ok (b : Buffer.t) (off v : Z) :
  Buffer.readUInt32LE b off = Ok v ->
  0 <= off /\ off + 4 <= Buffer.length b /\ v = Buffer.le32 b off.
Proof.
  unfold Buffer.readUInt32LE. destruct (Buffer.in_range b off 4) eqn:E;
    [|discriminate].
  apply in_range_spec in E. intros [= <-]. intuition.
Qed.

Lemma readInt32LE_short (b : Buffer.t) (off : Z) :
  Buffer.length b < off + 4 -> Buffer.readInt32LE b off = Throw RangeError.
Proof.
  intros H. unfold Buffer.readInt32LE.
  destruct (Buffer.in_range b off 4) eqn:E; [|reflexivity].
  apply in_range_spec in E. lia.
Qed.

Lemma readInt32LE_long (b : Buffer.t) (off : Z) :
  0 <= off -> off + 4 <= Buffer.length b ->
  Buffer.readInt32LE b off = Ok (Buffer.signed 4 (Buffer.le32 b off)).
Proof.
  intros H0 H1. unfold Buffer.readInt32LE.
  destruct (Buffer.in_range b off 4) eqn:E; [reflexivity|].
  assert (X : Buffer.in_range b off 4 = true) by (apply in_range_spec; lia).
  congruence.
Qed.

Lemma truthy_true (z : Z) : truthy z = true <-> z <> 0.
Proof.
  unfold truthy. destruct (Z.eqb_spec z 0); cbn; split; intros; congruence.
Qed.

Lemma truthy_false (z : Z) : truthy z = false <-> z = 0.
Proof.
  unfold truthy. destruct (Z.eqb_spec z 0); cbn; split; intros; congruence.
Qed.

(** a one-bit mask is nonzero exactly when the bit is set *)
Lemma truthy_land_bit (z k : Z) :
  0 <= k -> truthy (Z.land z (2 ^ k)) = Z.testbit z k.
Proof.
  intros Hk. destruct (Z.testbit z k) eqn:E.
  - apply truthy_true. intros H.
    assert (X : Z.testbit (Z.land z (2 ^ k)) k = true).
    { rewrite Z.land_spec, E, Z.pow2_bits_true by lia. reflexivity. }
    rewrite H, Z.bits_0 in X. discriminate.
  - apply truthy_false. apply Z.bits_inj'. intros n Hn.
    rewrite Z.land_spec, Z.bits_0, Z.pow2_bits_eqb by lia.
    destruct (Z.eqb_spec k n) as [->|]; [rewrite E|]; apply andb_false_r
      || reflexivity.
Qed.

Lemma toString_hex_app (a b : Buffer.t) :
  Buffer.toString_hex (a ++ b)
  = (Buffer.toString_hex a ++ Buffer.toString_hex b)%string.
Proof.
  induction a as [|x a IH]; [reflexivity|].
  cbn [app Buffer.toString_hex String.append]. rewrite IH. reflexivity.
Qed.

Lemma toString_hex_length (b : Buffer.t) :
  Z.of_nat (String.length (Buffer.toString_hex b)) = 2 * Buffer.length b.
Proof.
  induction b as [|x b IH]; [reflexivity|].
  rewrite length_cons. cbn [Buffer.toString_hex String.length]. lia.
Qed.

Lemma toString_hex_empty (b : Buffer.t) :
  Buffer.toString_hex b = EmptyString <-> b = [].
Proof.
  split; intros H; [|subst; reflexivity].
  destruct b; [reflexivity | discriminate H].
Qed.

(** ** Slices inside the blob *)

Lemma slice_length_inside (b : Buffer.t) (s k : Z) :
  0 <= s -> 0 <= k -> s + k <= Buffer.length b ->
  Buffer.length (Buffer.slice b s (s + k)) = k.
Proof.
  intros Hs Hk Hb. rewrite slice_inside by lia.
  rewrite length_firstn_Z by lia. rewrite length_skipn_Z by lia. lia.
Qed.

Lemma slice_nil (b : Buffer.t) (s : Z) : 0 <= s -> Buffer.slice b s (s + 0) = [].
Proof. intros Hs. apply slice_empty; lia. Qed.

Lemma firstn_plus (a b : nat) :
  forall l : Buffer.t,
    firstn (a + b) l = firstn a l ++ firstn b (skipn a l).
Proof.
  induction a as [|a IH]; intros l; [reflexivity|].
  destruct l as [|x l]; cbn [Nat.add firstn skipn app].
  - rewrite firstn_nil. reflexivity.
  - rewrite IH. reflexivity.
Qed.

Lemma slice_split (b : Buffer.t) (s m e : Z) :
  0 <= s -> s <= m -> m <= e -> e <= Buffer.length b ->
  Buffer.slice b s m ++ Buffer.slice b m e = Buffer.slice b s e.
Proof.
  intros Hs Hm He Hb. rewrite !slice_inside by lia.
  replace (Z.to_nat (e - s)) with (Z.to_nat (m - s) + Z.to_nat (e - m))%nat
    by lia.
  rewrite firstn_plus. f_equal. rewrite skipn_skipn. do 2 f_equal. lia.
Qed.

Lemma copy_length (source target : Buffer.t) (targetStart : Z) :
  Buffer.length (Buffer.copy source target targetStart) = Buffer.length target.
Proof.
  unfold Buffer.copy, Buffer.length.
  rewrite !List.length_app, !List.length_firstn, List.length_skipn. lia.
Qed.

(** ** Going through a run of reads *)

Lemma bind_ok_inv {A B : Type} (c : result A) (k : A -> result B) (r : B) :
  bind c k = Ok r -> exists a, c = Ok a /\ k a = Ok r.
Proof.
  destruct c as [a|e]; cbn; intros H; [exists a; auto | discriminate H].
Qed.

Ltac bind_step H :=
  match type of H with
  | bind ?c _ = Ok _ =>
      let E := fresh "E" in
      let a := fresh "a" in
      apply bind_ok_inv in H; destruct H as (a & E & H); cbv beta in H
  end.

Ltac bind_ok H := repeat (bind_step H).

(** ** One record of the structured view *)

(** where [Split.turn] finds the sub-buffers of the record at [mindex], and
    how far it moves on *)
Lemma Split_turn_layout (bin : Buffer.t) (tiles i mindex : Z)
    (t : Split.tile) (m' : Z) :
  Split.turn bin tiles i mindex = Ok (t, m') ->
  let f2 := Buffer.get bin (mindex + 49) in
  let f4 := Buffer.get bin (mindex + 51) in
  let o := mindex + 55 in
  let a := truthy (Z.land f4 1) in
  let b := a && truthy (Z.land (Buffer.get bin (o + 20)) 1) in
  let la := if a then 24 else 0 in
  let lb := if b then 20 else 0 in
  let lc := if truthy (Z.land f4 2) then 44 else 0 in
  let ld := if truthy (Z.land f2 64) then 17 else 0 in
  0 <= mindex /\ o <= Buffer.length bin /\
  Split.hex_location t = mindex /\
  Split.flags2 t = f2 /\ Split.flags4 t = f4 /\
  Split.buffer1 t = Buffer.toString_hex (Buffer.slice bin o (o + la)) /\
  Split.buffer1_flag t = (if a then Some (Buffer.get bin (o + 20)) else None) /\
  Split.buffer2 t
  = Buffer.toString_hex (Buffer.slice bin (o + la) (o + la + lb)) /\
  Split.buffer3 t
  = Buffer.toString_hex (Buffer.slice bin (o + la + lb) (o + la + lb + lc)) /\
  Split.buffer4 t
  = Buffer.toString_hex
      (Buffer.slice bin (o + la + lb + lc) (o + la + lb + lc + ld)) /\
  Split.tile_length t = 55 + la + lb + lc + ld /\
  m' = o + la + lb + lc + ld.
Proof.
  intros H. unfold Split.turn in H. cbv zeta in H. bind_ok H.
  match goal with
  | X : Buffer.readInt16LE bin mindex = Ok _ |- _ =>
      apply readInt16LE_ok in X; destruct X as [H0 _]
  end.
  match goal with
  | X : Buffer.readUInt8 bin (mindex + 54) = Ok _ |- _ =>
      apply readUInt8_ok in X; destruct X as (_ & H55 & _)
  end.
  match goal with
  | X : Buffer.readUInt8 bin (mindex + 49) = Ok _ |- _ =>
      apply readUInt8_ok in X; destruct X as (_ & _ & ->)
  end.
  match goal with
  | X : Buffer.readUInt8 bin (mindex + 51) = Ok _ |- _ =>
      apply readUInt8_ok in X; destruct X as (_ & _ & ->)
  end.
  assert (Hnil : forall s, 0 <= s -> Buffer.slice bin s s = [])
    by (intros s Hs; apply slice_empty; lia).
  match goal with
  | X : (if _ then _ else _) = Ok _ |- _ => rename X into Hst
  end.
  destruct (truthy (Z.land (Buffer.get bin (mindex + 51)) 1)) eqn:Ea.
  - bind_ok Hst.
    match goal with
    | X : Buffer.readUInt8 bin (mindex + 55 + 20) = Ok _ |- _ =>
        apply readUInt8_ok in X; destruct X as (_ & _ & ->)
    end.
    destruct (truthy (Z.land (Buffer.get bin (mindex + 55 + 20)) 1)) eqn:Eb.
    all: injection Hst as <-.
    all: destruct (truthy (Z.land (Buffer.get bin (mindex + 51)) 2)) eqn:Ec.
    all: destruct (truthy (Z.land (Buffer.get bin (mindex + 49)) 64)) eqn:Ed.
    all: cbv beta iota zeta in H; injection H as <- <-.
    all: cbv zeta; rewrite ?Ea, ?Eb, ?Ec, ?Ed.
    all: cbn [Split.hex_location Split.flags2 Split.flags4 Split.buffer1
              Split.buffer1_flag Split.buffer2 Split.buffer3 Split.buffer4
              Split.tile_length andb].
    all: rewrite ?Z.add_0_r; rewrite ?Hnil by lia.
    all: clear - H0 H55.
    all: repeat split; try lia; reflexivity.
  - injection Hst as <-.
    destruct (truthy (Z.land (Buffer.get bin (mindex + 51)) 2)) eqn:Ec.
    all: destruct (truthy (Z.land (Buffer.get bin (mindex + 49)) 64)) eqn:Ed.
    all: cbv beta iota zeta in H; injection H as <- <-.
    all: cbv zeta; rewrite ?Ea, ?Ec, ?Ed.
    all: cbn [Split.hex_location Split.flags2 Split.flags4 Split.buffer1
              Split.buffer1_flag Split.buffer2 Split.buffer3 Split.buffer4
              Split.tile_length andb].
    all: rewrite ?Z.add_0_r; rewrite ?Hnil by lia.
    all: clear - H0 H55.
    all: repeat split; try lia; reflexivity.
Qed.

Lemma hex_slice_present (bin : Buffer.t) (s l : Z) :
  0 <= s -> 0 <= l -> s + l <= Buffer.length bin ->
  (Buffer.toString_hex (Buffer.slice bin s (s + l)) <> EmptyString <-> l <> 0)
  /\ String.length (Buffer.toString_hex (Buffer.slice bin s (s + l)))
     = Z.to_nat (2 * l).
Proof.
  intros Hs Hl Hb.
  pose proof (slice_length_inside bin s l Hs Hl Hb) as Hlen.
  pose proof (toString_hex_length (Buffer.slice bin s (s + l))) as Hhex.
  split; [|lia].
  rewrite toString_hex_empty, <- length_nil_iff, Hlen. reflexivity.
Qed.

Lemma if_truthy_nonzero (z k : Z) :
  k <> 0 -> ((if truthy z then k else 0) <> 0 <-> z <> 0).
Proof.
  intros Hk. destruct (truthy z) eqn:E.
  - apply truthy_true in E. tauto.
  - apply truthy_false in E. split; intros H; [contradiction | lia].
Qed.

Lemma if_truthy_set (z k : Z) : z <> 0 -> (if truthy z then k else 0) = k.
Proof. intros H. apply truthy_true in H. rewrite H. reflexivity. Qed.

Lemma if_truthy_range (z k : Z) : 0 <= k -> 0 <= (if truthy z then k else 0) <= k.
Proof. intros H. destruct (truthy z); lia. Qed.

(** a record that lies inside the blob has the sub-buffers its flags call
    for *)
Lemma Split_turn_subbuffers (bin : Buffer.t) (tiles i mindex : Z)
    (t : Split.tile) (m' : Z) :
  Split.turn bin tiles i mindex = Ok (t, m') ->
  Split.hex_location t + Split.tile_length t <= Buffer.length bin ->
  subbuffers_match_flags bin t.
Proof.
  intros H Hin. apply Split_turn_layout in H. cbv zeta in H.
  destruct H as (H0 & H55 & Eloc & Ef2 & Ef4 & E1 & Efl & E2 & E3 & E4 & El & _).
  unfold subbuffers_match_flags. cbv zeta. rewrite Eloc in *. clear Eloc.
  rewrite Ef2, Ef4. clear Ef2 Ef4.
  set (f2 := Buffer.get bin (mindex + 49)) in *.
  set (f4 := Buffer.get bin (mindex + 51)) in *.
  set (g := Buffer.get bin (mindex + 55 + 20)) in *.
  set (la := if truthy (Z.land f4 1) then 24 else 0) in *.
  set (lb := if truthy (Z.land f4 1) && truthy (Z.land g 1) then 20 else 0) in *.
  set (lc := if truthy (Z.land f4 2) then 44 else 0) in *.
  set (ld := if truthy (Z.land f2 64) then 17 else 0) in *.
  assert (Ra : 0 <= la <= 24) by (apply if_truthy_range; lia).
  assert (Rb : 0 <= lb <= 20) by (unfold lb; destruct (_ && _); lia).
  assert (Rc : 0 <= lc <= 44) by (apply if_truthy_range; lia).
  assert (Rd : 0 <= ld <= 17) by (apply if_truthy_range; lia).
  assert (Ha : la <> 0 <-> Z.land f4 1 <> 0) by (apply if_truthy_nonzero; lia).
  assert (Hb : lb <> 0 <-> Z.land f4 1 <> 0 /\ Z.land g 1 <> 0).
  { unfold lb. rewrite <- !truthy_true.
    destruct (truthy (Z.land f4 1)), (truthy (Z.land g 1)); cbn;
      intuition (try lia; try discriminate). }
  assert (Hc : lc <> 0 <-> Z.land f4 2 <> 0) by (apply if_truthy_nonzero; lia).
  assert (Hd : ld <> 0 <-> Z.land f2 64 <> 0) by (apply if_truthy_nonzero; lia).
  assert (Sa : Z.land f4 1 <> 0 -> la = 24) by apply if_truthy_set.
  assert (Sb : Z.land f4 1 <> 0 /\ Z.land g 1 <> 0 -> lb = 20).
  { intros [X Y]. unfold lb. apply truthy_true in X, Y. rewrite X, Y.
    reflexivity. }
  assert (Sc : Z.land f4 2 <> 0 -> lc = 44) by apply if_truthy_set.
  assert (Sd : Z.land f2 64 <> 0 -> ld = 17) by apply if_truthy_set.
  assert (Sf : Z.land f4 1 <> 0 -> Split.buffer1_flag t = Some g).
  { intros X. rewrite Efl. apply truthy_true in X. rewrite X. reflexivity. }
  clear Efl. clearbody la lb lc ld f2 f4 g.
  rewrite El in Hin. rewrite El. clear El.
  replace (mindex + (55 + la + lb + lc + ld))
    with (mindex + 55 + la + lb + lc + ld) by (clear; lia).
  assert (Hfit : 0 <= mindex /\
                mindex + 55 + la + lb + lc + ld <= Buffer.length bin)
    by (clear - H0 Hin; lia).
  clear H0 H55 Hin.
  pose proof (hex_slice_present bin (mindex + 55) la) as [P1 L1];
    [clear - Hfit Ra Rb Rc Rd; lia..|].
  pose proof (hex_slice_present bin (mindex + 55 + la) lb) as [P2 L2];
    [clear - Hfit Ra Rb Rc Rd; lia..|].
  pose proof (hex_slice_present bin (mindex + 55 + la + lb) lc) as [P3 L3];
    [clear - Hfit Ra Rb Rc Rd; lia..|].
  pose proof (hex_slice_present bin (mindex + 55 + la + lb + lc) ld) as [P4 L4];
    [clear - Hfit Ra Rb Rc Rd; lia..|].
  rewrite <- E1 in P1, L1. rewrite <- E2 in P2, L2.
  rewrite <- E3 in P3, L3. rewrite <- E4 in P4, L4.
  repeat split.
  - intros X. apply Ha, P1, X.
  - intros X. apply P1, Ha, X.
  - rewrite L1, Sa by assumption. reflexivity.
  - apply Sf. assumption.
  - apply Hb, P2. assumption.
  - apply Hb, P2. assumption.
  - intros X. apply P2, Hb, X.
  - intros X. rewrite L2, Sb by assumption. reflexivity.
  - intros X. apply Hc, P3, X.
  - intros X. apply P3, Hc, X.
  - intros X. rewrite L3, Sc by assumption. reflexivity.
  - intros X. apply Hd, P4, X.
  - intros X. apply P4, Hd, X.
  - intros X. rewrite L4, Sd by assumption. reflexivity.
  - rewrite E1, E2, E3, E4, <- !toString_hex_app. f_equal.
    clear - Hfit Ra Rb Rc Rd.
    rewrite !slice_split by lia. reflexivity.
Qed.



(** ** The loop of [savetomapjson] *)

(** the loop pushes one object per turn, the [k]-th from a turn with index
    [i + k] *)
Lemma Split_loop_inv (n : nat) :
  forall (bin : Buffer.t) (tiles i mindex : Z) (acc ts : list Split.tile),
    Split.loop n bin tiles i mindex acc = Ok ts ->
    exists new,
      ts = acc ++ new /\ List.length new = n /\
      forall k t, nth_error new k = Some t ->
        exists m m', Split.turn bin tiles (i + Z.of_nat k) m = Ok (t, m').
Proof.
  induction n as [|n IH]; intros bin tiles i mindex acc ts H.
  - cbn in H. injection H as <-. exists []. rewrite app_nil_r.
    repeat split. intros [|k] t Hk; discriminate Hk.
  - cbn [Split.loop] in H. bind_step H. destruct a as [t0 m0].
    cbn [fst snd] in H. apply IH in H. destruct H as (new & -> & Hlen & Hnth).
    exists (t0 :: new). rewrite <- app_assoc. repeat split.
    + cbn [List.length]. lia.
    + intros [|k] t Hk.
      * cbn in Hk. injection Hk as <-. exists mindex, m0.
        rewrite Z.add_0_r. exact E.
      * cbn [nth_error] in Hk. apply Hnth in Hk.
        destruct Hk as (m & m' & Hk). exists m, m'.
        replace (i + Z.of_nat (S k)) with (i + 1 + Z.of_nat k) by lia.
        exact Hk.
Qed.

(** the fields [buffer1] .. [buffer4] of a record of [savetomapjson] (the
    revision that reports them) that lies inside the blob match its flag
    bytes *)
Lemma savetomapjson_bin_subbuffers (bin : Buffer.t) (map : Split.map)
    (t : Split.tile) :
  Split.savetomapjson_bin bin = Ok map ->
  In t (Split.tiles map) ->
  Split.hex_location t + Split.tile_length t <= Buffer.length bin ->
  subbuffers_match_flags bin t.
Proof.
  intros H Hin Hfit. unfold Split.savetomapjson_bin in H. cbv zeta in H.
  bind_ok H. injection H as <-. cbn [Split.tiles] in Hin.
  match goal with
  | X : Split.loop _ _ _ _ _ _ = Ok _ |- _ => apply Split_loop_inv in X;
      destruct X as (new & -> & _ & Hnth)
  end.
  cbn [app] in Hin. apply In_nth_error in Hin. destruct Hin as [k Hk].
  destruct (Hnth k t Hk) as (m & m' & Hturn).
  exact (Split_turn_subbuffers bin _ _ m t m' Hturn Hfit).
Qed.

(** * Map sizes and grid coordinates *)

Lemma mapsizedata_recognized (tiles : Z) :
  mapsizedata tiles = None <-> ~ recognized tiles.
Proof.
  unfold mapsizedata, recognized. cbn [In].
  repeat match goal with
         | |- context [?a =? ?b] => destruct (Z.eqb_spec a b)
         end;
    split; intros H; try discriminate H; try reflexivity;
    try (exfalso; apply H; tauto); intuition lia.
Qed.

Lemma mapsizedata_x_width (tiles sx w h : Z) :
  mapsizedata tiles = Some (w, h) -> mapsizedata_x tiles = Ok sx -> sx = w.
Proof.
  unfold mapsizedata_x. intros ->. cbn. intros [= <-]. reflexivity.
Qed.

Lemma mapsizedata_x_undefined (tiles : Z) :
  ~ recognized tiles -> mapsizedata_x tiles = Throw TypeError.
Proof.
  intros H. apply mapsizedata_recognized in H. unfold mapsizedata_x.
  rewrite H. reflexivity.
Qed.

Lemma Split_turn_coords (bin : Buffer.t) (tiles i mindex w h : Z)
    (t : Split.tile) (m' : Z) :
  mapsizedata tiles = Some (w, h) ->
  Split.turn bin tiles i mindex = Ok (t, m') ->
  Split.x t = i mod w /\ Split.y t = i / w.
Proof.
  intros Hw H. unfold Split.turn in H. cbv zeta in H. do 2 bind_step H.
  apply (mapsizedata_x_width _ _ _ _ Hw) in E.
  apply (mapsizedata_x_width _ _ _ _ Hw) in E0. subst.
  bind_ok H.
  match type of H with
  | context [match ?p with _ => _ end] => destruct p as [[[b1 fl] b2] m1]
  end.
  repeat match type of H with
         | context [if ?c then _ else _] => destruct c
         end;
    cbv beta iota zeta in H; injection H as <- <-; split; reflexivity.
Qed.

Lemma Flat_turn_coords (bin : Buffer.t) (tiles i mindex w h : Z)
    (t : Flat.tile) (m' : Z) :
  mapsizedata tiles = Some (w, h) ->
  Flat.turn bin tiles i mindex = Ok (t, m') ->
  Flat.x t = i mod w /\ Flat.y t = i / w.
Proof.
  intros Hw H. unfold Flat.turn in H. cbv zeta in H. do 4 bind_step H.
  apply (mapsizedata_x_width _ _ _ _ Hw) in E1.
  apply (mapsizedata_x_width _ _ _ _ Hw) in E2. subst.
  bind_ok H. injection H as <- <-. split; reflexivity.
Qed.

Lemma Flat_loop_inv (n : nat) :
  forall (bin : Buffer.t) (tiles i mindex : Z) (acc ts : list Flat.tile),
    Flat.loop n bin tiles i mindex acc = Ok ts ->
    exists new,
      ts = acc ++ new /\ List.length new = n /\
      forall k t, nth_error new k = Some t ->
        exists m m', Flat.turn bin tiles (i + Z.of_nat k) m = Ok (t, m').
Proof.
  induction n as [|n IH]; intros bin tiles i mindex acc ts H.
  - cbn in H. injection H as <-. exists []. rewrite app_nil_r.
    repeat split. intros [|k] t Hk; discriminate Hk.
  - cbn [Flat.loop] in H. bind_step H. destruct a as [t0 m0].
    cbn [fst snd] in H. apply IH in H. destruct H as (new & -> & Hlen & Hnth).
    exists (t0 :: new). rewrite <- app_assoc. repeat split.
    + cbn [List.length]. lia.
    + intros [|k] t Hk.
      * cbn in Hk. injection Hk as <-. exists mindex, m0.
        rewrite Z.add_0_r. exact E.
      * cbn [nth_error] in Hk. apply Hnth in Hk.
        destruct Hk as (m & m' & Hk). exists m, m'.
        replace (i + Z.of_nat (S k)) with (i + 1 + Z.of_nat k) by lia.
        exact Hk.
Qed.

Lemma Split_loop_coords (n : nat) (bin : Buffer.t) (tiles w h i mindex : Z)
    (ts : list Split.tile) (k : nat) (t : Split.tile) :
  mapsizedata tiles = Some (w, h) ->
  Split.loop n bin tiles i mindex [] = Ok ts ->
  nth_error ts k = Some t ->
  Split.x t = (i + Z.of_nat k) mod w /\ Split.y t = (i + Z.of_nat k) / w.
Proof.
  intros Hw H Hk. apply Split_loop_inv in H.
  destruct H as (new & -> & _ & Hnth). cbn [app] in Hk.
  destruct (Hnth k t Hk) as (m & m' & Hturn).
  exact (Split_turn_coords _ _ _ _ _ _ _ _ Hw Hturn).
Qed.

Lemma Flat_loop_coords (n : nat) (bin : Buffer.t) (tiles w h i mindex : Z)
    (ts : list Flat.tile) (k : nat) (t : Flat.tile) :
  mapsizedata tiles = Some (w, h) ->
  Flat.loop n bin tiles i mindex [] = Ok ts ->
  nth_error ts k = Some t ->
  Flat.x t = (i + Z.of_nat k) mod w /\ Flat.y t = (i + Z.of_nat k) / w.
Proof.
  intros Hw H Hk. apply Flat_loop_inv in H.
  destruct H as (new & -> & _ & Hnth). cbn [app] in Hk.
  destruct (Hnth k t Hk) as (m & m' & Hturn).
  exact (Flat_turn_coords _ _ _ _ _ _ _ _ Hw Hturn).
Qed.

Lemma Split_savetomapjson_unrecognized (bin : Buffer.t) (tiles : Z) :
  tile_count bin = Ok tiles -> 0 < tiles -> ~ recognized tiles ->
  Split.savetomapjson_bin bin = Throw TypeError.
Proof.
  intros Hc Hpos Hun. unfold Split.savetomapjson_bin. cbv zeta.
  unfold tile_count in Hc. rewrite Hc. cbn [bind].
  destruct (Z.to_nat tiles) as [|n] eqn:En; [lia|].
  cbn [Split.loop]. unfold Split.turn.
  rewrite (mapsizedata_x_undefined _ Hun). reflexivity.
Qed.

Lemma Flat_savetomapjson_unrecognized (bin : Buffer.t) (tiles : Z) :
  tile_count bin = Ok tiles -> 0 < tiles -> ~ recognized tiles ->
  throws (Flat.savetomapjson_bin bin).
Proof.
  intros Hc Hpos Hun. unfold Flat.savetomapjson_bin. cbv zeta.
  unfold tile_count in Hc. rewrite Hc. cbn [bind].
  destruct (Z.to_nat tiles) as [|n] eqn:En; [lia|].
  cbn [Flat.loop]. unfold Flat.turn.
  rewrite (mapsizedata_x_undefined _ Hun).
  destruct (Buffer.readUInt8 bin _) as [num1|e1]; cbn [bind];
    [|exists e1; reflexivity].
  destruct (Buffer.readUInt8 bin _) as [num2|e2]; cbn [bind];
    [|exists e2; reflexivity].
  exists TypeError. reflexivity.
Qed.

Lemma savetomapjson_no_turn (bin : Buffer.t) (tiles : Z) :
  tile_count bin = Ok tiles -> tiles <= 0 ->
  Split.savetomapjson_bin bin = Ok {| Split.tiles := [] |} /\
  Flat.savetomapjson_bin bin = Ok {| Flat.tiles := [] |}.
Proof.
  intros Hc Hle. unfold Split.savetomapjson_bin, Flat.savetomapjson_bin.
  cbv zeta. unfold tile_count in Hc. rewrite Hc. cbn [bind].
  replace (Z.to_nat tiles) with 0%nat by lia. split; reflexivity.
Qed.

Lemma Split_savetomapjson_coords (bin : Buffer.t) (tiles w h : Z)
    (map : Split.map) (k : nat) (t : Split.tile) :
  tile_count bin = Ok tiles -> mapsizedata tiles = Some (w, h) ->
  Split.savetomapjson_bin bin = Ok map ->
  nth_error (Split.tiles map) k = Some t ->
  Split.x t = Z.of_nat k mod w /\ Split.y t = Z.of_nat k / w.
Proof.
  intros Hc Hw H Hk. unfold Split.savetomapjson_bin in H. cbv zeta in H.
  unfold tile_count in Hc. rewrite Hc in H. cbn [bind] in H.
  bind_step H. injection H as <-. cbn [Split.tiles] in Hk.
  exact (Split_loop_coords _ _ _ _ _ 0 _ _ _ _ Hw E Hk).
Qed.

Lemma Flat_savetomapjson_coords (bin : Buffer.t) (tiles w h : Z)
    (map : Flat.map) (k : nat) (t : Flat.tile) :
  tile_count bin = Ok tiles -> mapsizedata tiles = Some (w, h) ->
  Flat.savetomapjson_bin bin = Ok map ->
  nth_error (Flat.tiles map) k = Some t ->
  Flat.x t = Z.of_nat k mod w /\ Flat.y t = Z.of_nat k / w.
Proof.
  intros Hc Hw H Hk. unfold Flat.savetomapjson_bin in H. cbv zeta in H.
  unfold tile_count in Hc. rewrite Hc in H. cbn [bind] in H.
  bind_step H. injection H as <-. cbn [Flat.tiles] in Hk.
  exact (Flat_loop_coords _ _ _ _ _ 0 _ _ _ _ Hw E Hk).
Qed.

(** C7 (amended): [savetomapjson] has no check of the tile count; it
    fails, on reading [.x] of [undefined] in the first turn of its loop (in
    one revision possibly on a read just before it), whenever the count is
    positive and not one of 1144, 2280, 3404, 4536, 5760, 6996. With a
    count of zero or less the loop never runs and the result is an empty
    tile list. For a recognized count, the record with index [i] gets
    [x = i mod rowWidth] and [y = floor (i / rowWidth)], the row width for
    2280 being 60. *)
Theorem savetomapjson_map_size :
  (forall tiles, mapsizedata tiles = None <-> ~ recognized tiles) /\
  mapsizedata 2280 = Some (60, 38) /\
  (forall bin tiles,
      tile_count bin = Ok tiles -> 0 < tiles -> ~ recognized tiles ->
      Split.savetomapjson_bin bin = Throw TypeError /\
      throws (Flat.savetomapjson_bin bin)) /\
  (forall bin tiles,
      tile_count bin = Ok tiles -> tiles <= 0 ->
      Split.savetomapjson_bin bin = Ok {| Split.tiles := [] |} /\
      Flat.savetomapjson_bin bin = Ok {| Flat.tiles := [] |}) /\
  (forall bin tiles w h map k t,
      tile_count bin = Ok tiles -> mapsizedata tiles = Some (w, h) ->
      Split.savetomapjson_bin bin = Ok map ->
      nth_error (Split.tiles map) k = Some t ->
      Split.x t = Z.of_nat k mod w /\ Split.y t = Z.of_nat k / w) /\
  (forall bin tiles w h map k t,
      tile_count bin = Ok tiles -> mapsizedata tiles = Some (w, h) ->
      Flat.savetomapjson_bin bin = Ok map ->
      nth_error (Flat.tiles map) k = Some t ->
      Flat.x t = Z.of_nat k mod w /\ Flat.y t = Z.of_nat k / w) /\
  (forall n bin tiles w h i mindex ts k t,
      mapsizedata tiles = Some (w, h) ->
      Split.loop n bin tiles i mindex [] = Ok ts ->
      nth_error ts k = Some t ->
      Split.x t = (i + Z.of_nat k) mod w /\
      Split.y t = (i + Z.of_nat k) / w) /\
  (forall n bin tiles w h i mindex ts k t,
      mapsizedata tiles = Some (w, h) ->
      Flat.loop n bin tiles i mindex [] = Ok ts ->
      nth_error ts k = Some t ->
      Flat.x t = (i + Z.of_nat k) mod w /\
      Flat.y t = (i + Z.of_nat k) / w).
Proof.
  split; [exact mapsizedata_recognized|].
  split; [reflexivity|].
  split.
  { intros bin tiles Hc Hpos Hun. split.
    - exact (Split_savetomapjson_unrecognized bin tiles Hc Hpos Hun).
    - exact (Flat_savetomapjson_unrecognized bin tiles Hc Hpos Hun). }
  split; [exact savetomapjson_no_turn|].
  split; [exact Split_savetomapjson_coords|].
  split; [exact Flat_savetomapjson_coords|].
  split; [exact Split_loop_coords | exact Flat_loop_coords].
Qed.

Lemma savetomapjson_map_size_witness :
  (Split.savetomapjson_bin one_tile_blob = Throw TypeError /\
   throws (Flat.savetomapjson_bin one_tile_blob)) /\
  (exists t,
      Split.loop 1 sample_record 2280 61 0 [] = Ok [t] /\
      Split.x t = 1 /\ Split.y t = 1) /\
  (exists t,
      Flat.loop 1 sample_record 2280 61 0 [] = Ok [t] /\
      Flat.x t = 1 /\ Flat.y t = 1).
Proof.
  destruct savetomapjson_map_size
    as (_ & _ & Hfail & _ & _ & _ & HSplit & HFlat).
  split; [|split].
  - apply (Hfail one_tile_blob 1).
    + vm_compute. reflexivity.
    + lia.
    + vm_compute. intuition discriminate.
  - eexists. split; [vm_compute; reflexivity|].
    eapply (HSplit 1%nat sample_record 2280 60 38 61 0 _ 0%nat).
    + reflexivity.
    + vm_compute. reflexivity.
    + reflexivity.
  - eexists. split; [vm_compute; reflexivity|].
    eapply (HFlat 1%nat sample_record 2280 60 38 61 0 _ 0%nat).
    + reflexivity.
    + vm_compute. reflexivity.
    + reflexivity.
Defined.

(** C7, as stated, fails: a tile count of zero is not a recognized key, and
    [savetomapjson] returns an empty tile list for it; and [modifytiles]
    walks a table of one tile, which no map size has, without complaint. *)
Lemma unrecognized_tile_count_accepted :
  (tile_count zero_count_blob = Ok 0 /\ ~ recognized 0 /\
   Split.savetomapjson_bin zero_count_blob = Ok {| Split.tiles := [] |} /\
   Flat.savetomapjson_bin zero_count_blob = Ok {| Flat.tiles := [] |}) /\
  (tile_count one_tile_blob = Ok 1 /\ ~ recognized 1 /\
   modifytiles_bin (fun b => b) one_tile_blob = Ok one_tile_blob).
Proof.
  repeat split; try (vm_compute; reflexivity);
    vm_compute; intuition discriminate.
Qed.

(** * [modifytiles] *)

Lemma modifytiles_turn_inv (callback : Buffer.t -> Buffer.t)
    (bin : Buffer.t) (mindex : Z) (bin' : Buffer.t) (m' : Z) :
  modifytiles_turn callback bin mindex = Ok (bin', m') ->
  let buflength :=
    modifytiles_buflength (Buffer.get bin (mindex + 49))
      (Buffer.le32 bin (mindex + 51)) in
  mindex + 55 <= Buffer.length bin /\
  bin' = Buffer.copy
           (callback (Buffer.slice bin mindex (mindex + 55 + buflength)))
           bin mindex /\
  m' = mindex + 55 + buflength.
Proof.
  intros H. unfold modifytiles_turn in H. cbv zeta in H. bind_ok H.
  apply readUInt8_ok in E. destruct E as (_ & _ & ->).
  apply readUInt32LE_ok in E0. destruct E0 as (_ & E1 & ->).
  injection H as <- <-. cbv zeta. split; [lia|]. split; reflexivity.
Qed.

Lemma modifytiles_turn_throws (callback : Buffer.t -> Buffer.t)
    (bin : Buffer.t) (mindex : Z) (e : js_error) :
  modifytiles_turn callback bin mindex = Throw e -> e = RangeError.
Proof.
  unfold modifytiles_turn, Buffer.readUInt8, Buffer.readUInt32LE.
  destruct (Buffer.in_range bin (mindex + 49) 1); cbn [bind];
    [|intros [= <-]; reflexivity].
  destruct (Buffer.in_range bin (mindex + 51) 4); cbn [bind];
    [discriminate | intros [= <-]; reflexivity].
Qed.

(** the pass either stops on a read outside the blob or returns a blob of
    the same length, whatever the callback returns *)
Lemma modifytiles_loop_outcome (callback : Buffer.t -> Buffer.t) (n : nat) :
  forall (bin : Buffer.t) (mindex : Z),
    modifytiles_loop callback n bin mindex = Throw RangeError \/
    exists bin', modifytiles_loop callback n bin mindex = Ok bin' /\
                 Buffer.length bin' = Buffer.length bin.
Proof.
  induction n as [|n IH]; intros bin mindex; cbn [modifytiles_loop].
  - right. exists bin. split; reflexivity.
  - destruct (modifytiles_turn callback bin mindex) as [[bin1 m1]|e] eqn:E;
      cbn [bind fst snd].
    + apply modifytiles_turn_inv in E. cbv zeta in E.
      destruct E as (_ & -> & _).
      destruct (IH (Buffer.copy
                      (callback (Buffer.slice bin mindex
                         (mindex + 55 + modifytiles_buflength
                            (Buffer.get bin (mindex + 49))
                            (Buffer.le32 bin (mindex + 51)))))
                      bin mindex) m1) as [H|(bin' & H & Hlen)].
      * left. exact H.
      * right. exists bin'. split; [exact H|].
        rewrite Hlen. apply copy_length.
    + left. apply modifytiles_turn_throws in E. subst. reflexivity.
Qed.

Lemma modifytiles_bin_outcome (callback : Buffer.t -> Buffer.t)
    (bin : Buffer.t) :
  modifytiles_bin callback bin = Throw RangeError \/
  exists bin', modifytiles_bin callback bin = Ok bin' /\
               Buffer.length bin' = Buffer.length bin.
Proof.
  unfold modifytiles_bin, Buffer.readInt32LE. cbv zeta.
  destruct (Buffer.in_range bin _ 4); cbn [bind];
    [apply modifytiles_loop_outcome | left; reflexivity].
Qed.

(** what [copy] leaves in the target: the bytes before [targetStart] as they
    were, then the source, cut where the target ends *)
Lemma copy_written (source target : Buffer.t) (targetStart : Z) :
  0 <= targetStart -> targetStart <= Buffer.length target ->
  Buffer.slice (Buffer.copy source target targetStart) 0 targetStart
  = Buffer.slice target 0 targetStart /\
  Buffer.slice (Buffer.copy source target targetStart) targetStart
    (targetStart + Buffer.length source)
  = firstn (Z.to_nat (Buffer.length target - targetStart)) source.
Proof.
  intros H0 H1. unfold Buffer.copy.
  set (n := Z.to_nat targetStart).
  set (room := (List.length target - n)%nat).
  assert (Hn : Buffer.length (firstn n target) = targetStart).
  { unfold n. rewrite length_firstn_Z by lia. lia. }
  assert (Hroom : Z.to_nat (Buffer.length target - targetStart) = room).
  { unfold room, n, Buffer.length. lia. }
  split.
  - rewrite !slice_at_0 by lia. rewrite take_app_le by lia.
    unfold n. rewrite firstn_firstn, Nat.min_id. reflexivity.
  - rewrite Hroom. rewrite <- Hn at 1 2. rewrite slice_app_at
      by apply length_nonneg.
    destruct (Nat.le_gt_cases (List.length source) room) as [Hle|Hgt].
    + rewrite (firstn_all2 source) by exact Hle.
      rewrite take_app_le by lia. apply take_all. lia.
    + rewrite skipn_all2
        by (rewrite List.length_firstn; unfold room in *; lia).
      rewrite app_nil_r. apply take_all.
      unfold Buffer.length. rewrite List.length_firstn. lia.
Qed.

(** C4 (amended): [modifytiles] makes no check of the length of what the
    callback returns. The returned bytes are copied into the blob from the
    record's offset on, cut where the blob ends, the bytes before stay as
    they were, and the cursor moves on by the length computed from the
    record's own flag bytes. The blob keeps its length; the pass as a whole
    either returns such a blob or fails with the [RangeError] of a read
    outside the blob. *)
Theorem modifytiles_no_length_check (callback : Buffer.t -> Buffer.t)
    (bin : Buffer.t) :
  (forall mindex bin' m',
      0 <= mindex ->
      modifytiles_turn callback bin mindex = Ok (bin', m') ->
      let buflength :=
        modifytiles_buflength (Buffer.get bin (mindex + 49))
          (Buffer.le32 bin (mindex + 51)) in
      let tilebuf := Buffer.slice bin mindex (mindex + 55 + buflength) in
      let newtilebuf := callback tilebuf in
      Buffer.slice bin' 0 mindex = Buffer.slice bin 0 mindex /\
      Buffer.slice bin' mindex (mindex + Buffer.length newtilebuf)
      = firstn (Z.to_nat (Buffer.length bin - mindex)) newtilebuf /\
      Buffer.length bin' = Buffer.length bin /\
      m' = mindex + 55 + buflength) /\
  (modifytiles_bin callback bin = Throw RangeError \/
   exists bin', modifytiles_bin callback bin = Ok bin' /\
                Buffer.length bin' = Buffer.length bin).
Proof.
  split; [|apply modifytiles_bin_outcome].
  intros mindex bin' m' H0 H. apply modifytiles_turn_inv in H. cbv zeta in *.
  destruct H as (H55 & -> & ->).
  destruct (copy_written
              (callback (Buffer.slice bin mindex
                 (mindex + 55 + modifytiles_buflength
                    (Buffer.get bin (mindex + 49))
                    (Buffer.le32 bin (mindex + 51)))))
              bin mindex) as [A B]; [lia..|].
  split; [exact A|]. split; [exact B|]. split; [apply copy_length|reflexivity].
Qed.

Lemma modifytiles_no_length_check_witness :
  exists bin',
    modifytiles_turn (fun _ => [xff; xff]) record_with_C 0 = Ok (bin', 79) /\
    Buffer.slice bin' 0 2 = [xff; xff] /\
    Buffer.length bin' = Buffer.length record_with_C.
Proof.
  eexists. split; [vm_compute; reflexivity|].
  match goal with
  | |- Buffer.slice ?b _ _ = _ /\ _ =>
      destruct (proj1 (modifytiles_no_length_check (fun _ => [xff; xff])
                         record_with_C) 0 b 79) as (_ & B & C & _)
  end.
  - lia.
  - vm_compute. reflexivity.
  - split; [exact B | exact C].
Defined.

(** C4, as stated, fails: a callback that returns one byte for a 55-byte
    record is not refused; the byte is written over the record's first byte
    and the pass succeeds. *)
Lemma shorter_result_is_written_back :
  modifytiles_bin (fun _ => [xff]) one_tile_blob
  = Ok (searchBuffer ++ [x01; x00; x00; x00] ++ [xff] ++ repeat x11 54).
Proof. vm_compute. reflexivity. Qed.

(** ** A blob without the table marker *)

(** C6 (amended): when the blob does not contain the table marker,
    [indexOf] answers [-1] and nothing checks it: the tile count is read at
    offset 11 and the records are walked from offset 15, by [modifytiles]
    and by both revisions of [savetomapjson]. A blob shorter than 15 bytes
    fails, with the [RangeError] of that first read; no other failure is
    tied to the missing marker. *)
Theorem tile_table_without_marker (callback : Buffer.t -> Buffer.t)
    (bin : Buffer.t) :
  ~ contains searchBuffer bin ->
  Buffer.indexOf searchBuffer bin 0 = -1 /\
  tile_count bin = Buffer.readInt32LE bin 11 /\
  (Buffer.length bin < 15 ->
   modifytiles_bin callback bin = Throw RangeError /\
   Split.savetomapjson_bin bin = Throw RangeError /\
   Flat.savetomapjson_bin bin = Throw RangeError) /\
  (forall tiles,
      Buffer.readInt32LE bin 11 = Ok tiles ->
      modifytiles_bin callback bin
      = modifytiles_loop callback (Z.to_nat tiles) bin 15 /\
      Split.savetomapjson_bin bin
      = (ts <- Split.loop (Z.to_nat tiles) bin tiles 0 15 [] ;;
         Ok {| Split.tiles := ts |}) /\
      Flat.savetomapjson_bin bin
      = (ts <- Flat.loop (Z.to_nat tiles) bin tiles 0 15 [] ;;
         Ok {| Flat.tiles := ts |})).
Proof.
  intros H. apply indexOf_none in H. split; [exact H|].
  unfold tile_count, modifytiles_bin, Split.savetomapjson_bin,
    Flat.savetomapjson_bin.
  cbv zeta. rewrite H. change (-1 + 12) with 11. change (-1 + 16) with 15.
  split; [reflexivity|]. split.
  - intros Hshort. rewrite readInt32LE_short by lia. repeat split.
  - intros tiles Ht. rewrite Ht. repeat split.
Qed.

Lemma tile_table_without_marker_witness :
  modifytiles_bin (fun b => b) unmarked_blob
  = modifytiles_loop (fun b => b) (Z.to_nat 1) unmarked_blob 15 /\
  modifytiles_bin (fun b => b) [x00; x01; x02] = Throw RangeError.
Proof.
  split.
  - apply (tile_table_without_marker (fun b => b) unmarked_blob).
    + apply indexOf_none. vm_compute. reflexivity.
    + vm_compute. reflexivity.
  - apply (tile_table_without_marker (fun b => b) [x00; x01; x02]).
    + apply indexOf_none. vm_compute. reflexivity.
    + vm_compute. reflexivity.
Defined.

(** C6, as stated, fails: on a blob without the marker [modifytiles] takes
    the bytes from offset 15 for a tile and overwrites them with what the
    callback returns, and [savetomapjson], reading a count of zero at offset
    11, returns an empty tile list. *)
Lemma unmarked_blob_is_walked :
  ~ contains searchBuffer unmarked_blob /\
  modifytiles_bin (fun _ => repeat xff 55) unmarked_blob
  = Ok (repeat x00 11 ++ [x01; x00; x00; x00] ++ repeat xff 55) /\
  ~ contains searchBuffer (repeat x00 15) /\
  Split.savetomapjson_bin (repeat x00 15) = Ok {| Split.tiles := [] |}.
Proof.
  split; [apply indexOf_none; vm_compute; reflexivity|].
  split; [vm_compute; reflexivity|].
  split; [apply indexOf_none; vm_compute; reflexivity|].
  vm_compute. reflexivity.
Qed.

(** ** The record length [modifytiles] computes *)

(** C2: at a record that has sub-buffer C only ([flags4 = 02]), the data
    model gives the record 55 + 44 = 99 bytes; [modifytiles] takes 55 + 24 =
    79 bytes for it, hands those to the callback, and moves its cursor on
    by 79. *)
Lemma modifytiles_misses_subbuffer_C :
  spec_record_length record_with_C 0 = 99 /\
  Buffer.length record_with_C = 99 /\
  modifytiles_turn (fun b => b) record_with_C 0 = Ok (record_with_C, 79).
Proof. repeat split; vm_compute; reflexivity. Qed.

(** C10: the two computations of a record's length are not the same
    function of the header bytes. [modifytiles] adds 24 when the 32-bit
    word at offset 51 is not zero and 17 when the byte at offset 49 is at
    least 64, and nothing else; [savetomapjson] adds 24 on [flags4 & 1], 20
    on bit 0 of sub-buffer A's byte 20, 44 on [flags4 & 2] and 17 on
    [flags2 & 0x40]. They differ on a record with [flags4 = 02] (79 against
    99), on one with a nonzero byte after [flags4] (79 against 55), and on
    one with [flags2 = 80] (72 against 55). *)
Theorem tile_length_computations_differ :
  (exists (bin : Buffer.t) (mindex : Z) bin' m1 t m2,
      modifytiles_turn (fun b => b) bin mindex = Ok (bin', m1) /\
      Split.turn bin 1144 0 mindex = Ok (t, m2) /\
      m1 - mindex <> Split.tile_length t) /\
  (forall num2 num,
      modifytiles_buflength num2 num
      = (if num =? 0 then 0 else 24) + (if 64 <=? num2 then 17 else 0)) /\
  (exists bin' t m2,
      modifytiles_turn (fun b => b) record_with_C 0 = Ok (bin', 79) /\
      Split.turn record_with_C 1144 0 0 = Ok (t, m2) /\
      Split.tile_length t = 99) /\
  (exists bin' t m2,
      modifytiles_turn (fun b => b) record_with_flags5 0 = Ok (bin', 79) /\
      Split.turn record_with_flags5 1144 0 0 = Ok (t, m2) /\
      Split.tile_length t = 55) /\
  (exists bin' t m2,
      modifytiles_turn (fun b => b) record_with_flags2_bit7 0 = Ok (bin', 72) /\
      Split.turn record_with_flags2_bit7 1144 0 0 = Ok (t, m2) /\
      Split.tile_length t = 55).
Proof.
  split.
  { exists record_with_C, 0. do 4 eexists.
    split; [vm_compute; reflexivity|].
    split; [vm_compute; reflexivity|].
    vm_compute. discriminate. }
  split.
  { intros num2 num. unfold modifytiles_buflength, truthy.
    destruct (num =? 0), (64 <=? num2); reflexivity. }
  repeat split; do 3 eexists;
    (split; [vm_compute; reflexivity|]);
    (split; [vm_compute; reflexivity|]); vm_compute; reflexivity.
Qed.

(** * File names: [verifyextension] *)

Lemma substring_all (s : string) : substring 0 (String.length s) s = s.
Proof.
  induction s as [|c s IH]; [reflexivity|].
  cbn [String.length substring]. now rewrite IH.
Qed.

Lemma substring_app_right (p e : string) :
  substring (String.length p) (String.length e) (p ++ e)%string = e.
Proof.
  induction p as [|c p IH]; cbn [String.length append].
  - apply substring_all.
  - cbn [substring]. exact IH.
Qed.

Lemma substring_split (s : string) :
  forall n, (n <= String.length s)%nat ->
    (substring 0 n s ++ substring n (String.length s - n) s)%string = s.
Proof.
  induction s as [|c s IH]; intros [|n] Hn; cbn [String.length] in *.
  - reflexivity.
  - lia.
  - cbn [substring append Nat.sub]. now rewrite substring_all.
  - cbn [substring append Nat.sub]. rewrite IH by lia. reflexivity.
Qed.

Lemma substring_length (s : string) :
  forall n m,
    String.length (substring n m s) = Nat.min m (String.length s - n).
Proof.
  induction s as [|c s IH]; intros [|n] [|m]; cbn [String.length substring Nat.sub];
    try reflexivity.
  - rewrite IH. rewrite Nat.sub_0_r. reflexivity.
  - rewrite IH. reflexivity.
  - rewrite IH. reflexivity.
Qed.

Lemma length_append (a b : string) :
  String.length (a ++ b)%string = (String.length a + String.length b)%nat.
Proof. induction a as [|c a IH]; cbn; [reflexivity | now rewrite IH]. Qed.

(** [filename.slice(-9)] is the last nine code units, or the whole of a
    shorter string *)
Lemma slice_last9_length (s : string) :
  String.length (JsString.slice_from s (-9)) = Nat.min 9 (String.length s).
Proof.
  unfold JsString.slice_from. cbv zeta.
  replace (-9 <? 0) with true by reflexivity. cbv iota.
  rewrite substring_length. lia.
Qed.

Lemma slice_last9_short (s : string) :
  (String.length s <= 9)%nat -> JsString.slice_from s (-9) = s.
Proof.
  intro H. unfold JsString.slice_from. cbv zeta.
  replace (-9 <? 0) with true by reflexivity. cbv iota.
  replace (Z.max (Z.of_nat (String.length s) + -9) 0) with 0 by lia.
  rewrite Z.sub_0_r, Nat2Z.id. apply substring_all.
Qed.

Lemma slice_last9_suffix (s : string) :
  ends_with (JsString.slice_from s (-9)) s.
Proof.
  unfold JsString.slice_from. cbv zeta.
  replace (-9 <? 0) with true by reflexivity. cbv iota.
  set (from := Z.to_nat (Z.max (Z.of_nat (String.length s) + -9) 0)).
  replace (Z.to_nat (Z.of_nat (String.length s)
                     - Z.max (Z.of_nat (String.length s) + -9) 0))
    with (String.length s - from)%nat by (subst from; lia).
  exists (substring 0 from s). symmetry. apply substring_split.
  subst from. lia.
Qed.

Lemma slice_last9_app (p e : string) :
  String.length e = 9%nat -> JsString.slice_from (p ++ e) (-9) = e.
Proof.
  intro H. unfold JsString.slice_from. cbv zeta.
  replace (-9 <? 0) with true by reflexivity. cbv iota.
  rewrite length_append, H.
  replace (Z.to_nat (Z.max (Z.of_nat (String.length p + 9) + -9) 0))
    with (String.length p) by lia.
  replace (Z.to_nat (Z.of_nat (String.length p + 9)
                     - Z.max (Z.of_nat (String.length p + 9) + -9) 0))
    with (String.length e) by lia.
  apply substring_app_right.
Qed.

Lemma verifyextension_cases (filename extension : string) :
  (JsString.slice_from filename (-9) = extension /\
   verifyextension filename extension = filename) \/
  (JsString.slice_from filename (-9) <> extension /\
   verifyextension filename extension = (filename ++ extension)%string).
Proof.
  unfold verifyextension.
  destruct (String.eqb_spec (JsString.slice_from filename (-9)) extension)
    as [E|E]; cbn [negb]; [left | right]; split; auto.
Qed.

(** X1. Whatever the file name and the extension, the name
    [verifyextension] returns ends with the extension. *)
Theorem verifyextension_ends_with_extension (filename extension : string) :
  ends_with extension (verifyextension filename extension).
Proof.
  destruct (verifyextension_cases filename extension) as [[E ->]|[_ ->]].
  - rewrite <- E. apply slice_last9_suffix.
  - exists filename. reflexivity.
Qed.

(** X2. For an extension of nine characters (such as the default
    [.Civ6Save]) a name is returned unchanged exactly when it ends with the
    extension, and otherwise gets the extension appended; so applying
    [verifyextension] twice is the same as applying it once. *)
Theorem verifyextension_nine_characters (filename extension : string) :
  String.length extension = 9%nat ->
  (verifyextension filename extension = filename
   <-> ends_with extension filename) /\
  (~ ends_with extension filename ->
   verifyextension filename extension = (filename ++ extension)%string) /\
  verifyextension (verifyextension filename extension) extension
  = verifyextension filename extension.
Proof.
  intro H9.
  assert (Hiff : verifyextension filename extension = filename
                 <-> ends_with extension filename).
  { split.
    - intro E.
      destruct (verifyextension_cases filename extension) as [[E1 _]|[_ E2]].
      + rewrite <- E1. apply slice_last9_suffix.
      + exists filename. rewrite <- E2. symmetry. exact E.
    - intros [p ->].
      destruct (verifyextension_cases (p ++ extension) extension)
        as [[_ E]|[N _]]; [exact E|].
      exfalso. apply N. now apply slice_last9_app. }
  split; [exact Hiff|]. split.
  - intro N.
    destruct (verifyextension_cases filename extension) as [[_ E]|[_ E]];
      [|exact E].
    exfalso. apply N. now apply Hiff.
  - destruct (verifyextension_cases filename extension) as [[E1 E2]|[_ E2]];
      rewrite E2.
    + exact E2.
    + destruct (verifyextension_cases (filename ++ extension) extension)
        as [[_ E]|[N _]]; [exact E|].
      exfalso. apply N. now apply slice_last9_app.
Qed.

Lemma verifyextension_nine_characters_witness :
  verifyextension (verifyextension "game" default_extension) default_extension
  = "game.Civ6Save"%string /\
  verifyextension "game.Civ6Save" default_extension = "game.Civ6Save"%string.
Proof.
  destruct (verifyextension_nine_characters "game" default_extension eq_refl)
    as (_ & _ & I).
  destruct (verifyextension_nine_characters "game.Civ6Save" default_extension
              eq_refl) as (U & _ & _).
  split.
  - rewrite I. reflexivity.
  - apply U. exists "game"%string. reflexivity.
Defined.

(** X3. For an extension that is not nine characters long the comparison
    with the last nine characters can only succeed on the name that is the
    extension itself: every other name gets the extension appended, also a
    name that ends with it already. (The table script calls
    [verifyextension] with [.tsv].) *)
Theorem verifyextension_other_length (filename extension : string) :
  String.length extension <> 9%nat ->
  filename <> extension ->
  verifyextension filename extension = (filename ++ extension)%string.
Proof.
  intros H9 Hne.
  destruct (verifyextension_cases filename extension) as [[E _]|[_ E]];
    [|exact E].
  exfalso.
  pose proof (slice_last9_length filename) as L. rewrite E in L.
  assert (Hs : (String.length filename <= 9)%nat) by lia.
  apply Hne. rewrite <- E. symmetry. now apply slice_last9_short.
Qed.

Lemma verifyextension_other_length_witness :
  verifyextension "map.tsv" ".tsv" = "map.tsv.tsv"%string.
Proof.
  apply (verifyextension_other_length "map.tsv" ".tsv").
  - cbn. lia.
  - discriminate.
Defined.

(** * More on the container codec *)

(** cutting a byte run after its first [k] bytes *)
Lemma split_at (k : Z) (data : Buffer.t) :
  0 <= k -> k < Buffer.length data ->
  exists c r,
    data = c ++ r /\ Buffer.length c = k /\
    Buffer.length r = Buffer.length data - k.
Proof.
  intros Hk Hl.
  exists (firstn (Z.to_nat k) data), (skipn (Z.to_nat k) data).
  split; [symmetry; apply firstn_skipn|]. split.
  - rewrite length_firstn_Z by lia. lia.
  - rewrite length_skipn_Z by lia. lia.
Qed.

(** every byte run is unframed some way: the loop of [decompress] takes
    whatever it is given *)
Lemma unframes_total (n : nat) :
  forall data : Buffer.t,
    (List.length data <= n)%nat -> exists out, unframes data out.
Proof.
  assert (HC : 0 < chunkSize) by (unfold chunkSize; lia).
  induction n as [|n IH]; intros data Hn.
  - exists data. apply unframes_last. unfold Buffer.length. lia.
  - destruct (Z_le_gt_dec (Buffer.length data) chunkSize) as [Hs|Hl].
    + exists data. now apply unframes_last.
    + destruct (split_at chunkSize data) as (c & r & Hd & Hc & Hr);
        [lia|lia|].
      destruct (Z_le_gt_dec (Buffer.length r) 4) as [H4|H4].
      * exists c. rewrite Hd. now apply unframes_stray.
      * destruct (split_at 4 r) as (p & rest & Hr' & Hp & Hrest); [lia|lia|].
        destruct (IH rest) as [out Hout].
        { rewrite Hd, Hr', !List.length_app in Hn.
          unfold Buffer.length in *. lia. }
        exists (c ++ out). rewrite Hd, Hr'. now apply unframes_step.
Qed.

(** X4. The unframing loop of [decompress]: a span of at most 64 KiB goes
    to the inflater as it is (so does the span of such a save file); and
    after every full 64 KiB chunk four bytes are dropped, whatever they
    hold, the rest being unframed the same way. *)
Theorem decompress_unframing :
  (forall data : Buffer.t,
      Buffer.length data <= chunkSize -> compressedData data = data) /\
  (forall c p rest : Buffer.t,
      Buffer.length c = chunkSize -> Buffer.length p = 4 ->
      compressedData (c ++ p ++ rest) = c ++ compressedData rest) /\
  (forall (inflateSync : Buffer.t -> option Buffer.t) (savefile : Buffer.t),
      let data :=
        Buffer.slice savefile (bufstartindex savefile) (sync_index savefile) in
      Buffer.length data <= chunkSize ->
      decompress inflateSync savefile = inflate inflateSync data).
Proof.
  assert (A : forall data : Buffer.t,
             Buffer.length data <= chunkSize -> compressedData data = data).
  { intros data H. apply unframes_compressedData. now apply unframes_last. }
  split; [exact A|]. split.
  - intros c p rest Hc Hp.
    destruct (unframes_total (List.length rest) rest (le_n _)) as [out Hout].
    rewrite (unframes_compressedData _ _ Hout).
    apply unframes_compressedData. now apply unframes_step.
  - intros inflateSync savefile data H.
    rewrite decompress_eq. fold data. now rewrite A.
Qed.

Lemma decompress_unframing_witness :
  compressedData (full_chunk ++ [x0a; x00; x00; x00] ++ [x01; x02])
  = full_chunk ++ [x01; x02] /\
  decompress stored_inflateSync sample_save = Ok [x0a; x0b].
Proof.
  destruct decompress_unframing as (A & B & C). split.
  - rewrite (B full_chunk [x0a; x00; x00; x00] [x01; x02]).
    + rewrite (A [x01; x02]); [reflexivity|].
      apply Z.leb_le. vm_compute. reflexivity.
    + vm_compute. reflexivity.
    + reflexivity.
  - rewrite (C stored_inflateSync sample_save).
    + vm_compute. reflexivity.
    + apply Z.leb_le. vm_compute. reflexivity.
Defined.

(** the length of a framed stream: four bytes in front of every chunk *)
Lemma framed_rest_length_eq (D F : Buffer.t) :
  framed_rest D F ->
  Buffer.length F
  = Buffer.length D
    + 4 * ((Buffer.length D + CHUNK_LENGTH - 1) / CHUNK_LENGTH).
Proof.
  induction 1 as [|c D F Hc Hfull HDF IH].
  - reflexivity.
  - rewrite !length_app, writeInt32LE_length, IH.
    pose proof (length_nonneg D) as HD.
    destruct D as [|d D'].
    + change (Buffer.length []) with 0.
      replace ((0 + CHUNK_LENGTH - 1) / CHUNK_LENGTH) with 0
        by (symmetry; apply Z.div_small; unfold CHUNK_LENGTH; lia).
      replace ((Buffer.length c + 0 + CHUNK_LENGTH - 1) / CHUNK_LENGTH) with 1.
      * lia.
      * apply Z.div_unique with (r := Buffer.length c - 1).
        -- left. lia.
        -- lia.
    + rewrite Hfull by discriminate.
      replace (CHUNK_LENGTH + Buffer.length (d :: D') + CHUNK_LENGTH - 1)
        with (Buffer.length (d :: D') + CHUNK_LENGTH - 1 + 1 * CHUNK_LENGTH)
        by lia.
      rewrite Z.div_add by (unfold CHUNK_LENGTH; lia). lia.
Qed.

(** X5. The size of the framed stream [recompress] splices in: the deflate
    output plus four bytes for every 64 KiB chunk after the first. *)
Theorem finalBuffer_length (compressedBuffer : Buffer.t) :
  Buffer.length (finalBuffer compressedBuffer)
  = Buffer.length compressedBuffer
    + 4 * (Z.max 0 (Buffer.length compressedBuffer - 1) / CHUNK_LENGTH).
Proof.
  pose proof (finalBuffer_framed compressedBuffer) as H.
  inversion H as [|c D F Hc Hfull HDF]; subst.
  - reflexivity.
  - rewrite !length_app, (framed_rest_length_eq _ _ HDF).
    pose proof (length_nonneg D) as HD.
    destruct D as [|d D'].
    + change (Buffer.length []) with 0.
      replace ((0 + CHUNK_LENGTH - 1) / CHUNK_LENGTH) with 0
        by (symmetry; apply Z.div_small; unfold CHUNK_LENGTH; lia).
      replace (Z.max 0 (Buffer.length c + 0 - 1) / CHUNK_LENGTH) with 0.
      * lia.
      * symmetry. apply Z.div_small. lia.
    + rewrite Hfull by discriminate.
      replace (Z.max 0 (CHUNK_LENGTH + Buffer.length (d :: D') - 1))
        with (Buffer.length (d :: D') + CHUNK_LENGTH - 1) by lia.
      lia.
Qed.

(** X6. [recompress] does not check its boundary searches either. When the
    zlib start is not found (there is no [MOD_TITLE], or no [78 9c] after
    the last one), [slice(0, -1)] keeps all of the save file but its last
    byte in front of the new stream; when there is no sync-flush marker,
    the bytes of the save file from offset 3 on follow it. *)
Theorem recompress_unlocated (deflateSync : Buffer.t -> Buffer.t)
    (savefile binfile : Buffer.t) :
  (bufstartindex savefile = -1 ->
   recompress deflateSync savefile binfile
   = removelast savefile ++ finalBuffer (deflateSync binfile)
     ++ Buffer.slice_from savefile (sync_index savefile + 4)) /\
  (sync_index savefile = -1 ->
   recompress deflateSync savefile binfile
   = Buffer.slice savefile 0 (bufstartindex savefile)
     ++ finalBuffer (deflateSync binfile) ++ skipn 3 savefile).
Proof.
  split; intro H; rewrite recompress_eq; unfold Buffer.concat;
    cbn [List.concat]; rewrite app_nil_r, H.
  - f_equal. unfold Buffer.slice, Buffer.clamp.
    replace (0 <? 0) with false by reflexivity.
    replace (-1 <? 0) with true by reflexivity. cbv iota.
    pose proof (length_nonneg savefile) as Hl.
    replace (Z.min 0 (Buffer.length savefile)) with 0 by lia.
    cbn [Z.to_nat skipn]. rewrite removelast_firstn_len.
    f_equal. unfold Buffer.length. lia.
  - do 2 f_equal. apply (slice_from_inside savefile 3). lia.
Qed.

Lemma recompress_unlocated_witness :
  recompress stored_deflateSync sample_without_marker []
  = removelast sample_without_marker ++ finalBuffer (stored_deflateSync [])
    ++ [x07; x07] /\
  recompress stored_deflateSync [x01; x02; x03; x04; x05] []
  = [x01; x02; x03; x04] ++ finalBuffer (stored_deflateSync []) ++ [x04; x05].
Proof.
  split.
  - rewrite (proj1 (recompress_unlocated stored_deflateSync
                      sample_without_marker [])).
    + reflexivity.
    + vm_compute. reflexivity.
  - rewrite (proj2 (recompress_unlocated stored_deflateSync
                      [x01; x02; x03; x04; x05] [])).
    + reflexivity.
    + vm_compute. reflexivity.
Defined.

(** X7. [modify] composes [decompress], the callback and [recompress]: it
    fails exactly when [decompress] or the callback does, with that error;
    and on a save file whose markers are located, whatever the callback
    returns, the bytes before the zlib start and the bytes from 4 past the
    last sync-flush marker on are those of the save file. *)
Theorem modify_outside_span (deflateSync : Buffer.t -> Buffer.t)
    (inflateSync : Buffer.t -> option Buffer.t)
    (savefile : Buffer.t) (callback : Buffer.t -> result Buffer.t) :
  markers_located savefile ->
  let s := bufstartindex savefile in
  let e := sync_index savefile + 4 in
  (forall merged,
      modify deflateSync inflateSync savefile callback = Ok merged ->
      Buffer.slice merged 0 s = Buffer.slice savefile 0 s /\
      Buffer.slice_from merged
        (Buffer.length merged - (Buffer.length savefile - e))
      = Buffer.slice_from savefile e /\
      exists bin moddedbin,
        decompress inflateSync savefile = Ok bin /\
        callback bin = Ok moddedbin /\
        Buffer.slice merged s
          (Buffer.length merged - (Buffer.length savefile - e))
        = finalBuffer (deflateSync moddedbin)) /\
  (forall err,
      modify deflateSync inflateSync savefile callback = Throw err ->
      decompress inflateSync savefile = Throw err \/
      exists bin, decompress inflateSync savefile = Ok bin /\
                  callback bin = Throw err).
Proof.
  intros (_ & Hs & He) s e.
  destruct (bufstartindex_bound savefile) as [|[Hs0 Hs1]]; [contradiction|].
  destruct (sync_index_bound savefile) as [|[He0 He1]]; [contradiction|].
  fold s in Hs0, Hs1. fold e in He1.
  split.
  - intros merged H. unfold modify in H.
    apply bind_ok_inv in H. destruct H as (bin & Ebin & H). cbv beta in H.
    apply bind_ok_inv in H. destruct H as (moddedbin & Emod & H).
    cbv beta in H. injection H as H.
    rewrite (recompress_shape _ _ _ Hs) in H. fold s e in H.
    set (F := finalBuffer (deflateSync moddedbin)) in *.
    set (P := firstn (Z.to_nat s) savefile) in *.
    set (S := skipn (Z.to_nat e) savefile) in *.
    assert (HP : Buffer.length P = s).
    { subst P. rewrite length_firstn_Z by lia. lia. }
    assert (HS : Buffer.length S = Buffer.length savefile - e).
    { subst S. rewrite length_skipn_Z by lia. lia. }
    pose proof (length_nonneg F) as HF.
    assert (HL : Buffer.length merged = s + Buffer.length F + Buffer.length S)
      by (rewrite <- H, !length_app; lia).
    rewrite <- HS.
    replace (Buffer.length merged - Buffer.length S)
      with (s + Buffer.length F) by lia.
    assert (HPn : List.length P = Z.to_nat s)
      by (unfold Buffer.length in HP; lia).
    split; [|split].
    + rewrite !slice_at_0 by lia. fold P. rewrite <- H.
      rewrite firstn_app, <- HPn, Nat.sub_diag, firstn_all. cbn [firstn].
      apply app_nil_r.
    + rewrite !slice_from_inside by lia. fold S. rewrite <- H.
      replace (s + Buffer.length F) with (Buffer.length (P ++ F))
        by (rewrite length_app; lia).
      rewrite app_assoc. apply skipn_length_app.
    + exists bin, moddedbin. split; [exact Ebin|]. split; [exact Emod|].
      rewrite <- H, <- HP.
      rewrite (slice_app_at P (F ++ S) (Buffer.length F) HF).
      rewrite firstn_app.
      replace (Z.to_nat (Buffer.length F)) with (List.length F)
        by (unfold Buffer.length; lia).
      rewrite Nat.sub_diag, firstn_all. cbn [firstn]. apply app_nil_r.
  - intros err H. unfold modify in H.
    destruct (decompress inflateSync savefile) as [bin|e1]; cbn [bind] in H.
    + right. exists bin. split; [reflexivity|].
      destruct (callback bin) as [m|e2]; cbn [bind] in H; congruence.
    + left. congruence.
Qed.

Lemma modify_outside_span_witness :
  exists merged,
    modify stored_deflateSync stored_inflateSync sample_save
      (fun bin => Ok (bin ++ [x0c])) = Ok merged /\
    Buffer.slice merged 0 (bufstartindex sample_save)
    = Buffer.slice sample_save 0 (bufstartindex sample_save) /\
    Buffer.slice_from merged
      (Buffer.length merged
       - (Buffer.length sample_save - (sync_index sample_save + 4)))
    = [x07; x07].
Proof.
  eexists. split; [vm_compute; reflexivity|].
  assert (M : markers_located sample_save)
    by (repeat split; vm_compute; discriminate).
  match goal with
  | |- Buffer.slice ?m _ _ = _ /\ _ =>
      destruct (proj1 (modify_outside_span stored_deflateSync
                         stored_inflateSync sample_save
                         (fun bin => Ok (bin ++ [x0c])) M) m)
        as (A & B & _)
  end.
  - vm_compute. reflexivity.
  - split; [exact A|]. rewrite B. vm_compute. reflexivity.
Defined.

(** * Where [decompress] and [recompress] find the stream *)

Lemma search_last_spec (pat l : Buffer.t) :
  forall pos, 0 <= pos ->
    Buffer.search_last pat l pos <> -1 ->
    pos <= Buffer.search_last pat l pos /\
    Buffer.starts_with pat
      (skipn (Z.to_nat (Buffer.search_last pat l pos - pos)) l) = true /\
    forall k, (k <= List.length l)%nat ->
      Buffer.starts_with pat (skipn k l) = true ->
      pos + Z.of_nat k <= Buffer.search_last pat l pos.
Proof.
  induction l as [|x l IH]; intros pos Hpos; cbn [Buffer.search_last].
  - destruct (Buffer.starts_with pat []) eqn:E; [|congruence].
    intros _. rewrite Z.sub_diag. split; [lia|]. split; [exact E|].
    intros k Hk _. cbn [List.length] in Hk. lia.
  - specialize (IH (pos + 1) ltac:(lia)).
    destruct (Z.eqb_spec (Buffer.search_last pat l (pos + 1)) (-1)) as [Hr|Hr].
    + destruct (Buffer.starts_with pat (x :: l)) eqn:E; [|congruence].
      intros _. rewrite Z.sub_diag. split; [lia|]. split; [exact E|].
      intros [|k] Hk Hocc; [lia|]. cbn [skipn] in Hocc.
      pose proof (proj1 (search_last_none pat l (pos + 1) ltac:(lia)) Hr)
        as Hnone.
      rewrite Hnone in Hocc. discriminate Hocc.
    + intros _. destruct (IH Hr) as (Hge & Hocc & Hmax).
      split; [lia|]. split.
      * replace (Z.to_nat (Buffer.search_last pat l (pos + 1) - pos))
          with (S (Z.to_nat (Buffer.search_last pat l (pos + 1) - (pos + 1))))
          by lia.
        exact Hocc.
      * intros [|k] Hk Ho; [lia|]. cbn [skipn List.length] in Ho, Hk.
        specialize (Hmax k ltac:(lia) Ho). lia.
Qed.

Lemma search_first_spec (pat l : Buffer.t) :
  forall pos, 0 <= pos ->
    Buffer.search_first pat l pos <> -1 ->
    pos <= Buffer.search_first pat l pos /\
    Buffer.starts_with pat
      (skipn (Z.to_nat (Buffer.search_first pat l pos - pos)) l) = true /\
    forall k, Buffer.starts_with pat (skipn k l) = true ->
      Buffer.search_first pat l pos <= pos + Z.of_nat k.
Proof.
  induction l as [|x l IH]; intros pos Hpos; cbn [Buffer.search_first].
  - destruct (Buffer.starts_with pat []) eqn:E; [|congruence].
    intros _. rewrite Z.sub_diag. split; [lia|]. split; [exact E|].
    intros k _. lia.
  - destruct (Buffer.starts_with pat (x :: l)) eqn:E.
    + intros _. rewrite Z.sub_diag. split; [lia|]. split; [exact E|].
      intros k _. lia.
    + intros Hr. destruct (IH (pos + 1) ltac:(lia) Hr) as (Hge & Hocc & Hmin).
      split; [lia|]. split.
      * replace (Z.to_nat (Buffer.search_first pat l (pos + 1) - pos))
          with (S (Z.to_nat (Buffer.search_first pat l (pos + 1) - (pos + 1))))
          by lia.
        exact Hocc.
      * intros [|k] Ho; [cbn [skipn] in Ho; congruence|].
        cbn [skipn] in Ho. specialize (Hmin k Ho). lia.
Qed.

Lemma occurs_at_inside (pat b : Buffer.t) (p : Z) :
  occurs_at pat b p -> pat <> [] -> p < Buffer.length b.
Proof.
  intros [H0 H] Hne.
  destruct (Z_lt_ge_dec p (Buffer.length b)) as [|Hge]; [assumption|].
  exfalso. rewrite skipn_all2 in H by (unfold Buffer.length in Hge; lia).
  destruct pat; [contradiction | discriminate H].
Qed.

Lemma lastIndexOf_spec (pat b : Buffer.t) :
  pat <> [] -> Buffer.lastIndexOf pat b <> -1 ->
  occurs_at pat b (Buffer.lastIndexOf pat b) /\
  forall p, occurs_at pat b p -> p <= Buffer.lastIndexOf pat b.
Proof.
  intros Hne H. unfold Buffer.lastIndexOf in *.
  destruct (search_last_spec pat b 0 ltac:(lia) H) as (Hge & Hocc & Hmax).
  rewrite Z.sub_0_r in Hocc. split; [split; assumption|].
  intros p Hp. pose proof (occurs_at_inside _ _ _ Hp Hne) as Hin.
  destruct Hp as [Hp0 Hp].
  specialize (Hmax (Z.to_nat p) ltac:(unfold Buffer.length in Hin; lia) Hp).
  lia.
Qed.

Lemma indexOf_spec (pat b : Buffer.t) (from : Z) :
  0 <= from -> Buffer.indexOf pat b from <> -1 ->
  from <= Buffer.indexOf pat b from /\
  occurs_at pat b (Buffer.indexOf pat b from) /\
  forall p, from <= p -> occurs_at pat b p -> Buffer.indexOf pat b from <= p.
Proof.
  intros Hfrom. unfold Buffer.indexOf.
  destruct (Z.ltb_spec from 0) as [|_]; [lia|]. cbv zeta.
  destruct (from + Buffer.length pat <=? Buffer.length b); [|congruence].
  intro H.
  destruct (search_first_spec pat (skipn (Z.to_nat from) b) from Hfrom H)
    as (Hge & Hocc & Hmin).
  set (r := Buffer.search_first pat (skipn (Z.to_nat from) b) from) in *.
  clearbody r.
  split; [exact Hge|]. split.
  - split; [lia|]. rewrite skipn_skipn in Hocc.
    replace (Z.to_nat r) with (Z.to_nat (r - from) + Z.to_nat from)%nat by lia.
    exact Hocc.
  - intros p Hp [_ Ho].
    specialize (Hmin (Z.to_nat (p - from))).
    rewrite skipn_skipn in Hmin.
    replace (Z.to_nat (p - from) + Z.to_nat from)%nat with (Z.to_nat p)
      in Hmin by lia.
    specialize (Hmin Ho). lia.
Qed.

(** X23. The boundary rule, as [decompress] and [recompress] apply it:
    on a save file whose three markers are found, the start of the stream
    is the first [78 9c] at or after the last [MOD_TITLE], and its end is
    the last [00 00 ff ff] of the whole file, wherever that lies. *)
Theorem boundaries_follow_the_rule (savefile : Buffer.t) :
  markers_located savefile ->
  (occurs_at MOD_TITLE savefile (modindex savefile) /\
   forall p, occurs_at MOD_TITLE savefile p -> p <= modindex savefile) /\
  (modindex savefile <= bufstartindex savefile /\
   occurs_at zlib_start savefile (bufstartindex savefile) /\
   forall p, modindex savefile <= p -> occurs_at zlib_start savefile p ->
             bufstartindex savefile <= p) /\
  (occurs_at sync_flush savefile (sync_index savefile) /\
   forall p, occurs_at sync_flush savefile p -> p <= sync_index savefile).
Proof.
  intros (Hm & Hs & He).
  split; [|split].
  - apply lastIndexOf_spec; [discriminate | exact Hm].
  - apply indexOf_spec; [|exact Hs].
    unfold modindex in *.
    destruct (lastIndexOf_bound MOD_TITLE savefile) as [|[H0 _]];
      [contradiction | exact H0].
  - apply lastIndexOf_spec; [discriminate | exact He].
Qed.

Lemma boundaries_follow_the_rule_witness :
  modindex sample_save <= bufstartindex sample_save /\
  occurs_at zlib_start sample_save (bufstartindex sample_save) /\
  occurs_at sync_flush sample_save (sync_index sample_save).
Proof.
  assert (M : markers_located sample_save)
    by (repeat split; vm_compute; discriminate).
  destruct (boundaries_follow_the_rule sample_save M)
    as (_ & (A & B & _) & (C & _)).
  repeat split; assumption.
Defined.

(** * More on [modifytiles] *)

Lemma modifytiles_buflength_range (num2 num : Z) :
  0 <= modifytiles_buflength num2 num <= 41.
Proof.
  unfold modifytiles_buflength.
  destruct (truthy num), (64 <=? num2); lia.
Qed.

Lemma firstn_skipn_length (k : nat) (l : Buffer.t) :
  firstn k l ++ skipn (List.length (firstn k l)) l = l.
Proof.
  destruct (Nat.le_gt_cases k (List.length l)) as [H|H].
  - rewrite List.length_firstn, Nat.min_l by exact H. apply firstn_skipn.
  - rewrite firstn_all2 by lia. rewrite skipn_all. apply app_nil_r.
Qed.

(** writing a slice of the blob back where it was taken from changes
    nothing *)
Lemma copy_self (bin : Buffer.t) (m e : Z) :
  0 <= m -> m <= Buffer.length bin ->
  Buffer.copy (Buffer.slice bin m e) bin m = bin.
Proof.
  intros H0 H1.
  assert (Hc : Buffer.clamp bin m = m).
  { unfold Buffer.clamp. destruct (Z.ltb_spec m 0) as [|_]; lia. }
  unfold Buffer.slice. cbv zeta. rewrite Hc.
  set (k := Z.to_nat (Buffer.clamp bin e - m)).
  set (X := skipn (Z.to_nat m) bin).
  unfold Buffer.copy. cbv zeta.
  assert (HX : (List.length bin - Z.to_nat m)%nat = List.length X)
    by (subst X; rewrite List.length_skipn; reflexivity).
  rewrite HX.
  assert (E1 : firstn (List.length X) (firstn k X) = firstn k X)
    by (apply firstn_all2; rewrite List.length_firstn; lia).
  rewrite E1.
  rewrite Nat.add_comm, <- skipn_skipn. fold X.
  rewrite firstn_skipn_length. subst X. apply firstn_skipn.
Qed.

(** what a write-back leaves alone behind the bytes it writes *)
Lemma copy_skipn (source target : Buffer.t) (m m' : Z) :
  0 <= m -> m + Buffer.length source <= m' ->
  skipn (Z.to_nat m') (Buffer.copy source target m)
  = skipn (Z.to_nat m') target.
Proof.
  intros H0 H1. unfold Buffer.copy. cbv zeta.
  set (n := Z.to_nat m).
  set (w := firstn (List.length target - n) source).
  assert (Hw : (List.length w <= List.length source)%nat)
    by (subst w; rewrite List.length_firstn; lia).
  destruct (Nat.le_gt_cases n (List.length target)) as [Hn|Hn].
  - rewrite app_assoc.
    assert (HL : List.length (firstn n target ++ w) = (n + List.length w)%nat).
    { rewrite List.length_app, List.length_firstn. lia. }
    rewrite skipn_app, HL.
    assert (E1 : skipn (Z.to_nat m') (firstn n target ++ w) = [])
      by (apply skipn_all2; rewrite HL; unfold Buffer.length in H1;
          subst n; lia).
    rewrite E1. cbn [app]. rewrite skipn_skipn. f_equal.
    unfold Buffer.length in H1. subst n. lia.
  - assert (Ew : w = []).
    { subst w. replace (List.length target - n)%nat with 0%nat by lia.
      reflexivity. }
    rewrite Ew. cbn [app List.length]. rewrite Nat.add_0_r.
    rewrite firstn_all2 by lia.
    assert (E1 : skipn n target = []) by (apply skipn_all2; lia).
    rewrite E1. now rewrite app_nil_r.
Qed.

Lemma copy_firstn (source target : Buffer.t) (m : Z) :
  0 <= m -> m <= Buffer.length target ->
  firstn (Z.to_nat m) (Buffer.copy source target m)
  = firstn (Z.to_nat m) target.
Proof.
  intros H0 H1. unfold Buffer.copy. cbv zeta.
  rewrite firstn_app.
  rewrite List.length_firstn.
  replace (Z.to_nat m - Nat.min (Z.to_nat m) (List.length target))%nat
    with 0%nat by (unfold Buffer.length in H1; lia).
  cbn [firstn]. rewrite app_nil_r, firstn_firstn, Nat.min_id. reflexivity.
Qed.

(** the per-turn facts used below, for a cursor inside the blob *)
Lemma modifytiles_turn_step (callback : Buffer.t -> Buffer.t)
    (bin : Buffer.t) (mindex : Z) (bin' : Buffer.t) (m' : Z) :
  0 <= mindex ->
  modifytiles_turn callback bin mindex = Ok (bin', m') ->
  mindex + 55 <= m' /\ mindex + 55 <= Buffer.length bin /\
  Buffer.length bin' = Buffer.length bin /\
  firstn (Z.to_nat mindex) bin' = firstn (Z.to_nat mindex) bin.
Proof.
  intros H0 H. apply modifytiles_turn_inv in H. cbv zeta in H.
  destruct H as (Hin & -> & ->).
  pose proof (modifytiles_buflength_range (Buffer.get bin (mindex + 49))
                (Buffer.le32 bin (mindex + 51))) as Hb.
  split; [lia|]. split; [exact Hin|]. split.
  - apply copy_length.
  - apply copy_firstn; lia.
Qed.

Lemma firstn_le_eq (a b : nat) (l1 l2 : Buffer.t) :
  (a <= b)%nat -> firstn b l1 = firstn b l2 -> firstn a l1 = firstn a l2.
Proof.
  intros Hab H.
  rewrite <- (Nat.min_l a b Hab), <- !firstn_firstn, H. reflexivity.
Qed.

(** the pass keeps the length of the blob and every byte before the cursor
    it starts from, and needs room for a 55-byte header per turn *)
Lemma modifytiles_loop_frame (callback : Buffer.t -> Buffer.t) (n : nat) :
  forall (bin : Buffer.t) (mindex : Z) (bin' : Buffer.t),
    0 <= mindex ->
    modifytiles_loop callback n bin mindex = Ok bin' ->
    Buffer.length bin' = Buffer.length bin /\
    firstn (Z.to_nat mindex) bin' = firstn (Z.to_nat mindex) bin /\
    ((0 < n)%nat -> mindex + 55 * Z.of_nat n <= Buffer.length bin).
Proof.
  induction n as [|n IH]; intros bin mindex bin' H0 H;
    cbn [modifytiles_loop] in H.
  - injection H as <-. repeat split; lia.
  - apply bind_ok_inv in H. destruct H as ([bin1 m1] & E & H).
    cbn [fst snd] in H.
    apply modifytiles_turn_step in E; [|exact H0].
    destruct E as (Hm & Hin & Hlen & Hpre).
    apply IH in H; [|lia]. destruct H as (Hlen' & Hpre' & Hroom).
    split; [congruence|]. split.
    + rewrite <- Hpre. apply (firstn_le_eq _ (Z.to_nat m1)); [lia|exact Hpre'].
    + intros _. destruct n as [|n']; [lia|].
      specialize (Hroom ltac:(lia)). lia.
Qed.

Lemma table_start_nonneg (bin : Buffer.t) :
  15 <= Buffer.indexOf searchBuffer bin 0 + 16.
Proof. destruct (indexOf_bound searchBuffer bin 0) as [->|[H _]]; lia. Qed.

(** X8. With the default callback [b => b] the pass over the tile table
    changes nothing: whenever it returns, it returns the blob it was given;
    so [modifytiles] then answers what [modify] answers with its default
    callback. *)
Theorem modifytiles_default_callback :
  (forall bin bin' : Buffer.t,
      modifytiles_bin (fun b => b) bin = Ok bin' -> bin' = bin) /\
  (forall (deflateSync : Buffer.t -> Buffer.t)
          (inflateSync : Buffer.t -> option Buffer.t)
          (savefile merged : Buffer.t),
      modifytiles deflateSync inflateSync savefile (fun b => b) = Ok merged ->
      modify deflateSync inflateSync savefile (fun x => Ok x) = Ok merged).
Proof.
  assert (L : forall n bin mindex bin',
             0 <= mindex ->
             modifytiles_loop (fun b => b) n bin mindex = Ok bin' ->
             bin' = bin).
  { induction n as [|n IH]; intros bin mindex bin' H0 H;
      cbn [modifytiles_loop] in H.
    - now injection H as <-.
    - apply bind_ok_inv in H. destruct H as ([bin1 m1] & E & H).
      cbn [fst snd] in H.
      pose proof (modifytiles_turn_step _ _ _ _ _ H0 E) as (Hm & _).
      apply modifytiles_turn_inv in E. cbv zeta in E.
      destruct E as (Hin & E & _).
      rewrite copy_self in E by lia. subst bin1.
      apply (IH bin m1); [lia | exact H]. }
  assert (A : forall bin bin' : Buffer.t,
             modifytiles_bin (fun b => b) bin = Ok bin' -> bin' = bin).
  { intros bin bin' H. unfold modifytiles_bin in H. cbv zeta in H.
    apply bind_ok_inv in H. destruct H as (tiles & _ & H).
    pose proof (table_start_nonneg bin) as H15.
    apply L in H; [exact H | lia]. }
  split; [exact A|].
  intros deflateSync inflateSync savefile merged H.
  unfold modifytiles, modify in *.
  apply bind_ok_inv in H. destruct H as (bin & -> & H). cbv beta in H.
  apply bind_ok_inv in H. destruct H as (bin' & E & H).
  apply A in E. subst bin'. cbn [bind]. exact H.
Qed.

Lemma modifytiles_default_callback_witness :
  modifytiles_bin (fun b => b) one_tile_blob = Ok one_tile_blob /\
  modify stored_deflateSync stored_inflateSync tile_save (fun x => Ok x)
  = modifytiles stored_deflateSync stored_inflateSync tile_save (fun b => b).
Proof.
  destruct modifytiles_default_callback as (A & B). split.
  - assert (exists bin', modifytiles_bin (fun b => b) one_tile_blob = Ok bin')
      as [bin' E] by (eexists; vm_compute; reflexivity).
    rewrite E. f_equal. apply (A _ _ E).
  - assert (exists merged,
               modifytiles stored_deflateSync stored_inflateSync tile_save
                 (fun b => b) = Ok merged)
      as [merged E] by (eexists; vm_compute; reflexivity).
    rewrite E. apply B. exact E.
Defined.

(** X9. Whatever the callback returns, the pass never writes before the
    first record: the blob it returns has the length of the blob it was
    given and the same bytes up to the start of the table (the table marker
    and the tile count among them). *)
Theorem modifytiles_keeps_blob_header (callback : Buffer.t -> Buffer.t)
    (bin bin' : Buffer.t) :
  modifytiles_bin callback bin = Ok bin' ->
  let mindex := Buffer.indexOf searchBuffer bin 0 + 16 in
  Buffer.length bin' = Buffer.length bin /\
  Buffer.slice bin' 0 mindex = Buffer.slice bin 0 mindex.
Proof.
  intros H mindex. unfold modifytiles_bin in H. cbv zeta in H.
  apply bind_ok_inv in H. destruct H as (tiles & _ & H). fold mindex in H.
  pose proof (table_start_nonneg bin) as H15. fold mindex in H15.
  apply modifytiles_loop_frame in H; [|lia].
  destruct H as (Hlen & Hpre & _). split; [exact Hlen|].
  rewrite !slice_at_0 by lia. exact Hpre.
Qed.

Lemma modifytiles_keeps_blob_header_witness :
  exists bin',
    modifytiles_bin (fun _ => repeat xff 60) one_tile_blob = Ok bin' /\
    Buffer.slice bin' 0 16 = searchBuffer ++ [x01; x00; x00; x00].
Proof.
  eexists. split; [vm_compute; reflexivity|].
  match goal with
  | |- Buffer.slice ?b _ _ = _ =>
      destruct (modifytiles_keeps_blob_header (fun _ => repeat xff 60)
                  one_tile_blob b) as (_ & P)
  end.
  - vm_compute. reflexivity.
  - exact P.
Defined.

(** reads at or behind an offset see only the bytes from that offset on *)
Lemma get_skipn (b1 b2 : Buffer.t) (m off : Z) :
  0 <= m -> m <= off ->
  skipn (Z.to_nat m) b1 = skipn (Z.to_nat m) b2 ->
  Buffer.get b1 off = Buffer.get b2 off.
Proof.
  intros H0 H1 H. unfold Buffer.get. f_equal.
  replace (Z.to_nat off) with (Z.to_nat m + (Z.to_nat off - Z.to_nat m))%nat
    by lia.
  rewrite <- !nth_skipn, H. reflexivity.
Qed.

Lemma in_range_length (b1 b2 : Buffer.t) (off width : Z) :
  Buffer.length b1 = Buffer.length b2 ->
  Buffer.in_range b1 off width = Buffer.in_range b2 off width.
Proof. intro H. unfold Buffer.in_range. now rewrite H. Qed.

Lemma slice_length_bound (b : Buffer.t) (s e : Z) :
  0 <= s -> s <= e -> Buffer.length (Buffer.slice b s e) <= e - s.
Proof.
  intros H0 H1. unfold Buffer.slice, Buffer.clamp. cbv zeta.
  destruct (Z.ltb_spec s 0) as [|_]; [lia|].
  destruct (Z.ltb_spec e 0) as [|_]; [lia|].
  rewrite length_firstn_Z by lia.
  pose proof (length_nonneg b). lia.
Qed.

Lemma skipn_le_eq (a b : nat) (l1 l2 : Buffer.t) :
  (a <= b)%nat -> skipn a l1 = skipn a l2 -> skipn b l1 = skipn b l2.
Proof.
  intros Hab H. replace b with ((b - a) + a)%nat by lia.
  rewrite <- !skipn_skipn, H. reflexivity.
Qed.

(** two passes, with callbacks that are not lengthening, over blobs that
    agree from the cursor on: one turn of each *)
Lemma modifytiles_turn_related (cb1 cb2 : Buffer.t -> Buffer.t)
    (b1 b2 : Buffer.t) (mindex : Z) :
  not_lengthening cb1 -> not_lengthening cb2 ->
  0 <= mindex -> Buffer.length b1 = Buffer.length b2 ->
  skipn (Z.to_nat mindex) b1 = skipn (Z.to_nat mindex) b2 ->
  match modifytiles_turn cb1 b1 mindex, modifytiles_turn cb2 b2 mindex with
  | Ok (b1', m1), Ok (b2', m2) =>
      m1 = m2 /\ mindex <= m1 /\ Buffer.length b1' = Buffer.length b2' /\
      skipn (Z.to_nat m1) b1' = skipn (Z.to_nat m1) b2'
  | Throw e1, Throw e2 => e1 = e2
  | _, _ => False
  end.
Proof.
  intros N1 N2 H0 Hlen Hsk. unfold modifytiles_turn.
  assert (R8 : Buffer.readUInt8 b1 (mindex + 49)
               = Buffer.readUInt8 b2 (mindex + 49)).
  { unfold Buffer.readUInt8.
    rewrite (in_range_length b1 b2 _ _ Hlen).
    rewrite (get_skipn b1 b2 mindex (mindex + 49)) by (assumption || lia).
    reflexivity. }
  assert (R32 : Buffer.readUInt32LE b1 (mindex + 51)
                = Buffer.readUInt32LE b2 (mindex + 51)).
  { unfold Buffer.readUInt32LE, Buffer.le32.
    rewrite (in_range_length b1 b2 _ _ Hlen).
    rewrite (get_skipn b1 b2 mindex (mindex + 51)) by (assumption || lia).
    rewrite (get_skipn b1 b2 mindex (mindex + 51 + 1)) by (assumption || lia).
    rewrite (get_skipn b1 b2 mindex (mindex + 51 + 2)) by (assumption || lia).
    rewrite (get_skipn b1 b2 mindex (mindex + 51 + 3)) by (assumption || lia).
    reflexivity. }
  rewrite R8, R32.
  destruct (Buffer.readUInt8 b2 (mindex + 49)) as [num2|e]; cbn [bind];
    [|reflexivity].
  destruct (Buffer.readUInt32LE b2 (mindex + 51)) as [num|e]; cbn [bind];
    [|reflexivity].
  cbv zeta.
  pose proof (modifytiles_buflength_range num2 num) as Hb.
  set (bl := modifytiles_buflength num2 num) in *. clearbody bl.
  assert (S1 : forall cb b,
             not_lengthening cb ->
             skipn (Z.to_nat (mindex + 55 + bl))
               (Buffer.copy (cb (Buffer.slice b mindex (mindex + 55 + bl)))
                  b mindex)
             = skipn (Z.to_nat (mindex + 55 + bl)) b).
  { intros cb b N. apply copy_skipn; [exact H0|].
    pose proof (N (Buffer.slice b mindex (mindex + 55 + bl))) as Hn.
    pose proof (slice_length_bound b mindex (mindex + 55 + bl)) as Hs.
    lia. }
  split; [reflexivity|]. split; [lia|]. split.
  - rewrite !copy_length. exact Hlen.
  - rewrite (S1 cb1 b1 N1), (S1 cb2 b2 N2).
    apply (skipn_le_eq (Z.to_nat mindex)); [lia | exact Hsk].
Qed.

Lemma modifytiles_loop_related (cb1 cb2 : Buffer.t -> Buffer.t) (n : nat) :
  not_lengthening cb1 -> not_lengthening cb2 ->
  forall (b1 b2 : Buffer.t) (mindex : Z),
    0 <= mindex -> Buffer.length b1 = Buffer.length b2 ->
    skipn (Z.to_nat mindex) b1 = skipn (Z.to_nat mindex) b2 ->
    match modifytiles_loop cb1 n b1 mindex,
          modifytiles_loop cb2 n b2 mindex with
    | Ok _, Ok _ => True
    | Throw e1, Throw e2 => e1 = e2
    | _, _ => False
    end.
Proof.
  intros N1 N2.
  induction n as [|n IH]; intros b1 b2 mindex H0 Hlen Hsk;
    cbn [modifytiles_loop]; [exact I|].
  pose proof (modifytiles_turn_related cb1 cb2 b1 b2 mindex N1 N2 H0 Hlen Hsk)
    as T.
  destruct (modifytiles_turn cb1 b1 mindex) as [[b1' m1]|e1],
           (modifytiles_turn cb2 b2 mindex) as [[b2' m2]|e2];
    cbn [bind fst snd]; try contradiction.
  - destruct T as (<- & Hm & Hlen' & Hsk'). apply IH; [lia | assumption..].
  - exact T.
Qed.

(** X10. Whether the pass over the tile table fails does not depend on
    the callback, as long as the callback never returns more bytes than it
    is handed: the bytes the loop reads a record's length from are then
    those of the original blob. *)
Theorem modifytiles_failure_independent_of_callback
    (cb1 cb2 : Buffer.t -> Buffer.t) (bin : Buffer.t) (e : js_error) :
  not_lengthening cb1 -> not_lengthening cb2 ->
  (modifytiles_bin cb1 bin = Throw e <-> modifytiles_bin cb2 bin = Throw e).
Proof.
  intros N1 N2. unfold modifytiles_bin. cbv zeta.
  destruct (Buffer.readInt32LE bin (Buffer.indexOf searchBuffer bin 0 + 12))
    as [tiles|e0]; cbn [bind]; [|reflexivity].
  pose proof (table_start_nonneg bin) as H15.
  pose proof (modifytiles_loop_related cb1 cb2 (Z.to_nat tiles) N1 N2 bin bin
                (Buffer.indexOf searchBuffer bin 0 + 16)
                ltac:(lia) eq_refl eq_refl) as R.
  destruct (modifytiles_loop cb1 (Z.to_nat tiles) bin
              (Buffer.indexOf searchBuffer bin 0 + 16)) as [r1|e1],
           (modifytiles_loop cb2 (Z.to_nat tiles) bin
              (Buffer.indexOf searchBuffer bin 0 + 16)) as [r2|e2];
    try contradiction.
  - split; discriminate.
  - subst e2. reflexivity.
Qed.

Lemma modifytiles_failure_independent_of_callback_witness :
  modifytiles_bin (List.map (fun _ => xff)) short_table = Throw RangeError.
Proof.
  apply (modifytiles_failure_independent_of_callback
           (List.map (fun _ => xff)) (fun b => b) short_table RangeError).
  - intro t. unfold Buffer.length. rewrite List.length_map. lia.
  - intro t. lia.
  - vm_compute. reflexivity.
Defined.

(** * More on [savetomapjson] *)

(** the size table: every count it knows is the product of its sides *)
Lemma mapsizedata_some (tiles w h : Z) :
  mapsizedata tiles = Some (w, h) ->
  recognized tiles /\ w * h = tiles /\ 0 < w /\ 0 < h.
Proof.
  unfold mapsizedata, recognized. intro H.
  repeat match type of H with
  | (if ?a =? ?b then _ else _) = _ =>
      destruct (Z.eqb_spec a b) as [->|_];
        [injection H as <- <-; cbn [In]; repeat split; lia || tauto|]
  end.
  discriminate H.
Qed.

Lemma mapsizedata_x_ok (tiles sx : Z) :
  mapsizedata_x tiles = Ok sx ->
  exists h, mapsizedata tiles = Some (sx, h).
Proof.
  unfold mapsizedata_x. destruct (mapsizedata tiles) as [[w h]|];
    [|discriminate].
  intros [= <-]. exists h. reflexivity.
Qed.

(** ** The loops, record by record *)

Lemma Split_loop_app (n : nat) :
  forall (bin : Buffer.t) (tiles i mindex : Z) (acc : list Split.tile),
    Split.loop n bin tiles i mindex acc
    = (new <- Split.loop n bin tiles i mindex [] ;; Ok (acc ++ new)).
Proof.
  induction n as [|n IH]; intros bin tiles i mindex acc; cbn [Split.loop bind].
  - now rewrite app_nil_r.
  - destruct (Split.turn bin tiles i mindex) as [[t m']|e]; cbn [bind fst snd];
      [|reflexivity].
    rewrite (IH bin tiles (i + 1) m' (acc ++ [t])).
    rewrite (IH bin tiles (i + 1) m' ([] ++ [t])).
    destruct (Split.loop n bin tiles (i + 1) m' []) as [new|e]; cbn [bind];
      [|reflexivity].
    now rewrite <- app_assoc.
Qed.

Lemma Split_loop_cons (n : nat) (bin : Buffer.t) (tiles i mindex : Z)
    (ts : list Split.tile) :
  Split.loop (S n) bin tiles i mindex [] = Ok ts ->
  exists t m' rest,
    Split.turn bin tiles i mindex = Ok (t, m') /\
    Split.loop n bin tiles (i + 1) m' [] = Ok rest /\
    ts = t :: rest.
Proof.
  cbn [Split.loop]. intro H.
  apply bind_ok_inv in H. destruct H as ([t m'] & E & H). cbn [fst snd] in H.
  rewrite Split_loop_app in H.
  apply bind_ok_inv in H. destruct H as (rest & Er & H). injection H as <-.
  exists t, m', rest. repeat split; assumption.
Qed.

Lemma Flat_loop_app (n : nat) :
  forall (bin : Buffer.t) (tiles i mindex : Z) (acc : list Flat.tile),
    Flat.loop n bin tiles i mindex acc
    = (new <- Flat.loop n bin tiles i mindex [] ;; Ok (acc ++ new)).
Proof.
  induction n as [|n IH]; intros bin tiles i mindex acc; cbn [Flat.loop bind].
  - now rewrite app_nil_r.
  - destruct (Flat.turn bin tiles i mindex) as [[t m']|e]; cbn [bind fst snd];
      [|reflexivity].
    rewrite (IH bin tiles (i + 1) m' (acc ++ [t])).
    rewrite (IH bin tiles (i + 1) m' ([] ++ [t])).
    destruct (Flat.loop n bin tiles (i + 1) m' []) as [new|e]; cbn [bind];
      [|reflexivity].
    now rewrite <- app_assoc.
Qed.

Lemma Flat_loop_cons (n : nat) (bin : Buffer.t) (tiles i mindex : Z)
    (ts : list Flat.tile) :
  Flat.loop (S n) bin tiles i mindex [] = Ok ts ->
  exists t m' rest,
    Flat.turn bin tiles i mindex = Ok (t, m') /\
    Flat.loop n bin tiles (i + 1) m' [] = Ok rest /\
    ts = t :: rest.
Proof.
  cbn [Flat.loop]. intro H.
  apply bind_ok_inv in H. destruct H as ([t m'] & E & H). cbn [fst snd] in H.
  rewrite Flat_loop_app in H.
  apply bind_ok_inv in H. destruct H as (rest & Er & H). injection H as <-.
  exists t, m', rest. repeat split; assumption.
Qed.

(** one record of the structured view: where it starts, how long it is *)
Lemma Split_turn_extent (bin : Buffer.t) (tiles i mindex : Z)
    (t : Split.tile) (m' : Z) :
  Split.turn bin tiles i mindex = Ok (t, m') ->
  Split.hex_location t = mindex /\ m' = mindex + Split.tile_length t /\
  0 <= mindex /\ mindex + 55 <= Buffer.length bin /\
  55 <= Split.tile_length t <= 160.
Proof.
  intro H. pose proof (Split_turn_layout _ _ _ _ _ _ H) as L.
  cbv zeta in L.
  destruct L as (H0 & Ho & Hh & _ & _ & _ & _ & _ & _ & _ & Hl & Hm).
  rewrite Hl, Hm. split; [exact Hh|]. split; [lia|]. split; [exact H0|].
  split; [exact Ho|].
  repeat match goal with
  | |- context [if ?c then _ else _] => destruct c
  end; lia.
Qed.

(** one record of the flat view *)
Lemma Flat_turn_layout (bin : Buffer.t) (tiles i mindex : Z)
    (t : Flat.tile) (m' : Z) :
  Flat.turn bin tiles i mindex = Ok (t, m') ->
  let buflength :=
    Flat.buflength_of (Buffer.get bin (mindex + 49))
      (Buffer.get bin (mindex + 51)) in
  0 <= mindex /\ mindex + 55 <= Buffer.length bin /\
  Flat.hex_location t = mindex /\
  Flat.flags2 t = Buffer.get bin (mindex + 49) /\
  Flat.flags4 t = Buffer.get bin (mindex + 51) /\
  Flat.tile_length t = 55 + buflength /\
  Flat.buffer t
  = Buffer.toString_hex
      (Buffer.slice bin (mindex + 55) (mindex + 55 + buflength)) /\
  m' = mindex + 55 + buflength.
Proof.
  intros H. unfold Flat.turn in H. cbv zeta in H. bind_ok H.
  match goal with
  | X : Buffer.readUInt16LE bin mindex = Ok _ |- _ =>
      unfold Buffer.readUInt16LE in X;
      destruct (Buffer.in_range bin mindex 2) eqn:R0; [|discriminate X];
      apply in_range_spec in R0; destruct R0 as [H0 _]
  end.
  match goal with
  | X : Buffer.readUInt8 bin (mindex + 54) = Ok _ |- _ =>
      apply readUInt8_ok in X; destruct X as (_ & H55 & _)
  end.
  repeat match goal with
  | X : Buffer.readUInt8 bin (mindex + 49) = Ok _ |- _ =>
      apply readUInt8_ok in X; destruct X as (_ & _ & ->)
  | X : Buffer.readUInt8 bin (mindex + 51) = Ok _ |- _ =>
      apply readUInt8_ok in X; destruct X as (_ & _ & ->)
  end.
  injection H as <- <-. cbv zeta. cbn.
  repeat split; try reflexivity; lia.
Qed.

Lemma Flat_buflength_range (num1 num2 : Z) :
  0 <= Flat.buflength_of num1 num2 <= 85.
Proof.
  unfold Flat.buflength_of.
  destruct (truthy (Z.land num1 64)), (truthy (Z.land num2 1)),
    (truthy (Z.land num2 2)); lia.
Qed.

Lemma Flat_turn_extent (bin : Buffer.t) (tiles i mindex : Z)
    (t : Flat.tile) (m' : Z) :
  Flat.turn bin tiles i mindex = Ok (t, m') ->
  Flat.hex_location t = mindex /\ m' = mindex + Flat.tile_length t /\
  0 <= mindex /\ mindex + 55 <= Buffer.length bin /\
  55 <= Flat.tile_length t <= 140.
Proof.
  intro H. pose proof (Flat_turn_layout _ _ _ _ _ _ H) as L.
  cbv zeta in L. destruct L as (H0 & Ho & Hh & _ & _ & Hl & _ & Hm).
  pose proof (Flat_buflength_range (Buffer.get bin (mindex + 49))
                (Buffer.get bin (mindex + 51))) as Hb.
  rewrite Hl, Hm. repeat split; try assumption; lia.
Qed.

(** the records of a pass, in order: each is decoded where its
    [hex_location] says, the first at the start, each next one where the
    one before ends *)
Lemma Split_loop_records (n : nat) :
  forall (bin : Buffer.t) (tiles i mindex : Z) (ts : list Split.tile),
    Split.loop n bin tiles i mindex [] = Ok ts ->
    List.length ts = n /\
    forall k t, nth_error ts k = Some t ->
      exists m',
        Split.turn bin tiles (i + Z.of_nat k) (Split.hex_location t)
        = Ok (t, m') /\
        (k = 0%nat -> Split.hex_location t = mindex) /\
        mindex + 55 * Z.of_nat k <= Split.hex_location t /\
        (forall t', nth_error ts (S k) = Some t' ->
                    Split.hex_location t' = m').
Proof.
  induction n as [|n IH]; intros bin tiles i mindex ts H.
  - cbn in H. injection H as <-. split; [reflexivity|].
    intros [|k] t Hk; discriminate Hk.
  - apply Split_loop_cons in H. destruct H as (t0 & m0 & rest & E & H & ->).
    pose proof (Split_turn_extent _ _ _ _ _ _ E) as (Hh & Hm & H0 & Hin & Hl).
    apply IH in H. destruct H as (Hlen & Hrec).
    split; [cbn [List.length]; lia|].
    intros [|k] t Hk.
    + cbn in Hk. injection Hk as <-. exists m0.
      rewrite Z.add_0_r, Hh. split; [exact E|]. split; [reflexivity|].
      split; [lia|].
      intros t' Ht'. cbn [nth_error] in Ht'.
      destruct (Hrec 0%nat t' Ht') as (_ & _ & Hfirst & _).
      now apply Hfirst.
    + cbn [nth_error] in Hk. destruct (Hrec k t Hk) as (m' & Et & _ & Hge & Hn).
      exists m'.
      replace (i + Z.of_nat (S k)) with (i + 1 + Z.of_nat k) by lia.
      split; [exact Et|]. split; [discriminate|]. split; [lia|].
      intros t' Ht'. cbn [nth_error] in Ht'. now apply Hn.
Qed.

Lemma Flat_loop_records (n : nat) :
  forall (bin : Buffer.t) (tiles i mindex : Z) (ts : list Flat.tile),
    Flat.loop n bin tiles i mindex [] = Ok ts ->
    List.length ts = n /\
    forall k t, nth_error ts k = Some t ->
      exists m',
        Flat.turn bin tiles (i + Z.of_nat k) (Flat.hex_location t)
        = Ok (t, m') /\
        (k = 0%nat -> Flat.hex_location t = mindex) /\
        mindex + 55 * Z.of_nat k <= Flat.hex_location t /\
        (forall t', nth_error ts (S k) = Some t' ->
                    Flat.hex_location t' = m').
Proof.
  induction n as [|n IH]; intros bin tiles i mindex ts H.
  - cbn in H. injection H as <-. split; [reflexivity|].
    intros [|k] t Hk; discriminate Hk.
  - apply Flat_loop_cons in H. destruct H as (t0 & m0 & rest & E & H & ->).
    pose proof (Flat_turn_extent _ _ _ _ _ _ E) as (Hh & Hm & H0 & Hin & Hl).
    apply IH in H. destruct H as (Hlen & Hrec).
    split; [cbn [List.length]; lia|].
    intros [|k] t Hk.
    + cbn in Hk. injection Hk as <-. exists m0.
      rewrite Z.add_0_r, Hh. split; [exact E|]. split; [reflexivity|].
      split; [lia|].
      intros t' Ht'. cbn [nth_error] in Ht'.
      destruct (Hrec 0%nat t' Ht') as (_ & _ & Hfirst & _).
      now apply Hfirst.
    + cbn [nth_error] in Hk. destruct (Hrec k t Hk) as (m' & Et & _ & Hge & Hn).
      exists m'.
      replace (i + Z.of_nat (S k)) with (i + 1 + Z.of_nat k) by lia.
      split; [exact Et|]. split; [discriminate|]. split; [lia|].
      intros t' Ht'. cbn [nth_error] in Ht'. now apply Hn.
Qed.

(** X11. The records [savetomapjson] (the revision with [buffer1] ..
    [buffer4]) returns tile the table: when its loop returns, it returns as
    many records as it made turns, the first starts where the loop started,
    every next one starts where the one before ends ([hex_location] plus
    [tile_length]), every record has its 55-byte header inside the blob and
    a length between 55 and 160. *)
Theorem Split_records_are_contiguous (n : nat) (bin : Buffer.t)
    (tiles i mindex : Z) (ts : list Split.tile) :
  Split.loop n bin tiles i mindex [] = Ok ts ->
  List.length ts = n /\
  (forall t, nth_error ts 0 = Some t -> Split.hex_location t = mindex) /\
  (forall k t t',
      nth_error ts k = Some t -> nth_error ts (S k) = Some t' ->
      Split.hex_location t' = Split.hex_location t + Split.tile_length t) /\
  (forall t, In t ts ->
      0 <= Split.hex_location t /\
      Split.hex_location t + 55 <= Buffer.length bin /\
      55 <= Split.tile_length t <= 160).
Proof.
  intro H. apply Split_loop_records in H. destruct H as (Hlen & Hrec).
  split; [exact Hlen|]. split; [|split].
  - intros t Ht. destruct (Hrec _ _ Ht) as (_ & _ & Hf & _). now apply Hf.
  - intros k t t' Ht Ht'. destruct (Hrec _ _ Ht) as (m' & E & _ & _ & Hn).
    rewrite (Hn _ Ht').
    now destruct (Split_turn_extent _ _ _ _ _ _ E) as (_ & -> & _).
  - intros t Hin. apply In_nth_error in Hin. destruct Hin as [k Hk].
    destruct (Hrec _ _ Hk) as (m' & E & _).
    destruct (Split_turn_extent _ _ _ _ _ _ E) as (_ & _ & H0 & H55 & Hl).
    repeat split; lia.
Qed.

Lemma Split_records_are_contiguous_witness :
  exists t t',
    Split.loop 2 two_records 1144 0 0 [] = Ok [t; t'] /\
    Split.hex_location t = 0 /\
    Split.hex_location t' = Split.hex_location t + Split.tile_length t.
Proof.
  assert (exists t t', Split.loop 2 two_records 1144 0 0 [] = Ok [t; t'])
    as (t & t' & E) by (do 2 eexists; vm_compute; reflexivity).
  exists t, t'. split; [exact E|].
  destruct (Split_records_are_contiguous 2 two_records 1144 0 0 [t; t'] E)
    as (_ & F & C & _).
  split; [apply F; reflexivity | apply (C 0%nat); reflexivity].
Defined.

(** X12. The same for the revision of [savetomapjson] with one trailing
    [buffer]: as many records as turns, the first at the start, each next
    one at [hex_location] plus [tile_length] of the one before, every
    header inside the blob, lengths between 55 and 140. *)
Theorem Flat_records_are_contiguous (n : nat) (bin : Buffer.t)
    (tiles i mindex : Z) (ts : list Flat.tile) :
  Flat.loop n bin tiles i mindex [] = Ok ts ->
  List.length ts = n /\
  (forall t, nth_error ts 0 = Some t -> Flat.hex_location t = mindex) /\
  (forall k t t',
      nth_error ts k = Some t -> nth_error ts (S k) = Some t' ->
      Flat.hex_location t' = Flat.hex_location t + Flat.tile_length t) /\
  (forall t, In t ts ->
      0 <= Flat.hex_location t /\
      Flat.hex_location t + 55 <= Buffer.length bin /\
      55 <= Flat.tile_length t <= 140).
Proof.
  intro H. apply Flat_loop_records in H. destruct H as (Hlen & Hrec).
  split; [exact Hlen|]. split; [|split].
  - intros t Ht. destruct (Hrec _ _ Ht) as (_ & _ & Hf & _). now apply Hf.
  - intros k t t' Ht Ht'. destruct (Hrec _ _ Ht) as (m' & E & _ & _ & Hn).
    rewrite (Hn _ Ht').
    now destruct (Flat_turn_extent _ _ _ _ _ _ E) as (_ & -> & _).
  - intros t Hin. apply In_nth_error in Hin. destruct Hin as [k Hk].
    destruct (Hrec _ _ Hk) as (m' & E & _).
    destruct (Flat_turn_extent _ _ _ _ _ _ E) as (_ & _ & H0 & H55 & Hl).
    repeat split; lia.
Qed.

Lemma Flat_records_are_contiguous_witness :
  exists t t',
    Flat.loop 2 (record_with_C ++ sample_record) 1144 0 0 [] = Ok [t; t'] /\
    Flat.hex_location t = 0 /\
    Flat.hex_location t' = Flat.hex_location t + Flat.tile_length t.
Proof.
  assert (exists t t',
             Flat.loop 2 (record_with_C ++ sample_record) 1144 0 0 []
             = Ok [t; t'])
    as (t & t' & E) by (do 2 eexists; vm_compute; reflexivity).
  exists t, t'. split; [exact E|].
  destruct (Flat_records_are_contiguous 2 (record_with_C ++ sample_record)
              1144 0 0 [t; t'] E) as (_ & F & C & _).
  split; [apply F; reflexivity | apply (C 0%nat); reflexivity].
Defined.

(** X13. Every record but the last one lies inside the blob, since the
    header of the next one has been read behind it: for these records the
    fields [buffer1] .. [buffer4] match the flag bytes without any
    condition on the blob. *)
Theorem Split_inner_records_match_flags (n : nat) (bin : Buffer.t)
    (tiles i mindex : Z) (ts : list Split.tile) (k : nat) (t : Split.tile) :
  Split.loop n bin tiles i mindex [] = Ok ts ->
  nth_error ts k = Some t -> (S k < n)%nat ->
  Split.hex_location t + Split.tile_length t + 55 <= Buffer.length bin /\
  subbuffers_match_flags bin t.
Proof.
  intros H Hk Hlast. apply Split_loop_records in H. destruct H as (Hlen & Hrec).
  destruct (Hrec _ _ Hk) as (m' & E & _ & _ & Hn).
  destruct (nth_error ts (S k)) as [t'|] eqn:Ek';
    [|apply nth_error_None in Ek'; lia].
  specialize (Hn t' eq_refl).
  destruct (Hrec _ _ Ek') as (m'' & E' & _).
  destruct (Split_turn_extent _ _ _ _ _ _ E) as (_ & Hm & _).
  destruct (Split_turn_extent _ _ _ _ _ _ E') as (_ & _ & _ & H55 & _).
  assert (Hin : Split.hex_location t + Split.tile_length t + 55
                <= Buffer.length bin) by lia.
  split; [exact Hin|].
  apply (Split_turn_subbuffers _ _ _ _ _ _ E). lia.
Qed.

Lemma Split_inner_records_match_flags_witness :
  exists t t',
    Split.loop 2 two_records 1144 0 0 [] = Ok [t; t'] /\
    subbuffers_match_flags two_records t.
Proof.
  assert (exists t t', Split.loop 2 two_records 1144 0 0 [] = Ok [t; t'])
    as (t & t' & E) by (do 2 eexists; vm_compute; reflexivity).
  exists t, t'. split; [exact E|].
  apply (Split_inner_records_match_flags 2 two_records 1144 0 0 [t; t']
           0%nat t E); [reflexivity | lia].
Defined.

Lemma Split_loop_room (n : nat) (bin : Buffer.t) (tiles i mindex : Z)
    (ts : list Split.tile) :
  Split.loop n bin tiles i mindex [] = Ok ts -> (0 < n)%nat ->
  mindex + 55 * Z.of_nat n <= Buffer.length bin.
Proof.
  intros H Hn. apply Split_loop_records in H. destruct H as (Hlen & Hrec).
  destruct (nth_error ts (n - 1)) as [t|] eqn:Et;
    [|apply nth_error_None in Et; lia].
  destruct (Hrec _ _ Et) as (m' & E & _ & Hge & _).
  destruct (Split_turn_extent _ _ _ _ _ _ E) as (_ & _ & _ & H55 & _). lia.
Qed.

Lemma Flat_loop_room (n : nat) (bin : Buffer.t) (tiles i mindex : Z)
    (ts : list Flat.tile) :
  Flat.loop n bin tiles i mindex [] = Ok ts -> (0 < n)%nat ->
  mindex + 55 * Z.of_nat n <= Buffer.length bin.
Proof.
  intros H Hn. apply Flat_loop_records in H. destruct H as (Hlen & Hrec).
  destruct (nth_error ts (n - 1)) as [t|] eqn:Et;
    [|apply nth_error_None in Et; lia].
  destruct (Hrec _ _ Et) as (m' & E & _ & Hge & _).
  destruct (Flat_turn_extent _ _ _ _ _ _ E) as (_ & _ & _ & H55 & _). lia.
Qed.

(** X14. No walker returns part of a table: when the tile count announces
    more records than the blob has room for behind the count, at 55 bytes
    each, [modifytiles] fails with a [RangeError], whatever the callback,
    and both revisions of [savetomapjson] fail. *)
Theorem announced_records_must_fit (callback : Buffer.t -> Buffer.t)
    (bin : Buffer.t) (tiles : Z) :
  tile_count bin = Ok tiles -> 0 < tiles ->
  Buffer.length bin < Buffer.indexOf searchBuffer bin 0 + 16 + 55 * tiles ->
  modifytiles_bin callback bin = Throw RangeError /\
  throws (Split.savetomapjson_bin bin) /\
  throws (Flat.savetomapjson_bin bin).
Proof.
  intros Hc Hpos Hshort. unfold tile_count in Hc.
  pose proof (table_start_nonneg bin) as H15.
  split; [|split].
  - destruct (modifytiles_bin_outcome callback bin) as [H|(bin' & H & _)];
      [exact H|].
    exfalso. unfold modifytiles_bin in H. cbv zeta in H. rewrite Hc in H.
    cbn [bind] in H. apply modifytiles_loop_frame in H; [|lia].
    destruct H as (_ & _ & Hroom). specialize (Hroom ltac:(lia)). lia.
  - unfold Split.savetomapjson_bin. cbv zeta. rewrite Hc. cbn [bind].
    destruct (Split.loop (Z.to_nat tiles) bin tiles 0
                (Buffer.indexOf searchBuffer bin 0 + 16) []) as [ts|e] eqn:E.
    + exfalso. apply Split_loop_room in E; lia.
    + exists e. reflexivity.
  - unfold Flat.savetomapjson_bin. cbv zeta. rewrite Hc. cbn [bind].
    destruct (Flat.loop (Z.to_nat tiles) bin tiles 0
                (Buffer.indexOf searchBuffer bin 0 + 16) []) as [ts|e] eqn:E.
    + exfalso. apply Flat_loop_room in E; lia.
    + exists e. reflexivity.
Qed.

Lemma announced_records_must_fit_witness :
  modifytiles_bin (fun b => b) short_table = Throw RangeError /\
  throws (Split.savetomapjson_bin short_table) /\
  throws (Flat.savetomapjson_bin short_table).
Proof.
  apply (announced_records_must_fit (fun b => b) short_table 2).
  - vm_compute. reflexivity.
  - lia.
  - apply Z.ltb_lt. vm_compute. reflexivity.
Defined.

(** X15. The size table and the grid: every tile count [mapsizedata]
    knows is the product of its width and height; so the records of a pass
    that starts at index 0 and makes no more turns than the count get
    coordinates inside the grid, [0 <= x < width] and [0 <= y < height],
    and record [k] is the cell [y * width + x]: no two records share a
    cell. *)
Theorem coordinates_fill_the_grid (n : nat) (bin : Buffer.t)
    (tiles w h mindex : Z) :
  mapsizedata tiles = Some (w, h) -> Z.of_nat n <= tiles ->
  w * h = tiles /\
  (forall ts k t,
      Split.loop n bin tiles 0 mindex [] = Ok ts ->
      nth_error ts k = Some t ->
      0 <= Split.x t < w /\ 0 <= Split.y t < h /\
      Z.of_nat k = Split.y t * w + Split.x t) /\
  (forall ts k t,
      Flat.loop n bin tiles 0 mindex [] = Ok ts ->
      nth_error ts k = Some t ->
      0 <= Flat.x t < w /\ 0 <= Flat.y t < h /\
      Z.of_nat k = Flat.y t * w + Flat.x t).
Proof.
  intros Hw Hn.
  destruct (mapsizedata_some _ _ _ Hw) as (_ & Hprod & Hwpos & Hhpos).
  assert (G : forall k : nat,
             Z.of_nat k < tiles ->
             0 <= Z.of_nat k mod w < w /\ 0 <= Z.of_nat k / w < h /\
             Z.of_nat k = Z.of_nat k / w * w + Z.of_nat k mod w).
  { intros k Hk. split; [apply Z.mod_pos_bound; lia|]. split.
    - split; [apply Z.div_pos; lia|].
      apply Z.div_lt_upper_bound; lia.
    - pose proof (Z.div_mod (Z.of_nat k) w ltac:(lia)). lia. }
  split; [exact Hprod|]. split.
  - intros ts k t H Hk.
    destruct (Split_loop_coords n bin tiles w h 0 mindex ts k t Hw H Hk)
      as [-> ->].
    assert (Hlt : (k < n)%nat).
    { apply Split_loop_records in H. destruct H as (<- & _).
      apply nth_error_Some. congruence. }
    cbn [Z.add]. apply G. lia.
  - intros ts k t H Hk.
    destruct (Flat_loop_coords n bin tiles w h 0 mindex ts k t Hw H Hk)
      as [-> ->].
    assert (Hlt : (k < n)%nat).
    { apply Flat_loop_records in H. destruct H as (<- & _).
      apply nth_error_Some. congruence. }
    cbn [Z.add]. apply G. lia.
Qed.

Lemma coordinates_fill_the_grid_witness :
  exists t t',
    Split.loop 2 two_records 2280 0 0 [] = Ok [t; t'] /\
    0 <= Split.x t' < 60 /\ 0 <= Split.y t' < 38 /\
    1 = Split.y t' * 60 + Split.x t'.
Proof.
  assert (exists t t', Split.loop 2 two_records 2280 0 0 [] = Ok [t; t'])
    as (t & t' & E) by (do 2 eexists; vm_compute; reflexivity).
  exists t, t'. split; [exact E|].
  destruct (coordinates_fill_the_grid 2 two_records 2280 60 38 0 eq_refl
              ltac:(cbn; lia)) as (_ & S & _).
  apply (S [t; t'] 1%nat t' E eq_refl).
Defined.

(** X24. The older revision of [savetomapjson] reports one [buffer]
    behind the header: for every record its loop returns, [tile_length] is
    55 plus 17 on [flags2 & 64], 24 on [flags4 & 1] and 44 on [flags4 & 2];
    [buffer] is the hex text of the bytes between the header and
    [hex_location + tile_length], cut where the blob ends; so it has two
    hex digits for each of these bytes when the record lies inside the
    blob. *)
Theorem Flat_buffer_matches_flags (n : nat) (bin : Buffer.t)
    (tiles i mindex : Z) (ts : list Flat.tile) (t : Flat.tile) :
  Flat.loop n bin tiles i mindex [] = Ok ts ->
  In t ts ->
  let extra :=
    (if truthy (Z.land (Flat.flags2 t) 64) then 17 else 0)
    + (if truthy (Z.land (Flat.flags4 t) 1) then 24 else 0)
    + (if truthy (Z.land (Flat.flags4 t) 2) then 44 else 0) in
  Flat.flags2 t = Buffer.get bin (Flat.hex_location t + 49) /\
  Flat.flags4 t = Buffer.get bin (Flat.hex_location t + 51) /\
  Flat.tile_length t = 55 + extra /\
  Flat.buffer t
  = Buffer.toString_hex
      (Buffer.slice bin (Flat.hex_location t + 55)
         (Flat.hex_location t + Flat.tile_length t)) /\
  (Flat.hex_location t + Flat.tile_length t <= Buffer.length bin ->
   String.length (Flat.buffer t) = Z.to_nat (2 * extra)).
Proof.
  intros H Hin. apply In_nth_error in Hin. destruct Hin as [k Hk].
  apply Flat_loop_records in H. destruct H as (_ & Hrec).
  destruct (Hrec _ _ Hk) as (m' & E & _).
  pose proof (Flat_turn_layout _ _ _ _ _ _ E) as L. cbv zeta in L.
  destruct L as (H0 & H55 & _ & E2 & E4 & El & Eb & _).
  cbv zeta. rewrite E2, E4.
  assert (Hx : Flat.buflength_of (Buffer.get bin (Flat.hex_location t + 49))
                 (Buffer.get bin (Flat.hex_location t + 51))
               = (if truthy (Z.land (Buffer.get bin (Flat.hex_location t + 49))
                               64) then 17 else 0)
                 + (if truthy (Z.land (Buffer.get bin
                                         (Flat.hex_location t + 51)) 1)
                    then 24 else 0)
                 + (if truthy (Z.land (Buffer.get bin
                                         (Flat.hex_location t + 51)) 2)
                    then 44 else 0)).
  { unfold Flat.buflength_of.
    destruct (truthy _), (truthy _), (truthy _); reflexivity. }
  rewrite Hx in El, Eb.
  set (extra := _ + _ + _) in *.
  assert (Hext : 0 <= extra).
  { subst extra.
    repeat match goal with
    | |- context [if ?c then _ else _] => destruct c
    end; lia. }
  clearbody extra.
  split; [reflexivity|]. split; [reflexivity|]. split; [exact El|]. split.
  - rewrite Eb, El. do 2 f_equal. lia.
  - intro Hin. rewrite Eb.
    apply (hex_slice_present bin (Flat.hex_location t + 55) extra); lia.
Qed.

Lemma Flat_buffer_matches_flags_witness :
  exists t,
    Flat.loop 1 record_with_C 1144 0 0 [] = Ok [t] /\
    Flat.tile_length t = 99 /\ String.length (Flat.buffer t) = 88%nat.
Proof.
  assert (exists t, Flat.loop 1 record_with_C 1144 0 0 [] = Ok [t])
    as (t & E) by (eexists; vm_compute; reflexivity).
  exists t. split; [exact E|].
  destruct (Flat_buffer_matches_flags 1 record_with_C 1144 0 0 [t] t E
              ltac:(left; reflexivity)) as (E2 & E4 & El & _ & Hlen).
  assert (Hh : Flat.hex_location t = 0).
  { apply Flat_loop_records in E. destruct E as (_ & Hrec).
    destruct (Hrec 0%nat t eq_refl) as (_ & _ & Hf & _). now apply Hf. }
  rewrite Hh in E2, E4, Hlen.
  assert (V2 : Flat.flags2 t = 0) by (rewrite E2; vm_compute; reflexivity).
  assert (V4 : Flat.flags4 t = 2) by (rewrite E4; vm_compute; reflexivity).
  rewrite V2, V4 in El, Hlen. cbn in El, Hlen.
  split; [exact El|]. rewrite Hlen.
  - reflexivity.
  - rewrite El. apply Z.leb_le. vm_compute. reflexivity.
Defined.

(** * The sub-buffers of a decoded record, revision by revision *)




(** * The two revisions of [savetomapjson], and [modifytiles] beside them *)

Lemma clamp_nonneg (b : Buffer.t) (i : Z) :
  0 <= i -> Buffer.clamp b i = Z.min i (Buffer.length b).
Proof. intro H. unfold Buffer.clamp. destruct (Z.ltb_spec i 0); lia. Qed.

(** adjacent slices join, also where the blob ends inside them *)
Lemma slice_join (b : Buffer.t) (s m e : Z) :
  0 <= s -> s <= m -> m <= e ->
  Buffer.slice b s m ++ Buffer.slice b m e = Buffer.slice b s e.
Proof.
  intros H0 H1 H2. unfold Buffer.slice. cbv zeta.
  rewrite !clamp_nonneg by lia.
  pose proof (length_nonneg b) as Hl.
  set (cs := Z.min s (Buffer.length b)).
  set (cm := Z.min m (Buffer.length b)).
  set (ce := Z.min e (Buffer.length b)).
  replace (Z.to_nat (ce - cs))
    with (Z.to_nat (cm - cs) + Z.to_nat (ce - cm))%nat by lia.
  rewrite firstn_plus, skipn_skipn.
  replace (Z.to_nat (cm - cs) + Z.to_nat cs)%nat with (Z.to_nat cm) by lia.
  reflexivity.
Qed.

Lemma in_range_true (b : Buffer.t) (off width : Z) :
  0 <= off -> off + width <= Buffer.length b ->
  Buffer.in_range b off width = true.
Proof. intros. apply in_range_spec. lia. Qed.

Lemma in_range_false (b : Buffer.t) (off width : Z) :
  Buffer.length b < off + width -> Buffer.in_range b off width = false.
Proof.
  intro H. destruct (Buffer.in_range b off width) eqn:E; [|reflexivity].
  apply in_range_spec in E. lia.
Qed.

Lemma recognized_mapsizedata_x (tiles : Z) :
  recognized tiles <-> exists sx, mapsizedata_x tiles = Ok sx.
Proof.
  unfold mapsizedata_x. split.
  - intro H. destruct (mapsizedata tiles) as [[w h]|] eqn:E.
    + exists w. reflexivity.
    + apply mapsizedata_recognized in E. contradiction.
  - intros [sx H]. destruct (mapsizedata tiles) as [[w h]|] eqn:E;
      [|discriminate H].
    now destruct (mapsizedata_some _ _ _ E).
Qed.

Ltac reads_in_range bin :=
  repeat match goal with
  | |- context [Buffer.in_range bin ?off ?w] =>
      rewrite (in_range_true bin off w) by lia
  end.

(** a record of the flat view decodes as soon as its header is inside *)
Lemma Flat_turn_succeeds (bin : Buffer.t) (tiles i mindex sx : Z) :
  mapsizedata_x tiles = Ok sx ->
  0 <= mindex -> mindex + 55 <= Buffer.length bin ->
  exists t m', Flat.turn bin tiles i mindex = Ok (t, m').
Proof.
  intros Hsx H0 H55. unfold Flat.turn. rewrite Hsx.
  unfold Buffer.readUInt8, Buffer.readInt8, Buffer.readUInt16LE,
    Buffer.readInt16LE, Buffer.readUInt32LE, Buffer.readInt32LE.
  reads_in_range bin.
  cbv beta iota zeta delta [bind].
  do 2 eexists. reflexivity.
Qed.

(** a record of the structured view: the header, and byte 20 of
    sub-buffer A when [flags4 & 1] *)
Lemma Split_turn_eval (bin : Buffer.t) (tiles i mindex sx : Z) :
  mapsizedata_x tiles = Ok sx ->
  0 <= mindex -> mindex + 55 <= Buffer.length bin ->
  (truthy (Z.land (Buffer.get bin (mindex + 51)) 1) = true /\
   Buffer.length bin < mindex + 76 /\
   Split.turn bin tiles i mindex = Throw RangeError) \/
  ((truthy (Z.land (Buffer.get bin (mindex + 51)) 1) = true ->
    mindex + 76 <= Buffer.length bin) /\
   exists t m', Split.turn bin tiles i mindex = Ok (t, m')).
Proof.
  intros Hsx H0 H55. unfold Split.turn. rewrite Hsx.
  unfold Buffer.readUInt8, Buffer.readInt8, Buffer.readUInt16LE,
    Buffer.readInt16LE, Buffer.readUInt32LE, Buffer.readInt32LE.
  reads_in_range bin.
  cbv beta iota zeta delta [bind].
  destruct (truthy (Z.land (Buffer.get bin (mindex + 51)) 1)) eqn:Ea.
  - destruct (Z_le_gt_dec (mindex + 76) (Buffer.length bin)) as [Hin|Hout].
    + right. split; [intros _; exact Hin|].
      rewrite (in_range_true bin (mindex + 55 + 20) 1) by lia.
      cbv beta iota.
      destruct (truthy (Z.land (Buffer.get bin (mindex + 55 + 20)) 1));
        destruct (truthy (Z.land (Buffer.get bin (mindex + 51)) 2));
        destruct (truthy (Z.land (Buffer.get bin (mindex + 49)) 64));
        cbv beta iota; do 2 eexists; reflexivity.
    + left. split; [reflexivity|]. split; [lia|].
      rewrite (in_range_false bin (mindex + 55 + 20) 1) by lia.
      reflexivity.
  - right. split; [discriminate|].
    destruct (truthy (Z.land (Buffer.get bin (mindex + 51)) 2));
      destruct (truthy (Z.land (Buffer.get bin (mindex + 49)) 64));
      cbv beta iota; do 2 eexists; reflexivity.
Qed.

(** X16. When a record decodes: for a tile count the size table knows,
    the older revision needs the 55-byte header inside the blob and nothing
    else; the newer one needs, besides, byte 20 of sub-buffer A inside the
    blob when [flags4 & 1]. The sub-buffers themselves are sliced, not
    read: a record whose sub-buffers run past the end of the blob is
    returned all the same, with shorter hex strings. *)
Theorem record_decodes_iff_header_inside (bin : Buffer.t)
    (tiles i mindex : Z) :
  (decodes (Flat.turn bin tiles i mindex) <->
   recognized tiles /\ 0 <= mindex /\ mindex + 55 <= Buffer.length bin) /\
  (decodes (Split.turn bin tiles i mindex) <->
   recognized tiles /\ 0 <= mindex /\ mindex + 55 <= Buffer.length bin /\
   (Z.land (Buffer.get bin (mindex + 51)) 1 <> 0 ->
    mindex + 76 <= Buffer.length bin)).
Proof.
  unfold decodes. split; split.
  - intros (t & m' & H).
    pose proof (Flat_turn_layout _ _ _ _ _ _ H) as L. cbv zeta in L.
    destruct L as (H0 & H55 & _).
    split; [|split; assumption].
    unfold Flat.turn in H. cbv zeta in H. do 3 bind_step H.
    apply recognized_mapsizedata_x. eexists. eassumption.
  - intros (Hr & H0 & H55). apply recognized_mapsizedata_x in Hr.
    destruct Hr as [sx Hsx]. now apply (Flat_turn_succeeds _ _ _ _ sx).
  - intros (t & m' & H).
    pose proof (Split_turn_extent _ _ _ _ _ _ H) as (_ & _ & H0 & H55 & _).
    assert (Hr : recognized tiles).
    { pose proof H as H'. unfold Split.turn in H'. cbv zeta in H'.
      bind_step H'. apply recognized_mapsizedata_x. eexists. eassumption. }
    split; [exact Hr|]. split; [exact H0|]. split; [exact H55|].
    intro Ha. apply truthy_true in Ha.
    apply recognized_mapsizedata_x in Hr. destruct Hr as [sx Hsx].
    destruct (Split_turn_eval bin tiles i mindex sx Hsx H0 H55)
      as [(_ & _ & E)|(Hin & _)].
    + rewrite E in H. discriminate H.
    + apply Hin. exact Ha.
  - intros (Hr & H0 & H55 & Ha). apply recognized_mapsizedata_x in Hr.
    destruct Hr as [sx Hsx].
    destruct (Split_turn_eval bin tiles i mindex sx Hsx H0 H55)
      as [(Et & Hout & _)|(_ & H)]; [|exact H].
    apply truthy_true in Et. specialize (Ha Et). lia.
Qed.

Lemma record_decodes_iff_header_inside_witness :
  decodes (Flat.turn cut_record 1144 0 0) /\
  ~ decodes (Split.turn cut_record 1144 0 0).
Proof.
  destruct (record_decodes_iff_header_inside cut_record 1144 0 0) as (F & S).
  split.
  - apply F. split; [left; reflexivity|].
    split; [lia | apply Z.leb_le; vm_compute; reflexivity].
  - intro H. apply S in H. destruct H as (_ & _ & _ & H).
    assert (Hlen : 0 + 76 <= Buffer.length cut_record)
      by (apply H; vm_compute; discriminate).
    vm_compute in Hlen. apply Hlen. reflexivity.
Defined.

(** X17. The two revisions of [savetomapjson] on the same record: they
    agree on where it starts; the newer one is longer by the 20 bytes of
    sub-buffer B exactly when the record has one, which the older revision
    does not know of; without B, the [buffer] of the older revision is
    [buffer1], [buffer3] and [buffer4] of the newer one in a row. *)
Theorem revisions_differ_by_subbuffer_B (bin : Buffer.t)
    (tiles i mindex : Z) (tf : Flat.tile) (mf : Z) (ts : Split.tile) (ms : Z) :
  Flat.turn bin tiles i mindex = Ok (tf, mf) ->
  Split.turn bin tiles i mindex = Ok (ts, ms) ->
  let has_B :=
    truthy (Z.land (Split.flags4 ts) 1)
    && truthy (Z.land (Buffer.get bin (mindex + 55 + 20)) 1) in
  Flat.hex_location tf = Split.hex_location ts /\
  Split.tile_length ts = Flat.tile_length tf + (if has_B then 20 else 0) /\
  ms = mf + (if has_B then 20 else 0) /\
  (has_B = false ->
   Split.buffer2 ts = EmptyString /\
   Flat.buffer tf
   = (Split.buffer1 ts ++ Split.buffer3 ts ++ Split.buffer4 ts)%string).
Proof.
  intros HF HS.
  pose proof (Flat_turn_layout _ _ _ _ _ _ HF) as F. cbv zeta in F.
  destruct F as (H0 & H55 & Fh & _ & _ & Fl & Fb & Fm).
  pose proof (Split_turn_layout _ _ _ _ _ _ HS) as S. cbv zeta in S.
  destruct S as (_ & _ & Sh & _ & S4 & S1 & _ & S2 & S3 & S4b & Sl & Sm).
  cbv zeta. rewrite S4, Fh, Sh, Fl, Sl, Fm, Sm, Fb, S1, S2, S3, S4b.
  unfold Flat.buflength_of.
  destruct (truthy (Z.land (Buffer.get bin (mindex + 51)) 1)) eqn:Ea;
    destruct (truthy (Z.land (Buffer.get bin (mindex + 55 + 20)) 1)) eqn:Eb;
    destruct (truthy (Z.land (Buffer.get bin (mindex + 51)) 2)) eqn:Ec;
    destruct (truthy (Z.land (Buffer.get bin (mindex + 49)) 64)) eqn:Ed;
    cbn [andb];
    (split; [reflexivity|]); (split; [lia|]); (split; [lia|]);
    try (intro Hb; discriminate Hb); intros _;
    rewrite ?Z.add_0_r; rewrite ?slice_empty by lia;
    (split; [reflexivity|]);
    rewrite <- !toString_hex_app;
    rewrite ?app_nil_r; cbn [app];
    rewrite ?slice_join by lia; rewrite ?slice_empty by lia;
    repeat (f_equal; try lia).
Qed.

Lemma revisions_differ_by_subbuffer_B_witness :
  exists tf mf ts ms,
    Flat.turn sample_record 1144 0 0 = Ok (tf, mf) /\
    Split.turn sample_record 1144 0 0 = Ok (ts, ms) /\
    Split.tile_length ts = Flat.tile_length tf + 20 /\ ms = mf + 20.
Proof.
  assert (exists tf mf, Flat.turn sample_record 1144 0 0 = Ok (tf, mf))
    as (tf & mf & HF) by (do 2 eexists; vm_compute; reflexivity).
  assert (exists ts ms, Split.turn sample_record 1144 0 0 = Ok (ts, ms))
    as (ts & ms & HS) by (do 2 eexists; vm_compute; reflexivity).
  exists tf, mf, ts, ms. split; [exact HF|]. split; [exact HS|].
  destruct (revisions_differ_by_subbuffer_B sample_record 1144 0 0
              tf mf ts ms HF HS) as (_ & L & M & _).
  assert (E4 : Split.flags4 ts = 3).
  { destruct (Split_turn_layout _ _ _ _ _ _ HS)
      as (_ & _ & _ & _ & E & _). rewrite E. reflexivity. }
  rewrite E4 in L, M. split; [exact L | exact M].
Defined.

Lemma get_range (b : Buffer.t) (off : Z) : 0 <= Buffer.get b off < 256.
Proof.
  unfold Buffer.get, Buffer.Z_of_byte.
  pose proof (Byte.to_N_bounded (nth (Z.to_nat off) b x00)). lia.
Qed.

(** on a number below 128, bit 6 is set exactly from 64 on *)
Lemma truthy_land_64 (z : Z) :
  0 <= z < 128 -> truthy (Z.land z 64) = (64 <=? z).
Proof.
  intro H. change 64 with (2 ^ 6) at 1. rewrite truthy_land_bit by lia.
  destruct (Z.leb_spec 64 z) as [Hge|Hlt].
  - apply Z.testbit_true; [lia|].
    replace (z / 2 ^ 6) with 1; [reflexivity|].
    apply Z.div_unique with (r := z - 64); lia.
  - apply not_true_is_false. intro T. apply Z.testbit_true in T; [|lia].
    rewrite Z.div_small in T by lia. discriminate T.
Qed.

Lemma Split_turn_flags (bin : Buffer.t) (tiles i mindex : Z)
    (t : Split.tile) (m' : Z) :
  Split.turn bin tiles i mindex = Ok (t, m') ->
  Split.flags5 t = Buffer.get bin (mindex + 52) /\
  Split.flags6 t = Buffer.get bin (mindex + 53) /\
  Split.flags7 t = Buffer.get bin (mindex + 54).
Proof.
  intros H. unfold Split.turn in H. cbv zeta in H. bind_ok H.
  repeat match goal with
  | X : Buffer.readUInt8 bin (mindex + 52) = Ok _ |- _ =>
      apply readUInt8_ok in X; destruct X as (_ & _ & ->)
  | X : Buffer.readUInt8 bin (mindex + 53) = Ok _ |- _ =>
      apply readUInt8_ok in X; destruct X as (_ & _ & ->)
  | X : Buffer.readUInt8 bin (mindex + 54) = Ok _ |- _ =>
      apply readUInt8_ok in X; destruct X as (_ & _ & ->)
  end.
  match goal with
  | X : (if ?c then _ else _) = Ok _ |- _ =>
      destruct c;
      [ bind_ok X;
        match type of X with
        | (if ?c2 then _ else _) = _ => destruct c2
        end
      | ];
      injection X as <-
  end.
  all: repeat match type of H with
       | context [if ?c then _ else _] => destruct c
       end.
  all: cbv beta iota zeta in H; injection H as <- <-.
  all: repeat split; reflexivity.
Qed.

(** X18. Where [modifytiles] and [savetomapjson] agree. On a record
    whose [flags4] is 0 or 1, whose [flags5], [flags6] and [flags7] are 0,
    whose [flags2] is below 128 and whose sub-buffer A, if there is one,
    has bit 0 of its byte 20 clear (so: no sub-buffers B and C), the loop of
    [modifytiles] moves on by the length [savetomapjson] reports. *)
Theorem modifytiles_agrees_on_plain_records
    (callback : Buffer.t -> Buffer.t) (bin : Buffer.t) (tiles i mindex : Z)
    (t : Split.tile) (m2 : Z) (bin' : Buffer.t) (m1 : Z) :
  Split.turn bin tiles i mindex = Ok (t, m2) ->
  modifytiles_turn callback bin mindex = Ok (bin', m1) ->
  Split.flags4 t <= 1 ->
  Split.flags5 t = 0 -> Split.flags6 t = 0 -> Split.flags7 t = 0 ->
  Split.flags2 t < 128 ->
  (forall v, Split.buffer1_flag t = Some v -> Z.land v 1 = 0) ->
  m1 = m2 /\ m1 - mindex = Split.tile_length t.
Proof.
  intros HS HM H4 H5 H6 H7 H2 HB.
  pose proof (Split_turn_flags _ _ _ _ _ _ HS) as (E5 & E6 & E7).
  pose proof (Split_turn_layout _ _ _ _ _ _ HS) as L. cbv zeta in L.
  destruct L as (_ & _ & _ & E2 & E4 & _ & EB & _ & _ & _ & El & Em).
  apply modifytiles_turn_inv in HM. cbv zeta in HM.
  destruct HM as (_ & _ & ->).
  rewrite El, Em. clear El Em.
  assert (Hle : Buffer.le32 bin (mindex + 51) = Buffer.get bin (mindex + 51)).
  { unfold Buffer.le32.
    replace (mindex + 51 + 1) with (mindex + 52) by lia.
    replace (mindex + 51 + 2) with (mindex + 53) by lia.
    replace (mindex + 51 + 3) with (mindex + 54) by lia.
    rewrite <- E5, <- E6, <- E7, H5, H6, H7. lia. }
  rewrite Hle. unfold modifytiles_buflength. cbv zeta.
  pose proof (get_range bin (mindex + 49)) as R2.
  pose proof (get_range bin (mindex + 51)) as R4.
  rewrite E2 in H2. rewrite E4 in H4.
  rewrite (truthy_land_64 (Buffer.get bin (mindex + 49))) by lia.
  assert (Hb : truthy (Z.land (Buffer.get bin (mindex + 51)) 1)
               && truthy (Z.land (Buffer.get bin (mindex + 55 + 20)) 1)
               = false).
  { destruct (truthy (Z.land (Buffer.get bin (mindex + 51)) 1));
      [|reflexivity].
    cbn [andb]. apply truthy_false. apply HB. exact EB. }
  rewrite Hb.
  destruct (Z.eq_dec (Buffer.get bin (mindex + 51)) 0) as [Z0|Z0].
  - rewrite Z0. cbn. destruct (64 <=? Buffer.get bin (mindex + 49)); lia.
  - replace (Buffer.get bin (mindex + 51)) with 1 by lia.
    cbn. destruct (64 <=? Buffer.get bin (mindex + 49)); lia.
Qed.

Lemma modifytiles_agrees_on_plain_records_witness :
  exists t bin',
    Split.turn plain_record 1144 0 0 = Ok (t, 96) /\
    modifytiles_turn (fun b => b) plain_record 0 = Ok (bin', 96) /\
    Split.tile_length t = 96.
Proof.
  assert (exists t m2, Split.turn plain_record 1144 0 0 = Ok (t, m2))
    as (t & m2 & HS) by (do 2 eexists; vm_compute; reflexivity).
  assert (exists bin' m1,
             modifytiles_turn (fun b => b) plain_record 0 = Ok (bin', m1))
    as (bin' & m1 & HM) by (do 2 eexists; vm_compute; reflexivity).
  pose proof (Split_turn_flags _ _ _ _ _ _ HS) as (E5 & E6 & E7).
  pose proof (Split_turn_layout _ _ _ _ _ _ HS) as L. cbv zeta in L.
  destruct L as (_ & _ & _ & E2 & E4 & _ & EB & _).
  destruct (modifytiles_agrees_on_plain_records (fun b => b) plain_record
              1144 0 0 t m2 bin' m1 HS HM) as (A & B).
  - rewrite E4. apply Z.leb_le. vm_compute. reflexivity.
  - rewrite E5. vm_compute. reflexivity.
  - rewrite E6. vm_compute. reflexivity.
  - rewrite E7. vm_compute. reflexivity.
  - rewrite E2. apply Z.ltb_lt. vm_compute. reflexivity.
  - intros v Hv. rewrite EB in Hv. vm_compute in Hv. injection Hv as <-.
    reflexivity.
  - assert (E1 : m1 = 96).
    { apply modifytiles_turn_inv in HM. cbv zeta in HM.
      destruct HM as (_ & _ & ->). vm_compute. reflexivity. }
    subst m1. subst m2. exists t, bin'.
    split; [exact HS|]. split; [exact HM|]. lia.
Defined.

(** * What the decoders do not look at *)

Lemma get_agree (b1 b2 : Buffer.t) (lo hi off : Z) :
  firstn (Z.to_nat lo) b1 = firstn (Z.to_nat lo) b2 ->
  skipn (Z.to_nat hi) b1 = skipn (Z.to_nat hi) b2 ->
  0 <= hi -> (0 <= off < lo \/ hi <= off) ->
  Buffer.get b1 off = Buffer.get b2 off.
Proof.
  intros Hf Hs Hhi [Hlo|Hge].
  - unfold Buffer.get. f_equal.
    assert (E : forall b : Buffer.t,
               nth (Z.to_nat off) b x00
               = nth (Z.to_nat off) (firstn (Z.to_nat lo) b) x00).
    { intro b. rewrite nth_firstn.
      destruct (Nat.ltb_spec (Z.to_nat off) (Z.to_nat lo)); [reflexivity|lia]. }
    rewrite (E b1), (E b2), Hf. reflexivity.
  - now apply (get_skipn b1 b2 hi off).
Qed.

Lemma slice_agree (b1 b2 : Buffer.t) (hi s e : Z) :
  Buffer.length b1 = Buffer.length b2 ->
  skipn (Z.to_nat hi) b1 = skipn (Z.to_nat hi) b2 ->
  0 <= hi -> hi <= s ->
  Buffer.slice b1 s e = Buffer.slice b2 s e.
Proof.
  intros Hl Hs H0 H1. unfold Buffer.slice, Buffer.clamp. cbv zeta.
  rewrite Hl. f_equal.
  destruct (Z.ltb_spec s 0) as [|_]; [lia|].
  pose proof (length_nonneg b2) as Hn.
  destruct (Z.min_spec s (Buffer.length b2)) as [[_ ->]|[Hc ->]].
  - apply (skipn_le_eq (Z.to_nat hi)); [lia | exact Hs].
  - assert (E : forall b : Buffer.t,
               Buffer.length b = Buffer.length b2 ->
               skipn (Z.to_nat (Buffer.length b2)) b = []).
    { intros b Hb. apply skipn_all2. unfold Buffer.length in *. lia. }
    rewrite (E b1 Hl), (E b2 eq_refl). reflexivity.
Qed.

Lemma bind_cong {A B : Type} (c1 c2 : result A) (k1 k2 : A -> result B) :
  c1 = c2 -> (forall a, c1 = Ok a -> k1 a = k2 a) ->
  bind c1 k1 = bind c2 k2.
Proof.
  intros <- H. destruct c1 as [a|e]; cbn [bind]; [|reflexivity].
  now apply H.
Qed.

Ltac same_read bin bin2 mindex Hl Hf Hs :=
  first
    [ reflexivity
    | unfold Buffer.readUInt8, Buffer.readInt8, Buffer.readUInt16LE,
        Buffer.readInt16LE, Buffer.readUInt32LE, Buffer.readInt32LE,
        Buffer.le16, Buffer.le32;
      rewrite (in_range_length bin bin2 _ _ Hl);
      repeat match goal with
      | |- context [Buffer.get bin ?off] =>
          rewrite (get_agree bin bin2 (mindex + 6) (mindex + 8) off Hf Hs)
            by lia
      end;
      reflexivity ].

Ltac same_slices bin bin2 mindex Hl Hs :=
  repeat match goal with
  | |- context [Buffer.slice bin ?s ?e] =>
      rewrite (slice_agree bin bin2 (mindex + 8) s e Hl Hs) by lia
  end.

Lemma Flat_turn_agree (bin bin2 : Buffer.t) (tiles i mindex : Z) :
  0 <= mindex -> Buffer.length bin = Buffer.length bin2 ->
  firstn (Z.to_nat (mindex + 6)) bin = firstn (Z.to_nat (mindex + 6)) bin2 ->
  skipn (Z.to_nat (mindex + 8)) bin = skipn (Z.to_nat (mindex + 8)) bin2 ->
  Flat.turn bin tiles i mindex = Flat.turn bin2 tiles i mindex.
Proof.
  intros Hm Hl Hf Hs. unfold Flat.turn. cbv zeta.
  repeat (apply bind_cong;
          [same_read bin bin2 mindex Hl Hf Hs | intros ? _]).
  same_slices bin bin2 mindex Hl Hs. reflexivity.
Qed.

Lemma Split_turn_agree (bin bin2 : Buffer.t) (tiles i mindex : Z) :
  0 <= mindex -> Buffer.length bin = Buffer.length bin2 ->
  firstn (Z.to_nat (mindex + 6)) bin = firstn (Z.to_nat (mindex + 6)) bin2 ->
  skipn (Z.to_nat (mindex + 8)) bin = skipn (Z.to_nat (mindex + 8)) bin2 ->
  Split.turn bin tiles i mindex = Split.turn bin2 tiles i mindex.
Proof.
  intros Hm Hl Hf Hs. unfold Split.turn. cbv zeta.
  do 31 (apply bind_cong;
         [same_read bin bin2 mindex Hl Hf Hs | intros ? _]).
  apply bind_cong.
  - match goal with |- (if ?c then _ else _) = _ => destruct c end;
      [|reflexivity].
    apply bind_cong; [same_read bin bin2 mindex Hl Hf Hs | intros ? _].
    same_slices bin bin2 mindex Hl Hs. reflexivity.
  - intros [[[b1 f1] b2] mx] Hst.
    assert (Hmx : mindex + 55 <= mx).
    { match type of Hst with
      | (if ?c then _ else _) = _ => destruct c
      end.
      - apply bind_ok_inv in Hst. destruct Hst as (v & _ & Hst).
        cbv beta in Hst.
        match type of Hst with
        | (if ?c then _ else _) = _ => destruct c
        end; injection Hst as _ _ _ <-; lia.
      - injection Hst as _ _ _ <-. lia. }
    repeat match goal with
    | |- context [if ?c then _ else _] => destruct c
    end; same_slices bin bin2 mindex Hl Hs; reflexivity.
Qed.

(** X19. Neither revision of [savetomapjson] looks at bytes 6 and 7 of a
    record's header: two blobs of the same length that agree before offset
    6 of the record and from offset 8 of the record on give the same
    outcome, record for record. *)
Theorem header_bytes_6_7_not_read (bin bin2 : Buffer.t) (tiles i mindex : Z) :
  0 <= mindex -> Buffer.length bin = Buffer.length bin2 ->
  Buffer.slice bin 0 (mindex + 6) = Buffer.slice bin2 0 (mindex + 6) ->
  Buffer.slice_from bin (mindex + 8) = Buffer.slice_from bin2 (mindex + 8) ->
  Split.turn bin tiles i mindex = Split.turn bin2 tiles i mindex /\
  Flat.turn bin tiles i mindex = Flat.turn bin2 tiles i mindex.
Proof.
  intros Hm Hl Hf Hs.
  rewrite !slice_at_0 in Hf by lia.
  rewrite !slice_from_inside in Hs by lia.
  split.
  - now apply Split_turn_agree.
  - now apply Flat_turn_agree.
Qed.

Lemma header_bytes_6_7_not_read_witness :
  Split.turn sample_record 1144 0 0 = Split.turn sample_record_67 1144 0 0 /\
  sample_record <> sample_record_67.
Proof.
  split.
  - apply (header_bytes_6_7_not_read sample_record sample_record_67 1144 0 0).
    + lia.
    + vm_compute. reflexivity.
    + vm_compute. reflexivity.
    + vm_compute. reflexivity.
  - vm_compute. discriminate.
Defined.

Lemma le32_low_half (b : Buffer.t) (off : Z) :
  Buffer.signed 4 (Buffer.le32 b off) mod 65536 = Buffer.le16 b off.
Proof.
  unfold Buffer.signed, Buffer.le32, Buffer.le16.
  pose proof (get_range b off) as R0.
  pose proof (get_range b (off + 1)) as R1.
  set (g0 := Buffer.get b off) in *.
  set (g1 := Buffer.get b (off + 1)) in *.
  set (g2 := Buffer.get b (off + 2)).
  set (g3 := Buffer.get b (off + 3)).
  clearbody g0 g1 g2 g3.
  change (2 ^ (8 * 4)) with (65536 * 65536).
  destruct (g0 + 256 * g1 + 65536 * g2 + 16777216 * g3 <? 2 ^ (8 * 4 - 1)).
  - replace (g0 + 256 * g1 + 65536 * g2 + 16777216 * g3)
      with (g0 + 256 * g1 + (g2 + 256 * g3) * 65536) by lia.
    rewrite Z_mod_plus_full. apply Z.mod_small. lia.
  - replace (g0 + 256 * g1 + 65536 * g2 + 16777216 * g3 - 65536 * 65536)
      with (g0 + 256 * g1 + (g2 + 256 * g3 - 65536) * 65536) by lia.
    rewrite Z_mod_plus_full. apply Z.mod_small. lia.
Qed.

(** X20. The field [int16_4] carries nothing of its own: both revisions
    read it at offset 8 of the record, where [landmass] is read too, so it
    is the low 16 bits of [landmass] (read as a signed number in the newer
    revision, as an unsigned one in the older). *)
Theorem int16_4_is_low_half_of_landmass (bin : Buffer.t)
    (tiles i mindex : Z) :
  (forall t m',
      Split.turn bin tiles i mindex = Ok (t, m') ->
      Split.int16_4 t = Buffer.signed 2 (Split.landmass t mod 65536)) /\
  (forall t m',
      Flat.turn bin tiles i mindex = Ok (t, m') ->
      Flat.int16_4 t = Flat.landmass t mod 65536).
Proof.
  split; intros t m' H.
  - unfold Split.turn in H. cbv zeta in H. do 7 bind_step H.
    match goal with
    | X : Buffer.readInt16LE bin (mindex + 8) = Ok ?v |- _ =>
        unfold Buffer.readInt16LE in X;
        destruct (Buffer.in_range bin (mindex + 8) 2); [|discriminate X];
        injection X as <-
    end.
    match goal with
    | X : Buffer.readInt32LE bin (mindex + 8) = Ok ?v |- _ =>
        unfold Buffer.readInt32LE in X;
        destruct (Buffer.in_range bin (mindex + 8) 4); [|discriminate X];
        injection X as <-
    end.
    bind_ok H.
    match goal with
    | X : (if ?c then _ else _) = Ok _ |- _ =>
        destruct c;
        [ bind_ok X;
          match type of X with
          | (if ?c2 then _ else _) = _ => destruct c2
          end
        | ];
        injection X as <-
    end.
    all: repeat match type of H with
         | context [if ?c then _ else _] => destruct c
         end.
    all: cbv beta iota zeta in H; injection H as <- <-.
    all: cbn [Split.int16_4 Split.landmass].
    all: rewrite le32_low_half; reflexivity.
  - unfold Flat.turn in H. cbv zeta in H. do 9 bind_step H.
    match goal with
    | X : Buffer.readUInt16LE bin (mindex + 8) = Ok ?v |- _ =>
        unfold Buffer.readUInt16LE in X;
        destruct (Buffer.in_range bin (mindex + 8) 2); [|discriminate X];
        injection X as <-
    end.
    match goal with
    | X : Buffer.readUInt32LE bin (mindex + 8) = Ok ?v |- _ =>
        unfold Buffer.readUInt32LE in X;
        destruct (Buffer.in_range bin (mindex + 8) 4); [|discriminate X];
        injection X as <-
    end.
    bind_ok H. injection H as <- <-.
    cbn [Flat.int16_4 Flat.landmass].
    unfold Buffer.le32, Buffer.le16.
    pose proof (get_range bin (mindex + 8)) as R0.
    pose proof (get_range bin (mindex + 8 + 1)) as R1.
    replace (Buffer.get bin (mindex + 8) + 256 * Buffer.get bin (mindex + 8 + 1)
             + 65536 * Buffer.get bin (mindex + 8 + 2)
             + 16777216 * Buffer.get bin (mindex + 8 + 3))
      with (Buffer.get bin (mindex + 8) + 256 * Buffer.get bin (mindex + 8 + 1)
            + (Buffer.get bin (mindex + 8 + 2)
               + 256 * Buffer.get bin (mindex + 8 + 3)) * 65536) by lia.
    rewrite Z_mod_plus_full. symmetry. apply Z.mod_small. lia.
Qed.

Lemma int16_4_is_low_half_of_landmass_witness :
  exists t m',
    Split.turn landmass_record 1144 0 0 = Ok (t, m') /\
    Split.landmass t = 131070 /\ Split.int16_4 t = -2.
Proof.
  assert (exists t m', Split.turn landmass_record 1144 0 0 = Ok (t, m'))
    as (t & m' & H) by (do 2 eexists; vm_compute; reflexivity).
  exists t, m'. split; [exact H|].
  assert (L : Split.landmass t = 131070).
  { pose proof H as H'. vm_compute in H'. injection H' as <- _. reflexivity. }
  split; [exact L|].
  rewrite (proj1 (int16_4_is_low_half_of_landmass landmass_record 1144 0 0)
             t m' H), L.
  reflexivity.
Defined.

(** * The table script *)

Lemma count_char_app (c : ascii) (a b : string) :
  count_char c (a ++ b) = (count_char c a + count_char c b)%nat.
Proof.
  induction a as [|x a IH]; cbn [append count_char]; [reflexivity|].
  rewrite IH. lia.
Qed.

Lemma escape_no_separator (c x : ascii) :
  separator x -> count_char x (escape c) = 0%nat.
Proof.
  intros [->| ->];
    destruct c as [[|] [|] [|] [|] [|] [|] [|] [|]]; reflexivity.
Qed.

Lemma escape_string_no_separator (s : string) (x : ascii) :
  separator x -> count_char x (escape_string s) = 0%nat.
Proof.
  intro Hx. induction s as [|c s IH]; cbn [escape_string]; [reflexivity|].
  rewrite count_char_app, IH, (escape_no_separator c x Hx). reflexivity.
Qed.

Lemma string_of_uint_no_separator (d : Decimal.uint) (x : ascii) :
  separator x -> count_char x (NilEmpty.string_of_uint d) = 0%nat.
Proof.
  intros [->| ->]; induction d; cbn [NilEmpty.string_of_uint count_char];
    rewrite ?IHd; reflexivity.
Qed.

Lemma JSON_stringify_no_separator (b : json_value) (x : ascii) :
  separator x -> count_char x (JSON_stringify b) = 0%nat.
Proof.
  intro Hx. destruct b as [z|s]; cbn [JSON_stringify].
  - unfold NilZero.string_of_int, NilZero.string_of_uint.
    destruct (Z.to_int z) as [d|d].
    + destruct d; try apply (string_of_uint_no_separator _ x Hx).
      destruct Hx as [->| ->]; reflexivity.
    + cbn [count_char]. 
      replace (Ascii.eqb "-" x) with false
        by (destruct Hx as [->| ->]; reflexivity).
      destruct d; try apply (string_of_uint_no_separator _ x Hx).
      destruct Hx as [->| ->]; reflexivity.
  - cbn [count_char]. rewrite count_char_app, escape_string_no_separator
      by exact Hx.
    destruct Hx as [->| ->]; reflexivity.
Qed.

(** joining cells that hold no separator with tabs, and ending the line *)
Lemma concat_tab_count (cells : list string) (x : ascii) :
  Forall (fun s => count_char x s = 0%nat) cells ->
  count_char x (String.concat (String tab EmptyString) cells)
  = if Ascii.eqb tab x then (List.length cells - 1)%nat else 0%nat.
Proof.
  induction 1 as [|s cells Hs Hcells IH]; cbn [String.concat].
  - destruct (Ascii.eqb tab x); reflexivity.
  - destruct cells as [|s' cells'].
    + rewrite Hs. destruct (Ascii.eqb tab x); reflexivity.
    + rewrite !count_char_app, Hs, IH. cbn [count_char List.length].
      destruct (Ascii.eqb tab x); lia.
Qed.

Lemma line_is_table_line (cells : list string) :
  cells <> [] ->
  Forall (fun s => count_char tab s = 0%nat /\ count_char newline s = 0%nat)
    cells ->
  table_line (List.length cells)
    (String.concat (String tab EmptyString) cells ++ String newline EmptyString).
Proof.
  intros Hne H. unfold table_line. rewrite !count_char_app.
  rewrite (concat_tab_count cells tab)
    by (eapply Forall_impl; [|exact H]; cbv beta; tauto).
  rewrite (concat_tab_count cells newline)
    by (eapply Forall_impl; [|exact H]; cbv beta; tauto).
  cbn. destruct cells as [|c cells]; [contradiction|].
  cbn [List.length]. split; [lia|]. split; [reflexivity|].
  eexists. reflexivity.
Qed.

Lemma Split_object_header (t : Split.tile) :
  table_line 38
    (String.concat (String tab EmptyString) (Object_keys (Split_object t))
     ++ String newline EmptyString).
Proof.
  apply (line_is_table_line (Object_keys (Split_object t))).
  - discriminate.
  - cbn [Object_keys Split_object List.map fst].
    repeat (constructor; [split; reflexivity|]). constructor.
Qed.

Lemma Split_object_line (t : Split.tile) :
  table_line 38
    (String.concat (String tab EmptyString)
       (List.map (fun b => JSON_stringify b) (Object_values (Split_object t)))
     ++ String newline EmptyString).
Proof.
  apply (line_is_table_line
           (List.map (fun b => JSON_stringify b)
              (Object_values (Split_object t)))).
  - discriminate.
  - apply Forall_map. apply Forall_forall. intros b _. split;
      apply JSON_stringify_no_separator; [left | right]; reflexivity.
Qed.

Lemma Ok_inj {A : Type} (a b : A) : Ok a = Ok b -> a = b.
Proof. now intros [= ->]. Qed.

(** X21. The table the script writes is rectangular: when there is at
    least one tile, the text is a header line followed by one line per
    tile, and each of these lines has 38 columns (37 tabs) and ends with
    its only line end, whatever the values are; [JSON.stringify] never
    leaves a tab or a line end in a cell. *)
Theorem table_is_rectangular (tiles : list Split.tile) (file : string) :
  table (List.map Split_object tiles) = Ok file ->
  exists header lines,
    file = (header ++ String.concat EmptyString lines)%string /\
    List.length lines = List.length tiles /\
    Forall (table_line 38) (header :: lines).
Proof.
  unfold table. destruct tiles as [|t0 tiles]; [discriminate|].
  cbn [List.map nth_error]. cbv zeta. intro H. apply Ok_inj in H.
  subst file. eexists. eexists. split; [reflexivity|]. split.
  - cbn [List.length]. now rewrite !List.length_map.
  - constructor; [apply Split_object_header|].
    constructor; [apply Split_object_line|].
    apply Forall_map. apply Forall_map. apply Forall_forall. intros t _.
    apply Split_object_line.
Qed.

Lemma table_is_rectangular_witness :
  exists t file header lines,
    Split.loop 1 sample_record 1144 0 0 [] = Ok [t] /\
    table [Split_object t] = Ok file /\
    file = (header ++ String.concat EmptyString lines)%string /\
    List.length lines = 1%nat /\
    Forall (table_line 38) (header :: lines).
Proof.
  assert (exists t, Split.loop 1 sample_record 1144 0 0 [] = Ok [t])
    as (t & E) by (eexists; vm_compute; reflexivity).
  assert (exists file, table [Split_object t] = Ok file)
    as (file & F) by (eexists; reflexivity).
  destruct (table_is_rectangular [t] file F) as (header & lines & A & B & C).
  exists t, file, header, lines. repeat split; assumption.
Defined.

(** X22. On a save file whose table announces no tiles (a count of zero
    or less) [savetomapjson] returns an empty list and the script, given
    both its arguments, then fails with the [TypeError] of
    [Object.keys(json.tiles[0])]: nothing is written. *)
Theorem savetomaptable_without_tiles
    (inflateSync : Buffer.t -> option Buffer.t)
    (readFileSync : string -> Buffer.t) (argv2 argv3 : string)
    (bin : Buffer.t) (tiles : Z) :
  argv2 <> EmptyString -> argv3 <> EmptyString ->
  decompress inflateSync (readFileSync argv2) = Ok bin ->
  tile_count bin = Ok tiles -> tiles <= 0 ->
  Split.savetomapjson inflateSync (readFileSync argv2)
  = Ok {| Split.tiles := [] |} /\
  savetomaptable inflateSync readFileSync argv2 argv3 = Throw TypeError.
Proof.
  intros H2 H3 Hd Hc Hz.
  destruct (savetomapjson_no_turn bin tiles Hc Hz) as (HS & _).
  assert (E : Split.savetomapjson inflateSync (readFileSync argv2)
              = Ok {| Split.tiles := [] |}).
  { unfold Split.savetomapjson. rewrite Hd. cbn [bind]. exact HS. }
  split; [exact E|].
  unfold savetomaptable, argument_given.
  destruct (String.eqb_spec argv2 EmptyString) as [|_]; [contradiction|].
  destruct (String.eqb_spec argv3 EmptyString) as [|_]; [contradiction|].
  cbn [negb andb]. rewrite E. reflexivity.
Qed.

Lemma savetomaptable_without_tiles_witness :
  savetomaptable stored_inflateSync (fun _ => empty_table_save)
    "game.Civ6Save" "map"
  = Throw TypeError.
Proof.
  apply (savetomaptable_without_tiles stored_inflateSync
           (fun _ => empty_table_save) "game.Civ6Save" "map"
           zero_count_blob 0).
  - discriminate.
  - discriminate.
  - vm_compute. reflexivity.
  - vm_compute. reflexivity.
  - lia.
Defined.
